(** * RentAnalyzer: the booking pipeline of [main_file_analyzer.py]

    A shallow embedding of the normalizer ([calculate_income],
    [validate_dates], [normalize_data]), the aggregator
    ([analyze_stay_days]) and the writer ([normalize_df_dates],
    [save2xlsx]), with the properties the specification states about them.

    Conventions of the embedding.
    - A pandas [DataFrame] is a [Frame]: its header ([columns]) and its rows
      in order.  A [Row] has one field per column the module ever touches;
      a field whose column the header does not list carries no information.
      The index is not modelled: every mask and every column the module
      assigns is derived from the frame it is applied to, and the writer is
      called with [index=False].
    - Frames are Python objects: they live in a heap and are passed by
      reference.  A column assignment [df[c] = ...] updates the object in
      place; boolean indexing, [sort_values], [groupby] and [copy] allocate.
    - [logger.warning] and [print] append to the log of the world; the
      message is kept as the constructor and its arguments.
    - Floating-point numbers, [float()], the rate table of the settings
      module, the date parser behind [pd.to_datetime] and the spreadsheet
      writer are parameters of the development: every theorem holds for any
      choice of them.  The required columns, also of the settings module,
      are those the specification lists.
    - The property of a row is a text, as the data model has it; source and
      amount may be empty cells. *)

From stdpp Require Import gmap strings list sorting pretty.
From Stdlib Require Import Ascii String QArith.

Local Open Scope string_scope.
Local Open Scope Z_scope.

(** ** Calendar arithmetic

    A [Timestamp] is a count of nanoseconds since 1970-01-01, a
    [datetime.date] a count of days, and a monthly [Period] a count of
    months (pandas' ordinals). *)

Definition day_ns : Z := 86400000000000.

(** Proleptic Gregorian calendar: day number to (year, month, day). *)
Definition civil_from_days (z : Z) : Z * Z * Z :=
  let z := z + 719468 in
  let era := z `div` 146097 in
  let doe := z - era * 146097 in
  let yoe := (doe - doe `div` 1460 + doe `div` 36524 - doe `div` 146096) `div` 365 in
  let doy := doe - (365 * yoe + yoe `div` 4 - yoe `div` 100) in
  let mp := (5 * doy + 2) `div` 153 in
  let d := doy - (153 * mp + 2) `div` 5 + 1 in
  let m := if bool_decide (mp < 10) then mp + 3 else mp - 9 in
  let y := yoe + era * 400 in
  (if bool_decide (m ≤ 2) then y + 1 else y, m, d).

(** (year, month, day) to day number. *)
Definition days_from_civil (y m d : Z) : Z :=
  let y := if bool_decide (m ≤ 2) then y - 1 else y in
  let era := y `div` 400 in
  let yoe := y - era * 400 in
  let mp := if bool_decide (2 < m) then m - 3 else m + 9 in
  let doy := (153 * mp + 2) `div` 5 + d - 1 in
  let doe := yoe * 365 + yoe `div` 4 - yoe `div` 100 + doy in
  era * 146097 + doe - 719468.

(** Ordinal of the month (year, month). *)
Definition month_ordinal (y m : Z) : Z := (y - 1970) * 12 + (m - 1).

(** [Timestamp.to_period('M')]. *)
Definition period_of_timestamp (t : Z) : Z :=
  let '(y, m, _) := civil_from_days (t `div` day_ns) in month_ordinal y m.

(** [Timestamp.date()]: the time of day is dropped. *)
Definition date_of_timestamp (t : Z) : Z := t `div` day_ns.

(** [(b - a).days]: whole days, rounded towards minus infinity. *)
Definition timedelta_days (b a : Z) : Z := (b - a) `div` day_ns.

(** What [date.today()] returns. *)
Record date := mkdate { year : Z; month : Z; day : Z }.

(** ** Decimal text *)

Definition digit_of_ascii (c : ascii) : option Z :=
  let n := Z.of_N (N_of_ascii c) in
  if bool_decide (48 ≤ n ≤ 57) then Some (n - 48) else None.

Fixpoint number_of_digits (acc : Z) (s : string) : option Z :=
  match s with
  | EmptyString => Some acc
  | String c s' =>
      match digit_of_ascii c with
      | Some d => number_of_digits (10 * acc + d) s'
      | None => None
      end
  end.

(** A non-empty run of decimal digits. *)
Definition number_of_string (s : string) : option Z :=
  match s with
  | EmptyString => None
  | _ => number_of_digits 0 s
  end.

(** [s.split(sep)] for a one-character separator, as a list of fields. *)
Fixpoint split_on (sep : ascii) (s : string) : list string :=
  match s with
  | EmptyString => [EmptyString]
  | String c s' =>
      if Ascii.eqb c sep then EmptyString :: split_on sep s'
      else match split_on sep s' with
           | [] => [String c EmptyString]
           | f :: fs => String c f :: fs
           end
  end.

(** [Period(s, freq='M')] on the texts this module builds: a four-digit
    year, a dash and a month of one or two digits ("2025-3" and "2025-03"
    are both March 2025, "2025-11" is November).  Any other text is not
    recognised here ([None]). *)
Definition Period_of_string (s : string) : option Z :=
  match split_on "-" s with
  | [ys; ms] =>
      if bool_decide (String.length ys = 4%nat
                      ∧ (String.length ms = 1%nat ∨ String.length ms = 2%nat)) then
        match number_of_string ys, number_of_string ms with
        | Some y, Some m =>
            if bool_decide (1 ≤ m ≤ 12) then Some (month_ordinal y m) else None
        | _, _ => None
        end
      else None
  | _ => None
  end.

(** Whether a text consists of decimal digits. *)
Fixpoint all_digits (s : string) : bool :=
  match s with
  | EmptyString => true
  | String c s' => bool_decide (is_Some (digit_of_ascii c)) && all_digits s'
  end.

(** Whether the decimal text of [n] has [len1] or [len2] digits and reads
    back as [n]. *)
Definition decimal_ok (len1 len2 : nat) (n : Z) : bool :=
  let s := pretty n in
  all_digits s
  && (Nat.eqb (String.length s) len1 || Nat.eqb (String.length s) len2)
  && bool_decide (number_of_string s = Some n).

Definition ten : list Z := [0; 1; 2; 3; 4; 5; 6; 7; 8; 9].
Definition twelve : list Z := [1; 2; 3; 4; 5; 6; 7; 8; 9; 10; 11; 12].

(** [sheet_name.replace('/', '.')]. *)
Fixpoint replace_char (old new : ascii) (s : string) : string :=
  match s with
  | EmptyString => EmptyString
  | String c s' =>
      String (if Ascii.eqb c old then new else c) (replace_char old new s')
  end.

(** ** Data model *)

(** A cell of the arrival or departure column. *)
Inductive datecell :=
  | Str (s : string)   (* text, as read from the sheet *)
  | Ts (t : Z)         (* a Timestamp *)
  | NaT                (* the null/missing marker (an empty cell as well) *)
  | Day (d : Z).       (* a datetime.date *)

Global Instance datecell_eq_dec : EqDecision datecell.
Proof. solve_decision. Defined.

(** [Series.isna()] on one cell. *)
Definition isna (c : datecell) : bool :=
  match c with NaT => true | _ => false end.

(** Whether the cell is one of a datetime64 column, on which [.dt] works. *)
Definition is_datetime (c : datecell) : bool :=
  match c with Ts _ | NaT => true | _ => false end.

Section Data.
Context {num : Type}.

(** One booking record.  The last three columns are added by the
    normalizer; [None] stands for NaN/NaT or for a column not there. *)
Record Row := mkRow {
  Объект : string;               (* property *)
  Источник : option string;      (* income source *)
  Сумма : option num;            (* amount *)
  Заезд : datecell;              (* arrival *)
  Выезд : datecell;              (* departure *)
  Доход : option num;            (* income *)
  Месяц : option Z;              (* period, a month ordinal *)
  Дни_проживания : option Z      (* stay length in days *)
}.

Record Frame := mkFrame { columns : list string; rows : list Row }.

Definition set_Заезд (c : datecell) (r : Row) : Row :=
  mkRow (Объект r) (Источник r) (Сумма r) c (Выезд r) (Доход r) (Месяц r)
        (Дни_проживания r).
Definition set_Выезд (c : datecell) (r : Row) : Row :=
  mkRow (Объект r) (Источник r) (Сумма r) (Заезд r) c (Доход r) (Месяц r)
        (Дни_проживания r).
Definition set_Доход (x : option num) (r : Row) : Row :=
  mkRow (Объект r) (Источник r) (Сумма r) (Заезд r) (Выезд r) x (Месяц r)
        (Дни_проживания r).
Definition set_Месяц (p : option Z) (r : Row) : Row :=
  mkRow (Объект r) (Источник r) (Сумма r) (Заезд r) (Выезд r) (Доход r) p
        (Дни_проживания r).
Definition set_Дни_проживания (d : option Z) (r : Row) : Row :=
  mkRow (Объект r) (Источник r) (Сумма r) (Заезд r) (Выезд r) (Доход r)
        (Месяц r) d.

(** [df[c] = ...] appends the column [c] to the header unless it is there. *)
Definition add_column (c : string) (cols : list string) : list string :=
  if bool_decide (c ∈ cols) then cols else (cols ++ [c])%list.

Definition assign (c : string) (g : Row → Row) (f : Frame) : Frame :=
  mkFrame (add_column c (columns f)) (g <$> rows f).
End Data.

Global Arguments Row : clear implicits.
Global Arguments Frame : clear implicits.

Inductive open_mode := mode_w | mode_a.

Global Instance open_mode_eq_dec : EqDecision open_mode.
Proof. solve_decision. Defined.

Inductive error :=
  | ValueError_columns (missing : list string)  (* "В файле отсутствуют столбцы: ..." *)
  | ValueError_float (s : string)               (* float() of a text that is no number *)
  | KeyError (col : string)                     (* a column that is not there *)
  | AttributeError_dt (col : string)            (* .dt on a column that is not datetime *)
  | IOError                                     (* "Ошибка записи в Excel: ..." *)
  | NameError.                                  (* a reference to no object *)

Inductive event :=
  | warning_skipped (n : nat)            (* logger.warning: n rows with bad dates *)
  | print_logic_violated (sheet : string)  (* print: "! Нарушена логика записи листа ..." *)
  | print_saved (sheet : string).          (* print: "Saved: ..." *)

(** The state a call runs in: the heap of frames, the files, what has been
    logged or printed so far, and the system date. *)
Record World {num FS : Type} := mkWorld {
  heap : gmap positive (Frame num);
  files : FS;
  log : list event;
  clock : date
}.
Global Arguments World : clear implicits.
Global Arguments mkWorld {num FS}.

(** Modelled from the spec: [AppConfig.REQUIRED_COLUMNS] of the settings
    module, which is not among the sources.  The specification lists the
    required columns as property, source, amount, arrival date and departure
    date; these are the names under which the pipeline reads them. *)
Definition REQUIRED_COLUMNS : list string :=
  ["Объект"; "Источник"; "Сумма"; "Заезд"; "Выезд"].

(** ** One concrete choice of the parameters

    Used to run the pipeline on examples: exact rationals for the numbers,
    plain decimal literals for [float()], dotted day-first dates for the
    date parser, and workbooks as lists of named sheets. *)

Definition float_decimal (s : string) : option Q :=
  match split_on "." s with
  | [ip] => (λ n, inject_Z n) <$> number_of_string ip
  | [ip; fp] =>
      match number_of_string ip, number_of_string fp with
      | Some i, Some f =>
          let scale := 10 ^ Z.of_nat (String.length fp) in
          Some (Qred (Qmake (i * scale + f) (Z.to_pos scale)))
      | _, _ => None
      end
  | _ => None
  end.

Definition mul_Q (a b : Q) : Q := Qred (a * b).

Definition sum_Q (l : list Q) : Q := foldr (λ x acc, Qred (x + acc)) 0%Q l.

(** Day-first reading of "DD.MM.YYYY"; [None] for anything else. *)
Definition parse_dmy (s : string) : option Z :=
  match split_on "." s with
  | [ds; ms; ys] =>
      match number_of_string ds, number_of_string ms, number_of_string ys with
      | Some d, Some m, Some y =>
          let n := days_from_civil y m d in
          if bool_decide (civil_from_days n = (y, m, d)) then Some (n * day_ns)
          else None
      | _, _, _ => None
      end
  | _ => None
  end.

(** A file is a workbook: its sheets, by name, in order. *)
Definition workbooks : Type := gmap string (list (string * Frame Q)).

Definition workbook_exists (fs : workbooks) (file : string) : bool :=
  bool_decide (is_Some (fs !! file)).

(** Writing one sheet: overwrite mode starts a new workbook; append mode
    needs the workbook to be there and the sheet name to be new. *)
Definition workbook_write (fs : workbooks) (file : string) (mode : open_mode)
    (sheet : string) (f : Frame Q) : workbooks * bool :=
  match mode with
  | mode_w => (<[file := [(sheet, f)]]> fs, true)
  | mode_a =>
      match fs !! file with
      | Some wb =>
          if bool_decide (sheet ∈ wb.*1) then (fs, false)
          else (<[file := (wb ++ [(sheet, f)])%list]> fs, true)
      | None => (fs, false)
      end
  end.

(** *** Example data *)

Definition example_rates : list (string * list string) :=
  [("0.85", ["Booking.com"; "Ostrovok"]); ("0.9", ["Avito"; "Ostrovok"])].

(** A row as read from the sheet. *)
Definition booking (property source : string) (amount : Q)
    (arrival departure : string) : Row Q :=
  mkRow property (Some source) (Some amount) (Str arrival) (Str departure)
        None None None.

Definition example_frame : Frame Q :=
  mkFrame REQUIRED_COLUMNS
    [ booking "Hotel B" "Avito" 500 "10.03.2025" "12.03.2025";
      booking "Hotel A" "Booking.com" 1000 "01.03.2025" "03.03.2025";
      booking "Hotel A" "Direct" 700 "05.03.2025" "05.03.2025";
      booking "Hotel A" "Ostrovok" 300 "xx" "07.03.2025";
      booking "Hotel A" "Avito" 100 "20.02.2025" "01.03.2025";
      booking "Hotel A" "Avito" 200 "02.03.2025" "04.03.2025" ].

(** The same sheet without its date columns. *)
Definition example_frame_without_dates : Frame Q :=
  mkFrame ["Объект"; "Источник"; "Сумма"] (rows example_frame).

(** One booking that arrives and leaves on the same day. *)
Definition same_day_frame : Frame Q :=
  mkFrame REQUIRED_COLUMNS
    [ booking "Hotel A" "Direct" 700 "05.03.2025" "05.03.2025" ].

(** A frame whose dates are parsed, two of them to the null marker. *)
Definition example_parsed : Frame Q :=
  mkFrame REQUIRED_COLUMNS
    [ mkRow "Hotel A" (Some "Avito") (Some 100%Q) (Ts 1740009600000000000)
        (Ts 1740787200000000000) None None None;
      mkRow "Hotel A" (Some "Ostrovok") (Some 300%Q) NaT
        (Ts 1741305600000000000) None None None;
      mkRow "Hotel B" (Some "Avito") (Some 500%Q) (Ts 1741564800000000000)
        NaT None None None ].

(** A normalized dataset: what normalization returns for [example_frame]. *)
Definition example_normalized : Frame Q :=
  mkFrame
    ["Объект"; "Источник"; "Сумма"; "Заезд"; "Выезд"; "Доход"; "Месяц";
     "Дни_проживания"]
    [ mkRow "Hotel A" (Some "Avito") (Some 100%Q) (Ts 1740009600000000000)
        (Ts 1740787200000000000) (Some 90%Q) (Some 661) (Some 9);
      mkRow "Hotel A" (Some "Booking.com") (Some 1000%Q) (Ts 1740787200000000000)
        (Ts 1740960000000000000) (Some 850%Q) (Some 662) (Some 2);
      mkRow "Hotel A" (Some "Avito") (Some 200%Q) (Ts 1740873600000000000)
        (Ts 1741046400000000000) (Some 180%Q) (Some 662) (Some 2);
      mkRow "Hotel B" (Some "Avito") (Some 500%Q) (Ts 1741564800000000000)
        (Ts 1741737600000000000) (Some 450%Q) (Some 662) (Some 2) ].

(** A world on 14 March 2025 with these frames and no file. *)
Definition example_world : World Q workbooks :=
  mkWorld
    (<[1%positive := example_frame]>
       (<[2%positive := example_frame_without_dates]>
          (<[3%positive := same_day_frame]>
             (<[4%positive := example_normalized]>
                (<[5%positive := example_parsed]> ∅)))))
    ∅ [] (mkdate 2025 3 14).

(** ** Stable sorting by insertion

    [sort_values] on several columns is a stable sort: rows that compare
    equal keep their order.  Any stable sort returns the same list; the
    insertion sort below is the reference one. *)

Section Sort.
Context {A : Type} (le : A → A → bool).

Fixpoint insert_sorted (x : A) (l : list A) : list A :=
  match l with
  | [] => [x]
  | y :: l' => if le x y then x :: l else y :: insert_sorted x l'
  end.

Definition sort_by (l : list A) : list A := foldr insert_sorted [] l.
End Sort.

(** ** The pipeline *)

Section Pipeline.
Context {num FS : Type}.

(** [a * r] on numbers. *)
Variable fmul : num → num → num.
(** [Series.sum()] of the non-null numbers of a column, in row order. *)
Variable column_sum : list num → num.
(** [float(s)]; [None] when Python raises [ValueError]. *)
Variable float : string → option num.
(** [AppConfig.COMMISSION_RATES.items()], in iteration order. *)
Variable COMMISSION_RATES : list (string * list string).
(** [pd.to_datetime(..., dayfirst=True, errors='coerce')] on one text;
    [None] when the text does not parse (it is coerced to NaT). *)
Variable parse_datetime : string → option Z.
(** [os.path.exists]. *)
Variable path_exists : FS → string → bool.
(** [with pd.ExcelWriter(file, engine='openpyxl', mode=mode) as writer:
    frame.to_excel(writer, sheet_name=sheet, index=False)]: the files
    afterwards, and whether the block completed without an exception. *)
Variable ExcelWriter : FS → string → open_mode → string → Frame num → FS * bool.

(** *** State and exceptions *)

Definition M (A : Type) : Type := World num FS → (error + A) * World num FS.

Definition ret {A} (a : A) : M A := λ w, (inr a, w).

Definition raise {A} (e : error) : M A := λ w, (inl e, w).

Definition bind {A B} (m : M A) (k : A → M B) : M B :=
  λ w, match m w with
       | (inl e, w') => (inl e, w')
       | (inr a, w') => k a w'
       end.

Notation "x <- m ;; k" := (bind m (λ x, k))
  (at level 100, m at next level, right associativity).
Notation "m ;;; k" := (bind m (λ _, k))
  (at level 100, right associativity).

Definition with_heap (h : gmap positive (Frame num)) (w : World num FS) :=
  mkWorld h (files w) (log w) (clock w).
Definition with_files (fs : FS) (w : World num FS) :=
  mkWorld (heap w) fs (log w) (clock w).
Definition with_log (l : list event) (w : World num FS) :=
  mkWorld (heap w) (files w) l (clock w).

(** The frame a reference points to. *)
Definition deref (l : positive) : M (Frame num) :=
  λ w, match heap w !! l with
       | Some f => (inr f, w)
       | None => (inl NameError, w)
       end.

(** A new frame object. *)
Definition alloc (f : Frame num) : M positive :=
  λ w, let l := fresh (dom (heap w)) in
       (inr l, with_heap (<[l := f]> (heap w)) w).

(** In-place update of a frame object. *)
Definition update (l : positive) (g : Frame num → Frame num) : M unit :=
  λ w, match heap w !! l with
       | Some f => (inr tt, with_heap (<[l := g f]> (heap w)) w)
       | None => (inl NameError, w)
       end.

Definition emit (e : event) : M unit :=
  λ w, (inr tt, with_log (log w ++ [e])%list w).

Definition lift {A} (r : error + A) : M A :=
  match r with inl e => raise e | inr a => ret a end.

(** [df[c]] raises [KeyError] when the header has no column [c]. *)
Definition need_column (c : string) (l : positive) : M unit :=
  f <- deref l ;;
  if bool_decide (c ∈ columns f) then ret tt else raise (KeyError c).

(** *** Normalizer *)

(** [source in sources]; an empty source cell is in no bucket. *)
Definition source_in (source : option string) (sources : list string) : bool :=
  match source with
  | Some s => bool_decide (s ∈ sources)
  | None => false
  end.

(** [for rate_str, sources in items: if source in sources:
    return row['Сумма'] * float(rate_str)], then [return row['Сумма']].
    An empty amount (NaN) times a rate is empty. *)
Fixpoint income_loop (items : list (string * list string)) (row : Row num)
    : error + option num :=
  match items with
  | [] => inr (Сумма row)                       (* no commission *)
  | (rate_str, sources) :: items' =>
      if source_in (Источник row) sources then
        match float rate_str with
        | Some rate => inr ((λ a, fmul a rate) <$> Сумма row)
        | None => inl (ValueError_float rate_str)
        end
      else income_loop items' row
  end.

(** [calculate_income(row)]: the loop over the rate table. *)
Definition calculate_income (row : Row num) : error + option num :=
  income_loop COMMISSION_RATES row.

(** [df.apply(calculate_income, axis=1)]: the function on every row, in
    order; the first exception ends it. *)
Fixpoint apply_calculate_income (rs : list (Row num))
    : error + list (option num) :=
  match rs with
  | [] => inr []
  | r :: rs' =>
      match calculate_income r with
      | inl e => inl e
      | inr x =>
          match apply_calculate_income rs' with
          | inl e => inl e
          | inr xs => inr (x :: xs)
          end
      end
  end.

(** [df['Доход'] = series]. *)
Definition assign_Доход (xs : list (option num)) (f : Frame num) : Frame num :=
  mkFrame (add_column "Доход" (columns f)) (zip_with set_Доход xs (rows f)).

(** [pd.to_datetime] on one cell. *)
Definition to_datetime (c : datecell) : datecell :=
  match c with
  | Str s => match parse_datetime s with Some t => Ts t | None => NaT end
  | Ts t => Ts t
  | NaT => NaT
  | Day d => Ts (d * day_ns)
  end.

Definition invalid_dates (r : Row num) : bool :=
  isna (Заезд r) || isna (Выезд r).

(** [validate_dates(df)]: the mask of the rows with a null date, a
    warning with their number if there is any, and a new frame without
    them. *)
Definition validate_dates (df : positive) : M positive :=
  need_column "Заезд" df ;;;
  need_column "Выезд" df ;;;
  f <- deref df ;;
  let invalid_mask := invalid_dates <$> rows f in
  (if existsb id invalid_mask
   then emit (warning_skipped (List.length (filter (λ b, b = true) invalid_mask)))
   else ret tt) ;;;
  alloc (mkFrame (columns f) (filter (λ r, invalid_dates r = false) (rows f))).

(** [.dt.to_period('M')] on one cell of a datetime column. *)
Definition to_period (c : datecell) : option Z :=
  match c with Ts t => Some (period_of_timestamp t) | _ => None end.

(** [(departure - arrival).dt.days] on one row of datetime columns. *)
Definition stay_days (r : Row num) : option Z :=
  match Выезд r, Заезд r with
  | Ts b, Ts a => Some (timedelta_days b a)
  | _, _ => None
  end.

(** The sort key of the arrival column: nulls are placed last. *)
Definition date_le (a b : datecell) : bool :=
  match a, b with
  | Ts x, Ts y => bool_decide (x ≤ y)
  | _, Ts _ => false
  | _, _ => true
  end.

(** Order of [sort_values(['Объект', 'Заезд'])]. *)
Definition row_le (r1 r2 : Row num) : bool :=
  match String.compare (Объект r1) (Объект r2) with
  | Lt => true
  | Eq => date_le (Заезд r1) (Заезд r2)
  | Gt => false
  end.

Definition positive_days (r : Row num) : bool :=
  match Дни_проживания r with
  | Some d => bool_decide (0 < d)
  | None => false
  end.

(** [normalize_data(df)].  Steps 2 and 3 assign columns of the argument
    itself; from step 4 on [df] is rebound to new frames. *)
Definition normalize_data (df : positive) : M positive :=
  (* 1. missing = [col for col in REQUIRED_COLUMNS if col not in df.columns] *)
  f <- deref df ;;
  let missing := filter (λ col, col ∉ columns f) REQUIRED_COLUMNS in
  if bool_decide (missing ≠ []) then raise (ValueError_columns missing) else
  (* 2. df['Доход'] = df.apply(calculate_income, axis=1) *)
  incomes <- lift (apply_calculate_income (rows f)) ;;
  update df (assign_Доход incomes) ;;;
  (* 3. df['Заезд'] = pd.to_datetime(df['Заезд'], ...); the same for 'Выезд' *)
  update df (assign "Заезд" (λ r, set_Заезд (to_datetime (Заезд r)) r)) ;;;
  update df (assign "Выезд" (λ r, set_Выезд (to_datetime (Выезд r)) r)) ;;;
  (* 4. df = validate_dates(df) *)
  df <- validate_dates df ;;
  (* 5. df['Месяц'] = df['Заезд'].dt.to_period('M') *)
  update df (assign "Месяц" (λ r, set_Месяц (to_period (Заезд r)) r)) ;;;
  (* 6. df = df.sort_values(['Объект', 'Заезд']) *)
  f <- deref df ;;
  df <- alloc (mkFrame (columns f) (sort_by row_le (rows f))) ;;
  (* 7. df['Дни_проживания'] = (df['Выезд'] - df['Заезд']).dt.days *)
  update df (assign "Дни_проживания"
               (λ r, set_Дни_проживания (stay_days r) r)) ;;;
  (* 8. df = df[df['Дни_проживания'] > 0] *)
  f <- deref df ;;
  alloc (mkFrame (columns f) (filter (λ r, positive_days r = true) (rows f))).

(** *** Aggregator *)

(** Group keys: (property, period), ordered by property, then period. *)
Definition key_compare (k1 k2 : string * Z) : comparison :=
  match String.compare k1.1 k2.1 with
  | Eq => Z.compare k1.2 k2.2
  | c => c
  end.

(** One more row for the groups; the groups are kept in key order, the
    rows of a group in the order they come. *)
Fixpoint add_to_group (k : string * Z) (r : Row num)
    (gs : list ((string * Z) * list (Row num))) :=
  match gs with
  | [] => [(k, [r])]
  | (k', rs) :: gs' =>
      match key_compare k k' with
      | Lt => (k, [r]) :: gs
      | Eq => (k', (rs ++ [r])%list) :: gs'
      | Gt => (k', rs) :: add_to_group k r gs'
      end
  end.

(** [df.groupby(['Объект', 'Месяц'])]: rows without a period belong to
    no group. *)
Definition groupby (rs : list (Row num)) :=
  foldl (λ gs r, match Месяц r with
                 | Some p => add_to_group (Объект r, p) r gs
                 | None => gs
                 end) [] rs.

(** Sum of the stay lengths of a group (nulls are skipped). *)
Definition sum_days (rs : list (Row num)) : Z :=
  foldr Z.add 0 (omap Дни_проживания rs).

(** Sum of the incomes of a group (nulls are skipped). *)
Definition sum_income (rs : list (Row num)) : num :=
  column_sum (omap Доход rs).

(** [[['Дни_проживания', 'Доход']].sum().reset_index()] on one group. *)
Definition summary_row (g : (string * Z) * list (Row num)) : Row num :=
  mkRow g.1.1 None None NaT NaT
        (Some (sum_income g.2)) (Some g.1.2) (Some (sum_days g.2)).

Definition summary_columns : list string :=
  ["Объект"; "Месяц"; "Дни_проживания"; "Доход"].

(** Order of [sort_values(['Объект', 'Месяц'])]; nulls last. *)
Definition summary_le (r1 r2 : Row num) : bool :=
  match String.compare (Объект r1) (Объект r2) with
  | Lt => true
  | Eq => match Месяц r1, Месяц r2 with
          | Some p, Some q => bool_decide (p ≤ q)
          | _, Some _ => false
          | _, _ => true
          end
  | Gt => false
  end.

(** [column == text] on a cell of a period column: pandas reads the text
    as a period of the column's frequency and compares the periods; a text
    that is no period, and a null cell, match nothing. *)
Definition period_eq (p : option Z) (text : string) : bool :=
  match p, Period_of_string text with
  | Some p, Some q => bool_decide (p = q)
  | _, _ => false
  end.

(** [analyze_stay_days(df)]. *)
Definition analyze_stay_days (df : positive) : M positive :=
  (* 1. df.groupby(['Объект', 'Месяц'])[['Дни_проживания', 'Доход']]
          .sum().reset_index() *)
  need_column "Объект" df ;;;
  need_column "Месяц" df ;;;
  need_column "Дни_проживания" df ;;;
  need_column "Доход" df ;;;
  f <- deref df ;;
  grouped_df <- alloc (mkFrame summary_columns (summary_row <$> groupby (rows f))) ;;
  (* 2. grouped_df.sort_values(['Объект', 'Месяц']) *)
  f <- deref grouped_df ;;
  grouped_df <- alloc (mkFrame (columns f) (sort_by summary_le (rows f))) ;;
  (* 3. today = date.today(); target_date = f"{today.year}-{today.month}";
        grouped_df[grouped_df['Месяц'] == target_date] *)
  today <- (λ w, (inr (clock w), w)) ;;
  let target_date := pretty (year today) +:+ "-" +:+ pretty (month today) in
  f <- deref grouped_df ;;
  alloc (mkFrame (columns f)
           (filter (λ r, period_eq (Месяц r) target_date = true) (rows f))).

(** *** Writer *)

(** [.dt.date] on one cell of a datetime column. *)
Definition to_date (c : datecell) : datecell :=
  match c with Ts t => Day (date_of_timestamp t) | c => c end.

(** [normalize_df_dates(df)]: both columns of the argument are assigned in
    place, and the argument is returned. *)
Definition normalize_df_dates (df : positive) : M positive :=
  need_column "Заезд" df ;;;
  f <- deref df ;;
  (if forallb (λ r, is_datetime (Заезд r)) (rows f)
   then update df (assign "Заезд" (λ r, set_Заезд (to_date (Заезд r)) r))
   else raise (AttributeError_dt "Заезд")) ;;;
  need_column "Выезд" df ;;;
  f <- deref df ;;
  (if forallb (λ r, is_datetime (Выезд r)) (rows f)
   then update df (assign "Выезд" (λ r, set_Выезд (to_date (Выезд r)) r))
   else raise (AttributeError_dt "Выезд")) ;;;
  ret df.

(** [save2xlsx(df, sheet_name, file_name, mode='a')]. *)
Definition save2xlsx (df : positive) (sheet_name file_name : string)
    (mode : open_mode) : M unit :=
  (* df_copy = df.copy() *)
  f <- deref df ;;
  df_copy <- alloc f ;;
  (* if 'Заезд' in df_copy.columns and 'Выезд' in df_copy.columns:
         df_copy = normalize_df_dates(df_copy) *)
  df_copy <-
    (if bool_decide ("Заезд" ∈ columns f ∧ "Выезд" ∈ columns f)
     then normalize_df_dates df_copy
     else ret df_copy) ;;
  (* if mode == 'a' and not os.path.exists(file_name): mode = 'w'; print(...) *)
  there <- (λ w, (inr (path_exists (files w) file_name), w)) ;;
  mode <-
    (if bool_decide (mode = mode_a) && negb there
     then emit (print_logic_violated sheet_name) ;;; ret mode_w
     else ret mode) ;;
  (* try: with pd.ExcelWriter(...) as writer: df_copy.to_excel(...);
          print(f'Saved: {sheet_name}')
     except Exception as e: raise IOError(...) *)
  f <- deref df_copy ;;
  ok <- (λ w, let '(fs, ok) :=
                ExcelWriter (files w) file_name mode
                  (replace_char "/" "." sheet_name) f in
              (inr ok, with_files fs w)) ;;
  if ok : bool then emit (print_saved sheet_name) else raise IOError.

(** *** The rows along the normalizer

    What the steps of [normalize_data] make of one row of its argument,
    leaving the two filters and the sort aside. *)

Definition income_of (r : Row num) : option num :=
  match calculate_income r with inr x => x | inl _ => None end.

(** After steps 2 and 3 (the argument frame itself is updated). *)
Definition parsed_row (r : Row num) : Row num :=
  let r := set_Доход (income_of r) r in
  let r := set_Заезд (to_datetime (Заезд r)) r in
  set_Выезд (to_datetime (Выезд r)) r.

(** After steps 5 and 7 as well. *)
Definition normalized_row (r : Row num) : Row num :=
  let r := parsed_row r in
  let r := set_Месяц (to_period (Заезд r)) r in
  set_Дни_проживания (stay_days r) r.

(** The frame the writer hands to [to_excel]. *)
Definition written_frame (f : Frame num) : Frame num :=
  if bool_decide ("Заезд" ∈ columns f ∧ "Выезд" ∈ columns f)
  then assign "Выезд" (λ r, set_Выезд (to_date (Выезд r)) r)
         (assign "Заезд" (λ r, set_Заезд (to_date (Заезд r)) r) f)
  else f.

(** The rows grouped under the key [k]. *)
Fixpoint group_rows (k : string * Z)
    (gs : list ((string * Z) * list (Row num))) : list (Row num) :=
  match gs with
  | [] => []
  | (k', rs) :: gs' => if decide (k' = k) then rs else group_rows k gs'
  end.

(** Whether a row falls under the key [k]. *)
Definition has_key (k : string * Z) (r : Row num) : Prop :=
  Объект r = k.1 ∧ Месяц r = Some k.2.

Global Instance has_key_dec k r : Decision (has_key k r).
Proof. unfold has_key. apply _. Defined.

Definition key_lt (k1 k2 : string * Z) : Prop := key_compare k1 k2 = Lt.

(** What holds of the groups [gs] once the rows [seen] have been added:
    the keys increase, no group is empty, and the group of a key holds
    the rows under that key, in order. *)
Definition groups_of (seen : list (Row num))
    (gs : list ((string * Z) * list (Row num))) : Prop :=
  StronglySorted key_lt gs.*1 ∧
  Forall (λ g, g.2 ≠ []) gs ∧
  ∀ k, group_rows k gs = filter (has_key k) seen.

(** The strict order of the rows of a summary, by (property, period). *)
Definition summary_lt (r1 r2 : Row num) : Prop :=
  ∃ p q, Месяц r1 = Some p ∧ Месяц r2 = Some q
         ∧ key_lt (Объект r1, p) (Объект r2, q).

(** Whether the arrival and departure columns are datetime columns. *)
Definition datetime_columns (f : Frame num) : bool :=
  forallb (λ r, is_datetime (Заезд r)) (rows f)
  && forallb (λ r, is_datetime (Выезд r)) (rows f).

(** The mode the writer opens the file in, and what it prints about it. *)
Definition effective_mode (mode : open_mode) (there : bool) : open_mode :=
  if bool_decide (mode = mode_a) && negb there then mode_w else mode.
Definition fallback_message (mode : open_mode) (there : bool)
    (sheet_name : string) : list event :=
  if bool_decide (mode = mode_a) && negb there
  then [print_logic_violated sheet_name] else [].

(** The rows [normalize_data] returns for the rows [rs] of its argument,
    step by step. *)
Definition normalize_rows (rs : list (Row num)) : list (Row num) :=
  let rs := parsed_row <$> rs in                                   (* 2, 3 *)
  let rs := filter (λ r, invalid_dates r = false) rs in            (* 4 *)
  let rs := (λ r, set_Месяц (to_period (Заезд r)) r) <$> rs in     (* 5 *)
  let rs := sort_by row_le rs in                                   (* 6 *)
  let rs := (λ r, set_Дни_проживания (stay_days r) r) <$> rs in    (* 7 *)
  filter (λ r, positive_days r = true) rs.                         (* 8 *)

(** The header after the column assignments of steps 2 and 3, and after
    those of steps 5 and 7. *)
Definition parsed_columns (cols : list string) : list string :=
  add_column "Выезд" (add_column "Заезд" (add_column "Доход" cols)).
Definition normalized_columns (cols : list string) : list string :=
  add_column "Дни_проживания" (add_column "Месяц" (parsed_columns cols)).

(** What [validate_dates] logs when it drops [n] rows. *)
Definition dropped_warning (n : nat) : list event :=
  match n with O => [] | S _ => [warning_skipped n] end.

(** ** Properties *)

(** *** The order on texts *)

Lemma ascii_compare_refl c : Ascii.compare c c = Eq.
Proof. unfold Ascii.compare. apply N.compare_refl. Qed.

Lemma string_compare_refl s : String.compare s s = Eq.
Proof. induction s as [|c s IH]; simpl; [done|]. by rewrite ascii_compare_refl. Qed.

Lemma string_compare_Eq s1 s2 : String.compare s1 s2 = Eq ↔ s1 = s2.
Proof.
  split; [apply String.compare_eq_iff|]. intros ->. apply string_compare_refl.
Qed.

Lemma ascii_compare_Lt_trans a b c :
  Ascii.compare a b = Lt → Ascii.compare b c = Lt → Ascii.compare a c = Lt.
Proof. unfold Ascii.compare. rewrite !N.compare_lt_iff. lia. Qed.

Lemma string_compare_Lt_trans s1 s2 s3 :
  String.compare s1 s2 = Lt → String.compare s2 s3 = Lt →
  String.compare s1 s3 = Lt.
Proof.
  revert s2 s3. induction s1 as [|a s1 IH]; intros [|b s2] [|c s3]; simpl;
    try done.
  destruct (Ascii.compare a b) eqn:Hab; try done;
    destruct (Ascii.compare b c) eqn:Hbc; try done; intros H12 H23.
  - apply Ascii.compare_eq_iff in Hab, Hbc. subst.
    rewrite ascii_compare_refl. eauto.
  - apply Ascii.compare_eq_iff in Hab. subst. by rewrite Hbc.
  - apply Ascii.compare_eq_iff in Hbc. subst. by rewrite Hab.
  - by rewrite (ascii_compare_Lt_trans _ _ _ Hab Hbc).
Qed.

(** *** Insertion sort *)

Section SortFacts.
Context {A : Type} (le : A → A → bool).
Let R : relation A := λ x y, le x y = true.
Hypothesis le_total : ∀ x y, le x y = true ∨ le y x = true.

Lemma insert_sorted_perm x l : insert_sorted le x l ≡ₚ x :: l.
Proof.
  induction l as [|y l IH]; simpl; [done|].
  destruct (le x y); [done|]. rewrite IH. apply Permutation_swap.
Qed.

Lemma sort_by_perm l : sort_by le l ≡ₚ l.
Proof.
  induction l as [|x l IH]; simpl; [done|].
  by rewrite insert_sorted_perm, IH.
Qed.

Lemma insert_sorted_HdRel z x l :
  R z x → HdRel R z l → HdRel R z (insert_sorted le x l).
Proof.
  intros Hzx Hzl. destruct l as [|y l]; simpl; [by constructor|].
  destruct (le x y); constructor; [done|]. by inversion Hzl.
Qed.

Lemma insert_sorted_Sorted x l :
  Sorted R l → Sorted R (insert_sorted le x l).
Proof.
  induction 1 as [|y l Hl IH Hy]; simpl; [by repeat constructor|].
  destruct (le x y) eqn:Hxy.
  - constructor; [by constructor|]. by constructor.
  - constructor; [done|]. apply insert_sorted_HdRel; [|done].
    unfold R. destruct (le_total x y); congruence.
Qed.

Lemma sort_by_Sorted l : Sorted R (sort_by le l).
Proof.
  induction l; simpl; [constructor|]. by apply insert_sorted_Sorted.
Qed.

(** Sorting what is sorted changes nothing. *)
Lemma sort_by_sorted l : Sorted R l → sort_by le l = l.
Proof.
  induction 1 as [|x l Hl IH Hx]; simpl; [done|]. rewrite IH.
  destruct Hx as [|y l' Hxy]; simpl; [done|]. unfold R in Hxy.
  by rewrite Hxy.
Qed.

(** Stability: rows that compare equal both ways keep their order. *)
Lemma insert_sorted_stable (P : A → Prop) `{!∀ x, Decision (P x)} x l :
  (∀ y, P x → P y → le x y = true) →
  filter P (insert_sorted le x l) = filter P (x :: l).
Proof.
  intros HP. induction l as [|y l IH]; simpl; [done|].
  destruct (le x y) eqn:Hxy; [done|].
  rewrite filter_cons, IH, !filter_cons.
  destruct (decide (P y)) as [Hy|]; [|done].
  destruct (decide (P x)) as [Hx|]; [|done].
  rewrite HP in Hxy; done.
Qed.

Lemma sort_by_stable (P : A → Prop) `{!∀ x, Decision (P x)} l :
  (∀ x y, P x → P y → le x y = true) →
  filter P (sort_by le l) = filter P l.
Proof.
  intros HP. induction l as [|x l IH]; simpl; [done|].
  rewrite insert_sorted_stable by eauto. by rewrite !filter_cons, IH.
Qed.

(** The sort commutes with a map that respects the order. *)
Lemma sort_by_fmap {B} (le' : B → B → bool) (g : A → B) l :
  (∀ x y, le' (g x) (g y) = le x y) →
  sort_by le' (g <$> l) = g <$> sort_by le l.
Proof.
  intros Hg. unfold sort_by.
  induction l as [|x l IH]; csimpl; [done|]. rewrite IH.
  generalize (foldr (insert_sorted le) [] l). intros k.
  induction k as [|y k IHk]; csimpl; [done|].
  rewrite Hg. destruct (le x y); csimpl; [done|]. by rewrite IHk.
Qed.
End SortFacts.

(** *** Income *)

Lemma income_loop_no_match items row :
  (∀ b, b ∈ items → source_in (Источник row) b.2 = false) →
  income_loop items row = inr (Сумма row).
Proof.
  induction items as [|[rate_str sources] items IH]; intros H; simpl; [done|].
  pose proof (H (rate_str, sources) ltac:(left)) as H1. simpl in H1.
  rewrite H1. apply IH. intros b Hb. apply H. by right.
Qed.

Lemma income_loop_first_match pre rate_str sources post row :
  (∀ b, b ∈ pre → source_in (Источник row) b.2 = false) →
  source_in (Источник row) sources = true →
  income_loop (pre ++ (rate_str, sources) :: post) row =
    match float rate_str with
    | Some rate => inr ((λ a, fmul a rate) <$> Сумма row)
    | None => inl (ValueError_float rate_str)
    end.
Proof.
  induction pre as [|[k v] pre IH]; intros Hpre Hin; simpl.
  - by rewrite Hin.
  - pose proof (Hpre (k, v) ltac:(left)) as H1. simpl in H1.
    rewrite H1. apply IH; [|done].
    intros b Hb. apply Hpre. by right.
Qed.

Lemma calculate_income_error row e :
  calculate_income row = inl e → ∃ s, e = ValueError_float s.
Proof.
  unfold calculate_income.
  induction COMMISSION_RATES as [|[k v] items IH]; simpl; [done|].
  destruct (source_in _ v); [|done].
  destruct (float k); [done|]. intros [= <-]. eauto.
Qed.

Lemma apply_calculate_income_error rs e :
  apply_calculate_income rs = inl e → ∃ s, e = ValueError_float s.
Proof.
  induction rs as [|r rs IH]; simpl; [done|].
  destruct (calculate_income r) eqn:Hr.
  - intros [= <-]. by eapply calculate_income_error.
  - destruct (apply_calculate_income rs); [|done]. intros [= <-]. eauto.
Qed.

Lemma apply_calculate_income_ok rs xs :
  apply_calculate_income rs = inr xs →
  zip_with set_Доход xs rs = (λ r, set_Доход (income_of r) r) <$> rs.
Proof.
  revert xs. induction rs as [|r rs IH]; intros xs; simpl.
  - by intros [= <-].
  - unfold income_of. destruct (calculate_income r) as [|x]; [done|].
    destruct (apply_calculate_income rs) as [|xs']; [done|].
    intros [= <-]. csimpl. by rewrite IH.
Qed.

(** *** Running a computation *)

Lemma run_deref {B} l f (k : Frame num → M B) w :
  heap w !! l = Some f → bind (deref l) k w = k f w.
Proof. intros H. unfold bind, deref. by rewrite H. Qed.

Lemma run_update {B} l g f (k : unit → M B) w :
  heap w !! l = Some f →
  bind (update l g) k w = k tt (with_heap (<[l := g f]> (heap w)) w).
Proof. intros H. unfold bind, update. by rewrite H. Qed.

Lemma run_alloc {B} f (k : positive → M B) w :
  bind (alloc f) k w =
  k (fresh (dom (heap w)))
    (with_heap (<[fresh (dom (heap w)) := f]> (heap w)) w).
Proof. done. Qed.

Lemma run_emit {B} e (k : unit → M B) w :
  bind (emit e) k w = k tt (with_log (log w ++ [e])%list w).
Proof. done. Qed.

Lemma run_ret {A B} (a : A) (k : A → M B) w : bind (ret a) k w = k a w.
Proof. done. Qed.

Lemma run_need_column {B} c l f (k : unit → M B) w :
  heap w !! l = Some f → c ∈ columns f → bind (need_column c l) k w = k tt w.
Proof.
  intros H Hc. unfold need_column, bind, deref. rewrite H.
  by rewrite bool_decide_eq_true_2.
Qed.

Lemma fresh_lookup (h : gmap positive (Frame num)) : h !! fresh (dom h) = None.
Proof. apply not_elem_of_dom, is_fresh. Qed.

Lemma fresh_ne (h : gmap positive (Frame num)) l f :
  h !! l = Some f → fresh (dom h) ≠ l.
Proof. intros H Heq. by rewrite <- Heq, fresh_lookup in H. Qed.

(** *** Date validation *)

Lemma invalid_mask_count (rs : list (Row num)) :
  List.length (filter (λ b : bool, b = true) (invalid_dates <$> rs)) =
  List.length (filter (λ r, invalid_dates r = true) rs).
Proof.
  induction rs as [|r rs IH]; csimpl; [done|].
  rewrite !filter_cons. destruct (invalid_dates r); csimpl; by rewrite IH.
Qed.

Lemma invalid_mask_any (rs : list (Row num)) :
  existsb id (invalid_dates <$> rs) =
  bool_decide (List.length (filter (λ r, invalid_dates r = true) rs) ≠ 0%nat).
Proof.
  induction rs as [|r rs IH]; csimpl; [done|].
  rewrite filter_cons. unfold id at 1. destruct (invalid_dates r); csimpl; [done|].
  exact IH.
Qed.

Lemma validate_dates_run df f w :
  heap w !! df = Some f → "Заезд" ∈ columns f → "Выезд" ∈ columns f →
  validate_dates df w =
    (inr (fresh (dom (heap w))),
     mkWorld
       (<[fresh (dom (heap w)) :=
            mkFrame (columns f) (filter (λ r, invalid_dates r = false) (rows f))]>
          (heap w))
       (files w)
       (log w ++ dropped_warning
                   (List.length (filter (λ r, invalid_dates r = true) (rows f))))%list
       (clock w)).
Proof.
  intros Hf Ha Hd. unfold validate_dates.
  rewrite (run_need_column _ _ f), (run_need_column _ _ f), (run_deref _ f) by done.
  rewrite invalid_mask_any, invalid_mask_count.
  destruct (List.length _) as [|n]; simpl.
  - rewrite run_ret. unfold alloc. simpl. by rewrite app_nil_r.
  - by rewrite run_emit.
Qed.

(** *** The normalizer, run *)

Lemma elem_of_add_column c c' (cols : list string) :
  c ∈ cols → c ∈ add_column c' cols.
Proof.
  intros H. unfold add_column. case_bool_decide; [done|].
  apply elem_of_app. by left.
Qed.

Lemma required_present (cols : list string) c :
  filter (λ col, col ∉ cols) REQUIRED_COLUMNS = [] →
  c ∈ REQUIRED_COLUMNS → c ∈ cols.
Proof.
  intros Hnil Hc. destruct (decide (c ∈ cols)) as [|Hn]; [done|].
  assert (c ∈ filter (λ col, col ∉ cols) REQUIRED_COLUMNS) as Hin
    by (by apply list_elem_of_filter).
  rewrite Hnil in Hin. by apply elem_of_nil in Hin.
Qed.

Ltac heap_step :=
  first
    [ rewrite run_ret
    | rewrite run_emit
    | rewrite run_alloc
    | erewrite run_deref by (simpl; first [eassumption | apply lookup_insert_eq])
    | erewrite run_update by (simpl; first [eassumption | apply lookup_insert_eq]) ];
  simpl.

Lemma normalize_data_run df f w :
  heap w !! df = Some f →
  filter (λ col, col ∉ columns f) REQUIRED_COLUMNS = [] →
  ∀ incomes, apply_calculate_income (rows f) = inr incomes →
  ∃ l w',
    normalize_data df w = (inr l, w') ∧
    heap w' !! l =
      Some (mkFrame (normalized_columns (columns f)) (normalize_rows (rows f))) ∧
    heap w' !! df =
      Some (mkFrame (parsed_columns (columns f)) (parsed_row <$> rows f)) ∧
    (∀ l' f', l' ≠ df → heap w !! l' = Some f' → heap w' !! l' = Some f') ∧
    files w' = files w ∧ clock w' = clock w ∧
    log w' =
      (log w ++ dropped_warning
         (List.length (filter (λ r, invalid_dates r = true)
                         (parsed_row <$> rows f))))%list.
Proof.
  intros Hf Hmiss incomes Hinc.
  assert (Hrows : rows (assign "Выезд" (λ r, set_Выезд (to_datetime (Выезд r)) r)
                   (assign "Заезд" (λ r, set_Заезд (to_datetime (Заезд r)) r)
                      (assign_Доход incomes f))) = parsed_row <$> rows f).
  { simpl. rewrite (apply_calculate_income_ok _ _ Hinc), <- !list_fmap_compose.
    done. }
  unfold normalize_data. heap_step.
  rewrite Hmiss. rewrite bool_decide_eq_false_2 by (by intros []).
  rewrite Hinc. unfold lift. do 4 heap_step.
  unfold bind at 1.
  erewrite validate_dates_run; cycle 1.
  { simpl. apply lookup_insert_eq. }
  { simpl. do 3 apply elem_of_add_column.
    apply (required_present _ _ Hmiss). set_solver. }
  { simpl. do 3 apply elem_of_add_column.
    apply (required_present _ _ Hmiss). set_solver. }
  simpl. do 5 heap_step. unfold alloc. simpl.
  eexists _, _. split; [reflexivity|]. simpl.
  rewrite !insert_insert_eq.
  set (h1 := <[df := _]> (heap w)).
  set (l1 := fresh (dom h1)).
  set (h2 := <[l1 := _]> h1).
  set (l2 := fresh (dom h2)).
  set (h3 := <[l2 := _]> h2).
  set (l3 := fresh (dom h3)).
  assert (h1 !! df = Some (mkFrame (parsed_columns (columns f))
                             (parsed_row <$> rows f))) as Hdf1.
  { unfold h1. rewrite lookup_insert_eq. by rewrite <- Hrows. }
  assert (l1 ≠ df) as Hl1 by (by eapply fresh_ne).
  assert (h2 !! df = Some (mkFrame (parsed_columns (columns f))
                             (parsed_row <$> rows f))) as Hdf2.
  { unfold h2. by rewrite lookup_insert_ne. }
  assert (l2 ≠ df) as Hl2 by (by eapply fresh_ne).
  assert (h3 !! df = Some (mkFrame (parsed_columns (columns f))
                             (parsed_row <$> rows f))) as Hdf3.
  { unfold h3. by rewrite lookup_insert_ne. }
  assert (l3 ≠ df) as Hl3 by (by eapply fresh_ne).
  split_and!; try done.
  - rewrite lookup_insert_eq. f_equal. unfold normalize_rows.
    by rewrite <- Hrows.
  - by rewrite lookup_insert_ne.
  - intros l' f' Hne Hl'.
    assert (h1 !! l' = Some f') as H1' by (unfold h1; by rewrite lookup_insert_ne).
    assert (h2 !! l' = Some f') as H2'.
    { unfold h2. rewrite lookup_insert_ne; [done|]. by eapply fresh_ne. }
    assert (h3 !! l' = Some f') as H3'.
    { unfold h3. rewrite lookup_insert_ne; [done|]. by eapply fresh_ne. }
    rewrite lookup_insert_ne; [done|]. by eapply fresh_ne.
  - by rewrite <- Hrows.
Qed.

Lemma normalize_data_missing df f w :
  heap w !! df = Some f →
  filter (λ col, col ∉ columns f) REQUIRED_COLUMNS ≠ [] →
  normalize_data df w =
    (inl (ValueError_columns (filter (λ col, col ∉ columns f) REQUIRED_COLUMNS)), w).
Proof.
  intros Hf Hmiss. unfold normalize_data. heap_step.
  by rewrite bool_decide_eq_true_2.
Qed.

Lemma normalize_data_apply_error df f w e :
  heap w !! df = Some f →
  filter (λ col, col ∉ columns f) REQUIRED_COLUMNS = [] →
  apply_calculate_income (rows f) = inl e →
  normalize_data df w = (inl e, w).
Proof.
  intros Hf Hmiss He. unfold normalize_data. heap_step.
  rewrite Hmiss, bool_decide_eq_false_2 by (by intros []).
  by rewrite He.
Qed.

(** A call that returns went through every step. *)
Lemma normalize_data_returns df f w l w' :
  heap w !! df = Some f →
  normalize_data df w = (inr l, w') →
  filter (λ col, col ∉ columns f) REQUIRED_COLUMNS = [] ∧
  heap w' !! l =
    Some (mkFrame (normalized_columns (columns f)) (normalize_rows (rows f))) ∧
  heap w' !! df =
    Some (mkFrame (parsed_columns (columns f)) (parsed_row <$> rows f)) ∧
  (∀ l' f', l' ≠ df → heap w !! l' = Some f' → heap w' !! l' = Some f') ∧
  files w' = files w ∧ clock w' = clock w ∧
  log w' =
    (log w ++ dropped_warning
       (List.length (filter (λ r, invalid_dates r = true)
                       (parsed_row <$> rows f))))%list.
Proof.
  intros Hf Hrun.
  destruct (decide (filter (λ col, col ∉ columns f) REQUIRED_COLUMNS = []))
    as [Hmiss|Hmiss]; cycle 1.
  { by rewrite (normalize_data_missing _ _ _ Hf Hmiss) in Hrun. }
  destruct (apply_calculate_income (rows f)) as [e|incomes] eqn:Hinc.
  { by rewrite (normalize_data_apply_error _ _ _ _ Hf Hmiss Hinc) in Hrun. }
  destruct (normalize_data_run _ _ _ Hf Hmiss _ Hinc) as (l0 & w0 & Hrun0 & H).
  rewrite Hrun0 in Hrun. injection Hrun as <- <-. done.
Qed.

(** *** The rows of the result *)

Lemma filter_fmap_comm {A B} (P : B → Prop) (Q : A → Prop)
    `{!∀ x, Decision (P x), !∀ x, Decision (Q x)} (g : A → B) (l : list A) :
  (∀ x, P (g x) ↔ Q x) → filter P (g <$> l) = g <$> filter Q l.
Proof.
  intros HPQ. induction l as [|x l IH]; csimpl; [done|].
  rewrite !filter_cons. destruct (decide (Q x)) as [Hq|Hq].
  - rewrite decide_True by (by apply HPQ). csimpl. by rewrite IH.
  - rewrite decide_False by (by rewrite HPQ). done.
Qed.

(** The result is the argument's rows with their derived columns,
    without those of null dates, sorted, without those of a stay length
    that is not positive. *)
Lemma normalize_rows_alt rs :
  normalize_rows rs =
  filter (λ r, positive_days r = true)
    (sort_by row_le
       (filter (λ r, invalid_dates r = false) (normalized_row <$> rs))).
Proof.
  unfold normalize_rows. f_equal.
  rewrite <- (sort_by_fmap row_le row_le
                (λ r, set_Дни_проживания (stay_days r) r)) by (by intros [] []).
  f_equal. rewrite <- list_fmap_compose.
  rewrite <- (filter_fmap_comm (λ r, invalid_dates r = false)
                (λ r, invalid_dates r = false)) by (by intros []).
  by rewrite <- list_fmap_compose.
Qed.

Lemma elem_of_normalize_rows rs r' :
  r' ∈ normalize_rows rs ↔
  ∃ r, r ∈ rs ∧ r' = normalized_row r ∧
       invalid_dates r' = false ∧ positive_days r' = true.
Proof.
  rewrite normalize_rows_alt, list_elem_of_filter.
  rewrite sort_by_perm, list_elem_of_filter, list_elem_of_fmap.
  split.
  - intros (Hp & Hv & r & -> & Hr). eauto.
  - intros (r & Hr & -> & Hv & Hp). eauto.
Qed.


Lemma positive_days_normalized r :
  positive_days (normalized_row r) = true →
  ∃ a b, Заезд (normalized_row r) = Ts a ∧ Выезд (normalized_row r) = Ts b ∧
         Дни_проживания (normalized_row r) = Some (timedelta_days b a) ∧
         0 < timedelta_days b a.
Proof.
  unfold positive_days. simpl. unfold stay_days. simpl.
  destruct (to_datetime (Выезд r)) as [|b| |]; try done.
  destruct (to_datetime (Заезд r)) as [|a| |]; try done.
  intros H%bool_decide_eq_true. eauto 6.
Qed.

Lemma source_in_Some s sources :
  source_in (Some s) sources = true ↔ s ∈ sources.
Proof. simpl. apply bool_decide_eq_true. Qed.

Lemma source_in_false src sources :
  source_in src sources = false ↔ ∀ s, src = Some s → s ∉ sources.
Proof.
  destruct src as [s|]; simpl.
  - rewrite bool_decide_eq_false. split; [by intros ? ? [= <-]|eauto].
  - split; [done|auto].
Qed.

(** C1.  The income of a booking record is its amount times the rate of
    the first bucket of the rate table, in iteration order, whose sources
    contain the record's source; when no bucket contains the source, it is
    the amount unchanged. *)
Theorem calculate_income_first_match (row : Row num) :
  (∀ pre rate_str sources post source amount rate,
     COMMISSION_RATES = (pre ++ (rate_str, sources) :: post)%list →
     Источник row = Some source →
     (∀ b, b ∈ pre → source ∉ b.2) →
     source ∈ sources →
     float rate_str = Some rate →
     Сумма row = Some amount →
     calculate_income row = inr (Some (fmul amount rate)))
  ∧ ((∀ b source, b ∈ COMMISSION_RATES → Источник row = Some source →
                  source ∉ b.2) →
     calculate_income row = inr (Сумма row)).
Proof.
  split.
  - intros pre rate_str sources post source amount rate Hrates Hsrc Hpre Hin
      Hrate Hamount.
    unfold calculate_income. rewrite Hrates, income_loop_first_match.
    + by rewrite Hrate, Hamount.
    + intros b Hb. apply source_in_false. intros s Hs.
      rewrite Hsrc in Hs. injection Hs as <-. by apply Hpre.
    + rewrite Hsrc. by apply source_in_Some.
  - intros Hnone. apply income_loop_no_match.
    intros b Hb. apply source_in_false. eauto.
Qed.

(** C3.  Every record of the frame that normalization returns has a
    non-null arrival date, a non-null departure date and a stay length,
    departure minus arrival in whole days, greater than zero. *)
Theorem normalize_data_valid_rows df f w l w' :
  heap w !! df = Some f →
  normalize_data df w = (inr l, w') →
  ∃ out, heap w' !! l = Some out ∧
    ∀ r, r ∈ rows out →
      ∃ a b, Заезд r = Ts a ∧ Выезд r = Ts b ∧
             isna (Заезд r) = false ∧ isna (Выезд r) = false ∧
             Дни_проживания r = Some (timedelta_days b a) ∧
             0 < timedelta_days b a.
Proof.
  intros Hf Hrun.
  destruct (normalize_data_returns _ _ _ _ _ Hf Hrun) as (_ & Hout & _).
  eexists. split; [exact Hout|]. simpl. intros r' Hr'.
  apply elem_of_normalize_rows in Hr' as (r & _ & -> & _ & Hpos).
  destruct (positive_days_normalized _ Hpos) as (a & b & Ha & Hb & Hd & Hlt).
  exists a, b. by rewrite Ha, Hb.
Qed.

(** C4.  When a required column is absent, normalization raises the
    validation failure that names exactly the absent required columns, and
    it does so before any row is processed: the world (the argument frame
    with it, and the log) is as it was.  When no required column is
    absent, normalization raises no such failure. *)
Theorem normalize_data_schema_check df f w :
  heap w !! df = Some f →
  let missing := filter (λ col, col ∉ columns f) REQUIRED_COLUMNS in
  (∀ col, col ∈ missing ↔ col ∈ REQUIRED_COLUMNS ∧ col ∉ columns f) ∧
  ((∃ col, col ∈ REQUIRED_COLUMNS ∧ col ∉ columns f) →
     normalize_data df w = (inl (ValueError_columns missing), w)) ∧
  ((∀ col, col ∈ REQUIRED_COLUMNS → col ∈ columns f) →
     ∀ m, (normalize_data df w).1 ≠ inl (ValueError_columns m)).
Proof.
  intros Hf missing. split_and!.
  - intros col. unfold missing. rewrite list_elem_of_filter. tauto.
  - intros (col & Hreq & Habs). apply normalize_data_missing; [done|].
    intros Hnil. eapply (filter_nil_not_elem_of _ _ col); eauto.
  - intros Hall m.
    assert (filter (λ col, col ∉ columns f) REQUIRED_COLUMNS = []) as Hmiss.
    { destruct (filter _ _) as [|c cs] eqn:Hc; [done|].
      assert (c ∈ filter (λ col, col ∉ columns f) REQUIRED_COLUMNS) as Hin
        by (rewrite Hc; left).
      apply list_elem_of_filter in Hin as [Hn Hr]. destruct Hn. eauto. }
    destruct (apply_calculate_income (rows f)) as [e|incomes] eqn:Hinc.
    + rewrite (normalize_data_apply_error _ _ _ _ Hf Hmiss Hinc). simpl.
      destruct (apply_calculate_income_error _ _ Hinc) as [s ->]. done.
    + destruct (normalize_data_run _ _ _ Hf Hmiss _ Hinc) as (l & w' & -> & _).
      done.
Qed.






Lemma filter_none {A} (P : A → Prop) `{!∀ x, Decision (P x)} (l : list A) :
  (∀ x, x ∈ l → ¬ P x) → filter P l = [].
Proof.
  intros HP. destruct (filter P l) as [|x k] eqn:Hk; [done|].
  assert (x ∈ filter P l) as Hx by (rewrite Hk; left).
  apply list_elem_of_filter in Hx as [Hx Hin]. by destruct (HP x).
Qed.





(** *** The order of the result *)

Lemma date_le_total a b : date_le a b = true ∨ date_le b a = true.
Proof.
  destruct a, b; simpl; auto.
  destruct (decide (t ≤ t0)).
  - left. by apply bool_decide_eq_true.
  - right. apply bool_decide_eq_true. lia.
Qed.

Lemma date_le_trans a b c :
  date_le a b = true → date_le b c = true → date_le a c = true.
Proof.
  destruct a, b, c; simpl; try done.
  rewrite !bool_decide_eq_true. lia.
Qed.

Lemma date_le_refl a : date_le a a = true.
Proof. destruct a; simpl; try done. by apply bool_decide_eq_true. Qed.

Lemma row_le_total (r1 r2 : Row num) : row_le r1 r2 = true ∨ row_le r2 r1 = true.
Proof.
  unfold row_le. rewrite (String.compare_antisym (Объект r1) (Объект r2)).
  destruct (String.compare (Объект r2) (Объект r1)); simpl; auto.
  apply date_le_total.
Qed.

Lemma row_le_trans (r1 r2 r3 : Row num) :
  row_le r1 r2 = true → row_le r2 r3 = true → row_le r1 r3 = true.
Proof.
  unfold row_le.
  destruct (String.compare (Объект r1) (Объект r2)) eqn:H12; try done;
    destruct (String.compare (Объект r2) (Объект r3)) eqn:H23; try done.
  - apply string_compare_Eq in H12, H23. rewrite H12, H23.
    rewrite string_compare_refl. apply date_le_trans.
  - apply string_compare_Eq in H12. by rewrite H12, H23.
  - apply string_compare_Eq in H23. by rewrite <- H23, H12.
  - by rewrite (string_compare_Lt_trans _ _ _ H12 H23).
Qed.

Lemma StronglySorted_filter {A} (R : relation A) (P : A → Prop)
    `{!∀ x, Decision (P x)} (l : list A) :
  StronglySorted R l → StronglySorted R (filter P l).
Proof.
  induction 1 as [|x l Hl IH Hx]; [constructor|].
  rewrite filter_cons. destruct (decide (P x)); [|done].
  constructor; [done|]. rewrite list.Forall_forall in *.
  intros y [_ Hy]%list_elem_of_filter. by apply Hx.
Qed.

Lemma Sorted_lookup_succ {A} (R : relation A) (l : list A) i x y :
  Sorted R l → l !! i = Some x → l !! S i = Some y → R x y.
Proof.
  intros Hl. revert i. induction Hl as [|z l Hl IH Hz]; intros i; [done|].
  destruct i as [|i]; simpl.
  - intros [= ->] Hy. destruct Hz as [|z' l' Hz]; simpl in *; [done|].
    by injection Hy as <-.
  - apply IH.
Qed.

Lemma normalize_rows_Sorted rs :
  Sorted (λ r1 r2, row_le r1 r2 = true) (normalize_rows rs).
Proof.
  rewrite normalize_rows_alt.
  apply StronglySorted_Sorted, StronglySorted_filter.
  apply Sorted_StronglySorted.
  - intros r1 r2 r3. apply row_le_trans.
  - apply sort_by_Sorted, row_le_total.
Qed.

(** C5.  The result of normalization is sorted: along consecutive records
    the property does not decrease and, for equal properties, the arrival
    date does not decrease.  The result is the stay-length filter applied
    to a stable sort: it holds the surviving records, and those of equal
    property and arrival are in the order they had in the argument. *)
Theorem normalize_data_sorted df f w l w' :
  heap w !! df = Some f →
  normalize_data df w = (inr l, w') →
  ∃ out, heap w' !! l = Some out ∧
    (∀ i r1 r2, rows out !! i = Some r1 → rows out !! S i = Some r2 →
       String.leb (Объект r1) (Объект r2) = true ∧
       (Объект r1 = Объект r2 →
        ∃ a1 a2, Заезд r1 = Ts a1 ∧ Заезд r2 = Ts a2 ∧ a1 ≤ a2)) ∧
    let candidates :=
      filter (λ r, invalid_dates r = false) (normalized_row <$> rows f) in
    let survivors := filter (λ r, positive_days r = true) candidates in
    rows out = filter (λ r, positive_days r = true) (sort_by row_le candidates) ∧
    rows out ≡ₚ survivors ∧
    ∀ o a, filter (λ r, Объект r = o ∧ Заезд r = a) (rows out) =
           filter (λ r, Объект r = o ∧ Заезд r = a) survivors.
Proof.
  intros Hf Hrun.
  destruct (normalize_data_returns _ _ _ _ _ Hf Hrun) as (_ & Hout & _).
  eexists. split; [exact Hout|]. simpl. split_and!.
  - intros i r1 r2 H1 H2.
    pose proof (Sorted_lookup_succ _ _ _ _ _ (normalize_rows_Sorted (rows f)) H1 H2)
      as Hle. simpl in Hle.
    assert (r1 ∈ normalize_rows (rows f)) as Hin1
      by (apply list_elem_of_lookup; eauto).
    assert (r2 ∈ normalize_rows (rows f)) as Hin2
      by (apply list_elem_of_lookup; eauto).
    apply elem_of_normalize_rows in Hin1 as (x1 & _ & -> & _ & Hp1).
    apply elem_of_normalize_rows in Hin2 as (x2 & _ & -> & _ & Hp2).
    destruct (positive_days_normalized _ Hp1) as (a1 & b1 & Ha1 & _).
    destruct (positive_days_normalized _ Hp2) as (a2 & b2 & Ha2 & _).
    unfold row_le in Hle. unfold String.leb. split.
    + by destruct (String.compare _ _).
    + intros Heq. rewrite Heq, string_compare_refl, Ha1, Ha2 in Hle.
      apply bool_decide_eq_true in Hle. eauto.
  - apply normalize_rows_alt.
  - rewrite normalize_rows_alt. by rewrite sort_by_perm.
  - intros o a. rewrite normalize_rows_alt.
    generalize (filter (λ r, invalid_dates r = false)
                  (normalized_row <$> rows f)).
    intros cand. rewrite !list_filter_filter. apply sort_by_stable.
    intros x y [[Hxo Hxa] _] [[Hyo Hya] _]. unfold row_le.
    rewrite Hxo, Hyo, string_compare_refl, Hxa, Hya. apply date_le_refl.
Qed.

(** *** The writer, run *)

Lemma forallb_departure_assign_arrival (g : datecell → datecell) (rs : list (Row num)) :
  forallb (λ r, is_datetime (Выезд r)) ((λ r, set_Заезд (g (Заезд r)) r) <$> rs) =
  forallb (λ r, is_datetime (Выезд r)) rs.
Proof. induction rs as [|r rs IH]; csimpl; [done|]. by rewrite IH. Qed.

Lemma normalize_df_dates_run l f w :
  heap w !! l = Some f → "Заезд" ∈ columns f → "Выезд" ∈ columns f →
  normalize_df_dates l w =
    let f1 := assign "Заезд" (λ r, set_Заезд (to_date (Заезд r)) r) f in
    if forallb (λ r, is_datetime (Заезд r)) (rows f) then
      if forallb (λ r, is_datetime (Выезд r)) (rows f) then
        (inr l,
         with_heap (<[l := assign "Выезд" (λ r, set_Выезд (to_date (Выезд r)) r) f1]>
                      (<[l := f1]> (heap w))) w)
      else (inl (AttributeError_dt "Выезд"), with_heap (<[l := f1]> (heap w)) w)
    else (inl (AttributeError_dt "Заезд"), w).
Proof.
  intros Hf Ha Hd. unfold normalize_df_dates.
  rewrite (run_need_column _ _ f) by done. heap_step.
  destruct (forallb (λ r, is_datetime (Заезд r)) (rows f)) eqn:Hdt1; [|done].
  heap_step.
  erewrite run_need_column; [| simpl; apply lookup_insert_eq
                             | simpl; by apply elem_of_add_column].
  heap_step. rewrite forallb_departure_assign_arrival.
  destruct (forallb (λ r, is_datetime (Выезд r)) (rows f)); [|done].
  heap_step. done.
Qed.

Lemma written_frame_normalized f :
  "Заезд" ∈ columns f → "Выезд" ∈ columns f →
  written_frame f =
    assign "Выезд" (λ r, set_Выезд (to_date (Выезд r)) r)
      (assign "Заезд" (λ r, set_Заезд (to_date (Заезд r)) r) f).
Proof. intros. unfold written_frame. by rewrite bool_decide_eq_true_2. Qed.

Lemma save2xlsx_run df f w sheet_name file_name mode :
  heap w !! df = Some f →
  ("Заезд" ∈ columns f → "Выезд" ∈ columns f → datetime_columns f = true) →
  save2xlsx df sheet_name file_name mode w =
    let there := path_exists (files w) file_name in
    let written :=
      ExcelWriter (files w) file_name (effective_mode mode there)
        (replace_char "/" "." sheet_name) (written_frame f) in
    (if written.2 then inr tt else inl IOError,
     mkWorld (<[fresh (dom (heap w)) := written_frame f]> (heap w))
       written.1
       (log w ++ fallback_message mode there sheet_name ++
          if written.2 then [print_saved sheet_name] else [])%list
       (clock w)).
Proof.
  intros Hf Hdt. unfold save2xlsx. do 2 heap_step.
  set (l := fresh (dom (heap w))).
  set (there := path_exists (files w) file_name).
  assert (∀ (h : gmap positive (Frame num)),
    h !! l = Some (written_frame f) →
    (there0 <- (λ w0, (inr (path_exists (files w0) file_name), w0)) ;;
     mode0 <- (if bool_decide (mode = mode_a) && negb there0
               then emit (print_logic_violated sheet_name) ;;; ret mode_w
               else ret mode) ;;
     f0 <- deref l ;;
     ok <- (λ w0, let '(fs, ok) :=
                    ExcelWriter (files w0) file_name mode0
                      (replace_char "/" "." sheet_name) f0 in
                  (inr ok, with_files fs w0)) ;;
     if ok : bool then emit (print_saved sheet_name) else raise IOError)
      (mkWorld h (files w) (log w) (clock w)) =
    let written :=
      ExcelWriter (files w) file_name (effective_mode mode there)
        (replace_char "/" "." sheet_name) (written_frame f) in
    (if written.2 then inr tt else inl IOError,
     mkWorld h written.1
       (log w ++ fallback_message mode there sheet_name ++
          if written.2 then [print_saved sheet_name] else [])%list
       (clock w))) as Htail.
  { intros h Hh. unfold bind at 1. simpl. fold there.
    unfold effective_mode, fallback_message.
    destruct (bool_decide (mode = mode_a) && negb there); simpl.
    - unfold bind, emit, ret, deref, raise. simpl. rewrite Hh.
      destruct (ExcelWriter _ _ _ _ _) as [fs [|]]; simpl; [|done].
      by rewrite <- app_assoc.
    - unfold bind, emit, ret, deref, raise. simpl. rewrite Hh.
      destruct (ExcelWriter _ _ _ _ _) as [fs [|]]; simpl; [done|].
      by rewrite app_nil_r. }
  destruct (decide ("Заезд" ∈ columns f ∧ "Выезд" ∈ columns f))
    as [[Ha Hd]|Hcols].
  - rewrite bool_decide_eq_true_2 by done.
    unfold bind at 1.
    erewrite normalize_df_dates_run;
      [| simpl; apply lookup_insert_eq | done | done ].
    specialize (Hdt Ha Hd). unfold datetime_columns in Hdt.
    apply andb_true_iff in Hdt as [Hdt1 Hdt2]. simpl.
    rewrite Hdt1, Hdt2. simpl.
    rewrite !insert_insert_eq, <- (written_frame_normalized f) by done.
    unfold with_heap. simpl.
    rewrite Htail by apply lookup_insert_eq. done.
  - rewrite bool_decide_eq_false_2 by done. heap_step.
    assert (written_frame f = f) as Hwf
      by (unfold written_frame; by rewrite bool_decide_eq_false_2).
    rewrite <- Hwf at 1. unfold with_heap. simpl.
    rewrite Htail by apply lookup_insert_eq. done.
Qed.

Lemma save2xlsx_attribute_error df f w sheet_name file_name mode :
  heap w !! df = Some f →
  "Заезд" ∈ columns f → "Выезд" ∈ columns f →
  datetime_columns f = false →
  ∃ col h,
    save2xlsx df sheet_name file_name mode w =
      (inl (AttributeError_dt col), mkWorld h (files w) (log w) (clock w)) ∧
    ∀ l' f', heap w !! l' = Some f' → h !! l' = Some f'.
Proof.
  intros Hf Ha Hd Hdt. unfold save2xlsx. do 2 heap_step.
  rewrite bool_decide_eq_true_2 by done.
  unfold bind at 1.
  erewrite normalize_df_dates_run;
    [| simpl; apply lookup_insert_eq | done | done ].
  unfold datetime_columns in Hdt. simpl.
  destruct (forallb (λ r, is_datetime (Заезд r)) (rows f)); simpl in *.
  - rewrite Hdt. eexists _, _. split; [reflexivity|].
    intros l' f' Hl'.
    rewrite !lookup_insert_ne by (by eapply fresh_ne). done.
  - eexists _, _. split; [reflexivity|].
    intros l' f' Hl'. rewrite lookup_insert_ne by (by eapply fresh_ne). done.
Qed.

Lemma add_column_present c (cols : list string) :
  c ∈ cols → add_column c cols = cols.
Proof. intros. unfold add_column. by rewrite bool_decide_eq_true_2. Qed.




(** C10.  Whatever the outcome of the call, the frame passed to the writer
    is afterwards what it was before: the dates are converted in a copy,
    and the argument keeps its timestamps. *)
Theorem save2xlsx_leaves_argument df f w sheet_name file_name mode :
  heap w !! df = Some f →
  ∀ r w', save2xlsx df sheet_name file_name mode w = (r, w') →
    heap w' !! df = Some f ∧
    ∀ l' f', heap w !! l' = Some f' → heap w' !! l' = Some f'.
Proof.
  intros Hf r w' Hrun.
  assert (∀ l' f', heap w !! l' = Some f' → heap w' !! l' = Some f') as Hframe;
    [|by eauto].
  destruct (decide ("Заезд" ∈ columns f ∧ "Выезд" ∈ columns f
                    ∧ datetime_columns f = false)) as [(Ha & Hd & Hdt)|Hok].
  - destruct (save2xlsx_attribute_error _ _ _ sheet_name file_name mode
                Hf Ha Hd Hdt) as (col & h & Heq & Hh).
    rewrite Heq in Hrun. by injection Hrun as <- <-.
  - rewrite (save2xlsx_run _ f) in Hrun; [|done|].
    + injection Hrun as <- <-. simpl. intros l' f' Hl'.
      rewrite lookup_insert_ne by (by eapply fresh_ne). done.
    + intros Ha Hd. destruct (datetime_columns f); [done|]. by destruct Hok.
Qed.

(** *** Grouping *)

Lemma key_compare_Eq k1 k2 : key_compare k1 k2 = Eq ↔ k1 = k2.
Proof.
  destruct k1 as [s1 p1], k2 as [s2 p2]. unfold key_compare. simpl.
  destruct (String.compare s1 s2) eqn:Hs.
  - apply string_compare_Eq in Hs as ->. rewrite Z.compare_eq_iff.
    split; [by intros ->|by intros [= ->]].
  - split; [done|]. intros [= -> ->]. by rewrite string_compare_refl in Hs.
  - split; [done|]. intros [= -> ->]. by rewrite string_compare_refl in Hs.
Qed.

Lemma key_compare_Gt k1 k2 : key_compare k1 k2 = Gt ↔ key_lt k2 k1.
Proof.
  destruct k1 as [s1 p1], k2 as [s2 p2]. unfold key_lt, key_compare. simpl.
  rewrite (String.compare_antisym s2 s1), (Z.compare_antisym p1 p2).
  destruct (String.compare s1 s2); simpl; try done.
  destruct (p1 ?= p2); simpl; done.
Qed.

Lemma key_lt_irrefl k : ¬ key_lt k k.
Proof.
  unfold key_lt. intros H.
  by rewrite (proj2 (key_compare_Eq k k) eq_refl) in H.
Qed.

Lemma key_lt_trans k1 k2 k3 : key_lt k1 k2 → key_lt k2 k3 → key_lt k1 k3.
Proof.
  destruct k1 as [s1 p1], k2 as [s2 p2], k3 as [s3 p3].
  unfold key_lt, key_compare. simpl.
  destruct (String.compare s1 s2) eqn:H12; try done;
    destruct (String.compare s2 s3) eqn:H23; try done.
  - apply string_compare_Eq in H12, H23. subst.
    rewrite string_compare_refl, !Z.compare_lt_iff. lia.
  - apply string_compare_Eq in H12. subst. by rewrite H23.
  - apply string_compare_Eq in H23. subst. by rewrite H12.
  - by rewrite (string_compare_Lt_trans _ _ _ H12 H23).
Qed.

Lemma add_to_group_keys k r gs k' :
  k' ∈ (add_to_group k r gs).*1 → k' = k ∨ k' ∈ gs.*1.
Proof.
  induction gs as [|[k0 g0] gs IH]; simpl.
  - intros ->%list_elem_of_singleton. by left.
  - destruct (key_compare k k0); csimpl.
    + auto.
    + intros [->|H]%elem_of_cons; [by left|]. auto.
    + intros [->|H]%elem_of_cons.
      * right. left.
      * destruct (IH H) as [->|?]; [by left|]. right. by right.
Qed.

Lemma add_to_group_sorted k r gs :
  StronglySorted key_lt gs.*1 → StronglySorted key_lt (add_to_group k r gs).*1.
Proof.
  induction gs as [|[k0 g0] gs IH]; simpl; intros Hs.
  - repeat constructor.
  - inversion Hs as [|? ? Hs' Hall]; subst.
    destruct (key_compare k k0) eqn:Hk; csimpl.
    + done.
    + constructor; [done|]. constructor; [done|].
      eapply Forall_impl; [exact Hall|]. intros k'. by apply key_lt_trans.
    + constructor; [by apply IH|].
      apply list.Forall_forall. intros k' Hk'.
      apply add_to_group_keys in Hk' as [->|Hk'].
      * by apply key_compare_Gt.
      * rewrite list.Forall_forall in Hall. by apply Hall.
Qed.

Lemma group_rows_absent k gs : k ∉ gs.*1 → group_rows k gs = [].
Proof.
  induction gs as [|[k0 g0] gs IH]; simpl; [done|]. intros Hk.
  rewrite not_elem_of_cons in Hk. destruct Hk as [Hne Hk].
  rewrite decide_False by done. by apply IH.
Qed.

Lemma group_rows_add k r gs k' :
  StronglySorted key_lt gs.*1 →
  group_rows k' (add_to_group k r gs) =
    if decide (k' = k) then (group_rows k gs ++ [r])%list else group_rows k' gs.
Proof.
  induction gs as [|[k0 g0] gs IH]; simpl; intros Hs.
  - destruct (decide (k = k')) as [->|]; [by rewrite decide_True|].
    by rewrite decide_False.
  - inversion Hs as [|? ? Hs' Hall]; subst.
    rewrite list.Forall_forall in Hall.
    destruct (key_compare k k0) eqn:Hk; simpl.
    + apply key_compare_Eq in Hk as ->.
      destruct (decide (k0 = k')) as [->|Hne].
      * by rewrite !decide_True.
      * by rewrite decide_False by congruence.
    + destruct (decide (k = k')) as [<-|Hne].
      * rewrite decide_True by done.
        rewrite decide_False by (intros ->; by apply key_lt_irrefl in Hk).
        rewrite group_rows_absent; [done|]. intros Hin.
        apply (key_lt_irrefl k). eapply key_lt_trans; [exact Hk|by apply Hall].
      * by rewrite (decide_False (P := k' = k)).
    + apply key_compare_Gt in Hk.
      destruct (decide (k0 = k')) as [<-|Hne].
      * rewrite decide_False; [done|]. intros ->. by apply key_lt_irrefl in Hk.
      * rewrite (decide_False (P := k0 = k))
          by (intros ->; by apply key_lt_irrefl in Hk).
        by apply IH.
Qed.

Lemma add_to_group_nonempty k r gs :
  Forall (λ g, g.2 ≠ []) gs → Forall (λ g, g.2 ≠ []) (add_to_group k r gs).
Proof.
  induction 1 as [|[k0 g0] gs Hg Hgs IH]; simpl.
  - by repeat constructor.
  - destruct (key_compare k k0); repeat constructor; simpl; auto.
    by destruct g0.
Qed.

(** *** The text of the current period *)

Lemma years_decimal :
  forallb (λ a, forallb (λ b, forallb (λ c, forallb (λ d,
    decimal_ok 4 4 (1000 * a + 100 * b + 10 * c + d)) ten) ten) ten)
    (tail ten) = true.
Proof. vm_compute. reflexivity. Qed.

Lemma months_decimal : forallb (decimal_ok 1 2) twelve = true.
Proof. vm_compute. reflexivity. Qed.

Lemma In_ten a : 0 ≤ a ≤ 9 → In a ten.
Proof.
  intros H.
  assert (a = 0 ∨ a = 1 ∨ a = 2 ∨ a = 3 ∨ a = 4 ∨ a = 5 ∨ a = 6 ∨ a = 7
          ∨ a = 8 ∨ a = 9) as Ha by lia.
  unfold ten. simpl. intuition.
Qed.

Lemma year_decimal y : 1000 ≤ y ≤ 9999 → decimal_ok 4 4 y = true.
Proof.
  intros Hy.
  assert (∃ a b c d, y = 1000 * a + 100 * b + 10 * c + d ∧ 1 ≤ a ≤ 9
                     ∧ 0 ≤ b ≤ 9 ∧ 0 ≤ c ≤ 9 ∧ 0 ≤ d ≤ 9)
    as (a & b & c & d & -> & Ha & Hb & Hc & Hd).
  { exists (y `div` 1000), ((y `div` 100) `mod` 10), ((y `div` 10) `mod` 10),
      (y `mod` 10).
    Z.div_mod_to_equations. lia. }
  pose proof years_decimal as H.
  assert (In a (tail ten)) as Hin.
  { assert (a = 1 ∨ a = 2 ∨ a = 3 ∨ a = 4 ∨ a = 5 ∨ a = 6 ∨ a = 7 ∨ a = 8
            ∨ a = 9) as Ha' by lia.
    unfold ten. simpl. clear -Ha'. intuition. }
  rewrite forallb_forall in H. specialize (H a Hin).
  rewrite forallb_forall in H.
  specialize (H b (In_ten b Hb)). rewrite forallb_forall in H.
  specialize (H c (In_ten c Hc)). rewrite forallb_forall in H.
  exact (H d (In_ten d Hd)).
Qed.

Lemma month_decimal m : 1 ≤ m ≤ 12 → decimal_ok 1 2 m = true.
Proof.
  intros Hm. pose proof months_decimal as H.
  rewrite forallb_forall in H. apply H.
  assert (m = 1 ∨ m = 2 ∨ m = 3 ∨ m = 4 ∨ m = 5 ∨ m = 6 ∨ m = 7 ∨ m = 8
          ∨ m = 9 ∨ m = 10 ∨ m = 11 ∨ m = 12) as Hm' by lia.
  unfold twelve. simpl. intuition.
Qed.

Lemma digit_not_dash c :
  is_Some (digit_of_ascii c) → Ascii.eqb c "-" = false.
Proof.
  intros [d Hd]. apply Ascii.eqb_neq. intros ->. by vm_compute in Hd.
Qed.

Lemma split_on_digits ys ms :
  all_digits ys = true →
  split_on "-" (ys +:+ String "-" ms) = ys :: split_on "-" ms.
Proof.
  induction ys as [|c ys IH]; simpl; [done|].
  intros [Hc Hys]%andb_true_iff. apply bool_decide_eq_true in Hc.
  by rewrite (digit_not_dash c Hc), (IH Hys).
Qed.

Lemma split_on_no_dash ms : all_digits ms = true → split_on "-" ms = [ms].
Proof.
  induction ms as [|c ms IH]; simpl; [done|].
  intros [Hc Hms]%andb_true_iff. apply bool_decide_eq_true in Hc.
  by rewrite (digit_not_dash c Hc), (IH Hms).
Qed.

(** The text [f"{today.year}-{today.month}"] reads as the period of the
    current year and month, whether the month has one digit or two. *)
Lemma target_date_period y m :
  1000 ≤ y ≤ 9999 → 1 ≤ m ≤ 12 →
  Period_of_string (pretty y +:+ "-" +:+ pretty m) = Some (month_ordinal y m).
Proof.
  intros Hy Hm.
  pose proof (year_decimal y Hy) as Hyd. pose proof (month_decimal m Hm) as Hmd.
  unfold decimal_ok in Hyd, Hmd.
  apply andb_true_iff in Hyd as [[Hy1 Hy2]%andb_true_iff Hy3].
  apply andb_true_iff in Hmd as [[Hm1 Hm2]%andb_true_iff Hm3].
  apply bool_decide_eq_true in Hy3, Hm3.
  apply orb_true_iff in Hy2, Hm2.
  rewrite !Nat.eqb_eq in Hy2. rewrite !Nat.eqb_eq in Hm2.
  unfold Period_of_string.
  change ("-" +:+ pretty m) with (String "-" (pretty m)).
  rewrite (split_on_digits _ _ Hy1), (split_on_no_dash _ Hm1).
  rewrite bool_decide_eq_true_2 by tauto.
  rewrite Hy3, Hm3. by rewrite bool_decide_eq_true_2.
Qed.

Lemma period_eq_target p y m :
  1000 ≤ y ≤ 9999 → 1 ≤ m ≤ 12 →
  period_eq p (pretty y +:+ "-" +:+ pretty m) = true ↔ p = Some (month_ordinal y m).
Proof.
  intros Hy Hm. unfold period_eq. rewrite (target_date_period y m Hy Hm).
  destruct p as [p|]; [|done]. rewrite bool_decide_eq_true.
  split; [by intros ->|by intros [= ->]].
Qed.

(** *** The groups *)

Lemma groups_of_step seen gs r :
  groups_of seen gs →
  groups_of (seen ++ [r])
    (match Месяц r with
     | Some p => add_to_group (Объект r, p) r gs
     | None => gs
     end).
Proof.
  intros (Hs & Hne & Hrows). destruct (Месяц r) as [p|] eqn:Hp.
  - split_and!.
    + by apply add_to_group_sorted.
    + by apply add_to_group_nonempty.
    + intros k. rewrite group_rows_add, filter_app, !Hrows by done.
      rewrite filter_cons, filter_nil.
      destruct (decide (k = (Объект r, p))) as [->|Hk].
      * rewrite decide_True; [done|]. by split.
      * rewrite decide_False, app_nil_r; [done|].
        intros [Ho Hm]. apply Hk. destruct k as [o q]. simpl in *.
        rewrite Hp in Hm. injection Hm as ->. by rewrite Ho.
  - split_and!; [done|done|].
    intros k. rewrite filter_app, Hrows, filter_cons, filter_nil.
    rewrite decide_False, app_nil_r; [done|].
    intros [_ Hm]. by rewrite Hp in Hm.
Qed.

Lemma groups_of_foldl rs seen gs :
  groups_of seen gs →
  groups_of (seen ++ rs)
    (foldl (λ gs r, match Месяц r with
                    | Some p => add_to_group (Объект r, p) r gs
                    | None => gs
                    end) gs rs).
Proof.
  revert seen gs. induction rs as [|r rs IH]; intros seen gs Hgs; simpl.
  - by rewrite app_nil_r.
  - rewrite cons_middle, app_assoc. apply IH. by apply groups_of_step.
Qed.

Lemma groupby_groups rs : groups_of rs (groupby rs).
Proof.
  apply (groups_of_foldl rs [] []). split_and!; [constructor|constructor|done].
Qed.

Lemma group_rows_elem k g gs :
  StronglySorted key_lt gs.*1 → (k, g) ∈ gs → group_rows k gs = g.
Proof.
  induction gs as [|[k0 g0] gs IH]; simpl; intros Hs Hin.
  - by apply elem_of_nil in Hin.
  - inversion Hs as [|? ? Hs' Hall]; subst.
    apply elem_of_cons in Hin as [[= -> ->]|Hin].
    + by rewrite decide_True.
    + rewrite decide_False; [by apply IH|].
      intros ->. apply (key_lt_irrefl k).
      rewrite list.Forall_forall in Hall. apply Hall.
      apply list_elem_of_fmap. by exists (k, g).
Qed.

Lemma groupby_elem rs k g :
  (k, g) ∈ groupby rs → g = filter (has_key k) rs ∧ g ≠ [].
Proof.
  intros Hin. destruct (groupby_groups rs) as (Hs & Hne & Hrows).
  split.
  - by rewrite <- Hrows, (group_rows_elem k g).
  - rewrite list.Forall_forall in Hne. apply (Hne (k, g) Hin).
Qed.

Lemma groupby_key_present rs r k :
  r ∈ rs → has_key k r → k ∈ (groupby rs).*1.
Proof.
  intros Hr Hk. destruct (groupby_groups rs) as (Hs & Hne & Hrows).
  destruct (decide (k ∈ (groupby rs).*1)) as [|Habs]; [done|].
  apply group_rows_absent in Habs. rewrite Hrows in Habs.
  assert (r ∈ filter (has_key k) rs) as Hin by (by apply list_elem_of_filter).
  rewrite Habs in Hin. by apply elem_of_nil in Hin.
Qed.

Lemma summary_le_of_key_lt (g1 g2 : (string * Z) * list (Row num)) :
  key_lt g1.1 g2.1 → summary_le (summary_row g1) (summary_row g2) = true.
Proof.
  destruct g1 as [[o1 p1] rs1], g2 as [[o2 p2] rs2].
  unfold key_lt, key_compare, summary_le. simpl.
  destruct (String.compare o1 o2); try done.
  intros H. apply bool_decide_eq_true. rewrite Z.compare_lt_iff in H. lia.
Qed.

Lemma summary_rows_Sorted gs :
  StronglySorted key_lt gs.*1 →
  Sorted (λ r1 r2, summary_le r1 r2 = true) (summary_row <$> gs).
Proof.
  induction gs as [|g gs IH]; csimpl; intros Hs; [constructor|].
  inversion Hs as [|? ? Hs' Hall]; subst. constructor; [by apply IH|].
  destruct gs as [|g' gs]; csimpl; constructor.
  apply summary_le_of_key_lt. by inversion Hall.
Qed.

(** *** The aggregator, run *)

Lemma analyze_stay_days_run df f w :
  heap w !! df = Some f →
  (∀ col, col ∈ summary_columns → col ∈ columns f) →
  1000 ≤ year (clock w) ≤ 9999 → 1 ≤ month (clock w) ≤ 12 →
  ∃ l w',
    analyze_stay_days df w = (inr l, w') ∧
    heap w' !! l =
      Some (mkFrame summary_columns
              (filter (λ r, Месяц r = Some (month_ordinal (year (clock w))
                                              (month (clock w))))
                 (summary_row <$> groupby (rows f)))) ∧
    (∀ l' f', heap w !! l' = Some f' → heap w' !! l' = Some f') ∧
    files w' = files w ∧ log w' = log w ∧ clock w' = clock w.
Proof.
  intros Hf Hcols Hy Hm. unfold analyze_stay_days.
  rewrite !(run_need_column _ _ f)
    by (try done; apply Hcols, list_elem_of_In; simpl; tauto).
  do 4 heap_step. unfold bind at 1. simpl. heap_step. unfold alloc. simpl.
  eexists _, _. split; [reflexivity|]. simpl.
  set (h1 := <[fresh (dom (heap w)) := _]> (heap w)).
  set (h2 := <[fresh (dom h1) := _]> h1).
  split_and!; try done.
  - rewrite lookup_insert_eq. do 2 f_equal.
    rewrite sort_by_sorted; cycle 1.
    { apply summary_rows_Sorted. by destruct (groupby_groups (rows f)). }
    apply list_filter_iff. intros r. by apply period_eq_target.
  - intros l' f' Hl'.
    assert (h1 !! l' = Some f') as H1.
    { unfold h1. rewrite lookup_insert_ne by (by eapply fresh_ne). done. }
    assert (h2 !! l' = Some f') as H2.
    { unfold h2. rewrite lookup_insert_ne by (by eapply fresh_ne). done. }
    rewrite lookup_insert_ne by (by eapply fresh_ne). done.
Qed.

(** *** The summary *)

Lemma StronglySorted_fst {A B} (R : relation A) (l : list (A * B)) :
  StronglySorted R l.*1 → StronglySorted (λ x y, R x.1 y.1) l.
Proof.
  induction l as [|x l IH]; csimpl; intros Hs; [constructor|].
  inversion Hs as [|? ? Hs' Hall]; subst. constructor; [by apply IH|].
  rewrite list.Forall_fmap in Hall. exact Hall.
Qed.

Lemma summary_rows_StronglySorted rs :
  StronglySorted summary_lt (summary_row <$> groupby rs).
Proof.
  destruct (groupby_groups rs) as (Hs & _).
  apply (StronglySorted_fmap _ (λ g1 g2, key_lt g1.1 g2.1)).
  - intros [[o1 p1] g1] [[o2 p2] g2] Hlt. by exists p1, p2.
  - by apply StronglySorted_fst.
Qed.

Lemma summary_lt_key_ne r1 r2 :
  summary_lt r1 r2 → (Объект r1, Месяц r1) ≠ (Объект r2, Месяц r2).
Proof.
  intros (p & q & Hp & Hq & Hlt). rewrite Hp, Hq. intros [= Ho ->].
  rewrite Ho in Hlt. by apply key_lt_irrefl in Hlt.
Qed.

Lemma StronglySorted_NoDup_keys (l : list (Row num)) :
  StronglySorted summary_lt l →
  NoDup ((λ row, (Объект row, Месяц row)) <$> l).
Proof.
  induction 1 as [|x l Hl IH Hx]; csimpl; constructor; [|done].
  intros Hin. apply list_elem_of_fmap in Hin as (y & Heq & Hy).
  rewrite list.Forall_forall in Hx.
  by apply (summary_lt_key_ne x y (Hx y Hy)).
Qed.

(** C2.  For a frame with the columns of a normalized dataset and any
    system date, the aggregator returns a frame whose rows are all of the
    current year and month, one for every property that has a record in
    that period and no two for the same property and period; the stay
    days and the income of a row are the sums of these columns over the
    records of its property and period (null cells do not count); the rows
    are in increasing order of property; and there is no row when no
    record is of the current period. *)
Theorem analyze_stay_days_current_period df f w :
  heap w !! df = Some f →
  (∀ col, col ∈ summary_columns → col ∈ columns f) →
  1000 ≤ year (clock w) ≤ 9999 → 1 ≤ month (clock w) ≤ 12 →
  let current := month_ordinal (year (clock w)) (month (clock w)) in
  ∃ l w' out,
    analyze_stay_days df w = (inr l, w') ∧ heap w' !! l = Some out ∧
    (∀ row, row ∈ rows out →
       Месяц row = Some current ∧
       ∃ r, r ∈ rows f ∧ Объект r = Объект row ∧ Месяц r = Some current) ∧
    (∀ r, r ∈ rows f → Месяц r = Some current →
       ∃ row, row ∈ rows out ∧ Объект row = Объект r) ∧
    NoDup ((λ row, (Объект row, Месяц row)) <$> rows out) ∧
    (∀ row, row ∈ rows out →
       let group :=
         filter (λ r, Объект r = Объект row ∧ Месяц r = Some current) (rows f) in
       Дни_проживания row = Some (foldr Z.add 0 (omap Дни_проживания group)) ∧
       Доход row = Some (column_sum (omap Доход group))) ∧
    (∀ i r1 r2, rows out !! i = Some r1 → rows out !! S i = Some r2 →
       String.compare (Объект r1) (Объект r2) = Lt
       ∧ String.leb (Объект r1) (Объект r2) = true
       ∧ Месяц r1 = Месяц r2) ∧
    ((∀ r, r ∈ rows f → Месяц r ≠ Some current) → rows out = []).
Proof.
  intros Hf Hcols Hy Hm current.
  destruct (analyze_stay_days_run _ _ _ Hf Hcols Hy Hm)
    as (l & w' & Hrun & Hout & _).
  fold current in Hout.
  exists l, w', (mkFrame summary_columns
                   (filter (λ r, Месяц r = Some current)
                      (summary_row <$> groupby (rows f)))).
  split; [done|]. split; [done|]. simpl.
  assert (∀ row, row ∈ filter (λ r, Месяц r = Some current)
                         (summary_row <$> groupby (rows f)) →
            ∃ g, (((Объект row, current), g) ∈ groupby (rows f))
                 ∧ row = summary_row ((Объект row, current), g)
                 ∧ g = filter (λ r, Объект r = Объект row
                                    ∧ Месяц r = Some current) (rows f)
                 ∧ g ≠ []) as Hrow.
  { intros row [Hp (g & -> & Hg)%list_elem_of_fmap]%list_elem_of_filter.
    destruct g as [[o p] g]. simpl in Hp. injection Hp as ->. simpl.
    exists g. destruct (groupby_elem _ _ _ Hg) as [Heq Hne].
    split_and!; done. }
  assert (StronglySorted summary_lt
            (filter (λ r, Месяц r = Some current)
               (summary_row <$> groupby (rows f)))) as Hsorted
    by apply StronglySorted_filter, summary_rows_StronglySorted.
  split_and!.
  - intros row Hin. split; [by apply list_elem_of_filter in Hin as [? _]|].
    destruct (Hrow row Hin) as (g & _ & _ & Hg & Hne).
    destruct g as [|r g]; [done|].
    assert (r ∈ filter (λ r, Объект r = Объект row ∧ Месяц r = Some current)
                  (rows f)) as Hr by (rewrite <- Hg; left).
    apply list_elem_of_filter in Hr as [[Ho Hp] Hr]. eauto.
  - intros r Hr Hp.
    pose proof (groupby_key_present (rows f) r (Объект r, current) Hr
                  ltac:(by split)) as Hk.
    apply list_elem_of_fmap in Hk as ([k g] & Hk & Hg). simpl in Hk. subst k.
    exists (summary_row ((Объект r, current), g)). split; [|done].
    apply list_elem_of_filter. split; [done|].
    apply list_elem_of_fmap. eauto.
  - by apply StronglySorted_NoDup_keys.
  - intros row Hin. destruct (Hrow row Hin) as (g & _ & Heq & Hg & _).
    cbv zeta. rewrite <- Hg. split; rewrite Heq at 1; done.
  - intros i r1 r2 H1 H2.
    pose proof (Sorted_lookup_succ _ _ _ _ _
                  (StronglySorted_Sorted Hsorted) H1 H2)
      as (p & q & Hp & Hq & Hlt).
    assert (Месяц r1 = Some current) as Hp1.
    { apply list_elem_of_lookup_2 in H1.
      by apply list_elem_of_filter in H1 as [? _]. }
    assert (Месяц r2 = Some current) as Hp2.
    { apply list_elem_of_lookup_2 in H2.
      by apply list_elem_of_filter in H2 as [? _]. }
    rewrite Hp1 in Hp. rewrite Hp2 in Hq. injection Hp as <-. injection Hq as <-.
    unfold key_lt, key_compare in Hlt. simpl in Hlt. unfold String.leb.
    destruct (String.compare (Объект r1) (Объект r2)); try done.
    + by rewrite Z.compare_refl in Hlt.
    + by rewrite Hp1, Hp2.
  - intros Hnone. apply filter_none. intros row Hin Hp.
    assert (row ∈ filter (λ r, Месяц r = Some current)
                    (summary_row <$> groupby (rows f))) as Hin'
      by (by apply list_elem_of_filter).
    destruct (Hrow row Hin') as (g & _ & _ & Hg & Hne).
    destruct g as [|r g]; [done|].
    assert (r ∈ filter (λ r, Объект r = Объект row ∧ Месяц r = Some current)
                  (rows f)) as Hr by (rewrite <- Hg; left).
    apply list_elem_of_filter in Hr as [[Ho Hp'] Hr]. by apply (Hnone r).
Qed.

End Pipeline.

(** ** The theorems at the example data *)

Ltac by_compute := apply (bool_decide_unpack _); vm_compute; exact I.

Lemma calculate_income_first_match_witness :
  calculate_income mul_Q float_decimal example_rates
    (booking "Hotel A" "Ostrovok" 1000 "01.03.2025" "03.03.2025")
  = inr (Some 850%Q)
  ∧ calculate_income mul_Q float_decimal example_rates
      (booking "Hotel A" "Avito" 1000 "01.03.2025" "03.03.2025")
    = inr (Some 900%Q)
  ∧ calculate_income mul_Q float_decimal example_rates
      (booking "Hotel A" "Direct" 1000 "01.03.2025" "03.03.2025")
    = inr (Some 1000%Q).
Proof.
  split_and!.
  - apply (proj1 (calculate_income_first_match mul_Q float_decimal example_rates
                    (booking "Hotel A" "Ostrovok" 1000 "01.03.2025" "03.03.2025"))
             [] "0.85" ["Booking.com"; "Ostrovok"] [("0.9", ["Avito"; "Ostrovok"])]
             "Ostrovok" 1000%Q (17 # 20)%Q).
    + reflexivity.
    + reflexivity.
    + intros b Hb. by apply elem_of_nil in Hb.
    + by_compute.
    + reflexivity.
    + reflexivity.
  - apply (proj1 (calculate_income_first_match mul_Q float_decimal example_rates
                    (booking "Hotel A" "Avito" 1000 "01.03.2025" "03.03.2025"))
             [("0.85", ["Booking.com"; "Ostrovok"])] "0.9" ["Avito"; "Ostrovok"] []
             "Avito" 1000%Q (9 # 10)%Q).
    + reflexivity.
    + reflexivity.
    + intros b Hb. apply list_elem_of_singleton in Hb. subst b. by_compute.
    + by_compute.
    + reflexivity.
    + reflexivity.
  - apply (proj2 (calculate_income_first_match mul_Q float_decimal example_rates
                    (booking "Hotel A" "Direct" 1000 "01.03.2025" "03.03.2025"))).
    intros b source Hb [= <-]. revert b Hb.
    apply (proj1 (list.Forall_forall _ _)). by_compute.
Defined.

Lemma analyze_stay_days_current_period_witness :
  ∃ l w' out,
    analyze_stay_days sum_Q 4 example_world = (inr l, w')
    ∧ heap w' !! l = Some out
    ∧ NoDup ((λ row, (Объект row, Месяц row)) <$> rows out)
    ∧ ∀ row, row ∈ rows out → Месяц row = Some 662.
Proof.
  assert (heap example_world !! 4%positive = Some example_normalized) as H1
    by (vm_compute; reflexivity).
  assert (∀ col, col ∈ summary_columns → col ∈ columns example_normalized) as H2
    by (apply (proj1 (list.Forall_forall _ _)); by_compute).
  assert (1000 ≤ year (clock example_world) ≤ 9999) as H3 by (simpl; lia).
  assert (1 ≤ month (clock example_world) ≤ 12) as H4 by (simpl; lia).
  destruct (analyze_stay_days_current_period sum_Q 4 example_normalized
              example_world H1 H2 H3 H4)
    as (l & w' & out & Hrun & Hout & Hrows & _ & Hnodup & _).
  exists l, w', out. split_and!; try done.
  intros row Hrow. by apply Hrows in Hrow as [H _].
Defined.

Lemma normalize_data_valid_rows_witness :
  ∃ out,
    heap (normalize_data mul_Q float_decimal example_rates parse_dmy 1
            example_world).2 !! 8%positive = Some out
    ∧ ∀ r, r ∈ rows out →
        ∃ a b, Заезд r = Ts a ∧ Выезд r = Ts b
               ∧ isna (Заезд r) = false ∧ isna (Выезд r) = false
               ∧ Дни_проживания r = Some (timedelta_days b a)
               ∧ 0 < timedelta_days b a.
Proof.
  apply (normalize_data_valid_rows mul_Q float_decimal example_rates parse_dmy
           1 example_frame example_world 8).
  - vm_compute; reflexivity.
  - vm_compute; reflexivity.
Defined.

Lemma normalize_data_schema_check_witness :
  normalize_data mul_Q float_decimal example_rates parse_dmy 2 example_world
  = (inl (ValueError_columns ["Заезд"; "Выезд"]), example_world).
Proof.
  assert (heap example_world !! 2%positive = Some example_frame_without_dates)
    as H1 by (vm_compute; reflexivity).
  apply (proj1 (proj2 (normalize_data_schema_check mul_Q float_decimal
                         example_rates parse_dmy 2 example_frame_without_dates
                         example_world H1))).
  exists "Заезд". split; by_compute.
Defined.

Lemma normalize_data_sorted_witness :
  ∃ out,
    heap (normalize_data mul_Q float_decimal example_rates parse_dmy 1
            example_world).2 !! 8%positive = Some out
    ∧ ∀ i r1 r2, rows out !! i = Some r1 → rows out !! S i = Some r2 →
        String.leb (Объект r1) (Объект r2) = true
        ∧ (Объект r1 = Объект r2 →
           ∃ a1 a2, Заезд r1 = Ts a1 ∧ Заезд r2 = Ts a2 ∧ a1 ≤ a2).
Proof.
  assert (heap example_world !! 1%positive = Some example_frame) as H1
    by (vm_compute; reflexivity).
  assert (normalize_data mul_Q float_decimal example_rates parse_dmy 1
            example_world
          = (inr 8%positive,
             (normalize_data mul_Q float_decimal example_rates parse_dmy 1
                example_world).2)) as H2 by (vm_compute; reflexivity).
  destruct (normalize_data_sorted mul_Q float_decimal example_rates parse_dmy
              1 example_frame example_world 8 _ H1 H2)
    as (out & Hout & Hsorted & _).
  exists out. by split.
Defined.





Lemma save2xlsx_leaves_argument_witness :
  heap (save2xlsx workbook_exists workbook_write 4 "Hotel/A" "out.xlsx" mode_a
          example_world).2 !! 4%positive
  = Some example_normalized.
Proof.
  assert (heap example_world !! 4%positive = Some example_normalized) as H1
    by (vm_compute; reflexivity).
  apply (proj1 (save2xlsx_leaves_argument workbook_exists workbook_write 4
                  example_normalized example_world "Hotel/A" "out.xlsx" mode_a
                  H1 _ _ (surjective_pairing _))).
Defined.

(** ** The pipeline on the example data *)

(** The day comes first: "05.03.2025" is the fifth of March. *)
Example parse_dmy_day_first :
  (λ t, civil_from_days (date_of_timestamp t)) <$> parse_dmy "05.03.2025"
  = Some (2025, 3, 5)
  ∧ parse_dmy "31.02.2025" = None.
Proof. split; vm_compute; reflexivity. Qed.

(** A booking of 1000 through a source with rate 0.85, from the first to
    the third of March 2025: income 850, two days, period 2025-03. *)
Example normalized_row_booking :
  normalized_row mul_Q float_decimal [("0.85", ["Booking.com"])] parse_dmy
    (booking "Hotel A" "Booking.com" 1000 "01.03.2025" "03.03.2025")
  = mkRow "Hotel A" (Some "Booking.com") (Some 1000%Q)
      (Ts (days_from_civil 2025 3 1 * day_ns))
      (Ts (days_from_civil 2025 3 3 * day_ns))
      (Some 850%Q) (Some (month_ordinal 2025 3)) (Some 2).
Proof. vm_compute. reflexivity. Qed.

(** Normalization of [example_frame]: one row has a date that does not
    parse (one warning), one has a stay of no day (no warning); the other
    four come out sorted.  The argument frame itself is left with the
    income column and the parsed dates, and with all its rows. *)
Example normalize_data_example :
  let run := normalize_data mul_Q float_decimal example_rates parse_dmy 1
               example_world in
  run.1 = inr 8%positive
  ∧ heap run.2 !! 8%positive = Some example_normalized
  ∧ log run.2 = [warning_skipped 1]
  ∧ (columns <$> heap run.2 !! 1%positive)
    = Some ["Объект"; "Источник"; "Сумма"; "Заезд"; "Выезд"; "Доход"]
  ∧ (λ f, List.length (rows f)) <$> heap run.2 !! 1%positive = Some 6%nat.
Proof. vm_compute. repeat split; reflexivity. Qed.

(** The summary of [example_normalized] on 14 March 2025: the February
    booking of Hotel A is left out. *)
Example analyze_stay_days_example :
  let run := analyze_stay_days sum_Q 4 example_world in
  run.1 = inr 8%positive
  ∧ heap run.2 !! 8%positive
    = Some (mkFrame ["Объект"; "Месяц"; "Дни_проживания"; "Доход"]
              [ mkRow "Hotel A" None None NaT NaT (Some 1030%Q) (Some 662) (Some 4);
                mkRow "Hotel B" None None NaT NaT (Some 450%Q) (Some 662) (Some 2) ]).
Proof. vm_compute. split; reflexivity. Qed.

(** Writing a sheet in append mode to a file that is not there: the sheet is
    written to a new workbook under the name with "." for "/", with calendar
    dates, and the argument frame keeps its timestamps. *)
Example save2xlsx_example :
  let run := save2xlsx workbook_exists workbook_write 4 "Hotel/A" "out.xlsx"
               mode_a example_world in
  run.1 = inr tt
  ∧ (files run.2 : gmap string (list (string * Frame Q))) !! "out.xlsx"
    = Some [("Hotel.A", written_frame example_normalized)]
  ∧ Заезд <$> rows (written_frame example_normalized)
    = [Day 20139; Day 20148; Day 20149; Day 20157]
  ∧ log run.2 = [print_logic_violated "Hotel/A"; print_saved "Hotel/A"]
  ∧ heap run.2 !! 4%positive = Some example_normalized.
Proof. vm_compute. repeat split; reflexivity. Qed.

(** A frame whose date columns hold text cannot be written: [.dt] fails
    before the file is touched. *)
Example save2xlsx_text_dates :
  let run := save2xlsx workbook_exists workbook_write 1 "Hotel/A" "out.xlsx"
               mode_a example_world in
  run.1 = inl (AttributeError_dt "Заезд")
  ∧ files run.2 = files example_world ∧ log run.2 = [].
Proof. vm_compute. repeat split; reflexivity. Qed.

(** * More of the module

    The rest of [main_file_analyzer.py] (the loader, the self-test and the
    run of the whole pipeline), and further properties of the functions
    above: how they fail, what they leave alone and how they compose. *)

(** ** Texts and names of the main block *)

(** What a run can raise: the errors of the pipeline, and those of the
    loader and of the self-test. *)
Inductive exception :=
  | Raised (e : error)                  (* one of the pipeline above *)
  | FileNotFoundError (path : string)   (* "Файл не найден: ..." *)
  | ReadError                           (* Exception("Ошибка при чтении Excel-файла: ...") *)
  | AssertionError                      (* a failed assert *)
  | IndexError.                         (* .iloc[0] on a column without rows *)

Definition start_file : string := "Для Анализа.xlsx".
Definition result_file : string := "Список Бронирований.xlsx".

(** [s.split('.')[0]]. *)
Definition before_dot (s : string) : string :=
  match split_on "." s with
  | x :: _ => x
  | [] => ""
  end.

(** [Series.unique()]: the distinct values, in order of first appearance. *)
Fixpoint unique (l : list string) : list string :=
  match l with
  | [] => []
  | x :: l' => x :: filter (λ y, y ≠ x) (unique l')
  end.

(** The order of [sorted] on texts. *)
Definition string_le (a b : string) : bool :=
  match String.compare a b with Gt => false | _ => true end.

Definition sorted (l : list string) : list string := sort_by string_le l.

(** *** Lists *)

Lemma fmap_fixed {A} (g : A → A) (l : list A) :
  (∀ x, x ∈ l → g x = x) → g <$> l = l.
Proof.
  induction l as [|x l IH]; csimpl; intros Hg; [done|].
  rewrite Hg by left. rewrite IH; [done|]. intros y Hy. apply Hg. by right.
Qed.

Lemma filter_all {A} (P : A → Prop) `{!∀ x, Decision (P x)} (l : list A) :
  (∀ x, x ∈ l → P x) → filter P l = l.
Proof.
  induction l as [|x l IH]; intros HP; [done|].
  rewrite filter_cons_True by (apply HP; left).
  rewrite IH; [done|]. intros y Hy. apply HP. by right.
Qed.

(** *** The order of the sheets *)

Lemma string_le_iff a b :
  string_le a b = true ↔ a = b ∨ String.compare a b = Lt.
Proof.
  unfold string_le. destruct (String.compare a b) eqn:Hc.
  - apply string_compare_Eq in Hc. tauto.
  - tauto.
  - split; [done|]. intros [->|?]; [|done].
    by rewrite string_compare_refl in Hc.
Qed.

Lemma string_le_total a b : string_le a b = true ∨ string_le b a = true.
Proof.
  unfold string_le. rewrite (String.compare_antisym b a).
  destruct (String.compare a b); simpl; auto.
Qed.

Lemma string_lt_ne a b : String.compare a b = Lt → a ≠ b.
Proof. intros Hlt ->. by rewrite string_compare_refl in Hlt. Qed.

Lemma string_le_trans a b c :
  string_le a b = true → string_le b c = true → string_le a c = true.
Proof.
  rewrite !string_le_iff. intros [->|Hab] [->|Hbc]; auto.
  right. by eapply string_compare_Lt_trans.
Qed.

Lemma elem_of_unique x l : x ∈ unique l ↔ x ∈ l.
Proof.
  induction l as [|y l IH]; simpl; [done|].
  rewrite !elem_of_cons, list_elem_of_filter, IH.
  destruct (decide (x = y)); tauto.
Qed.

Lemma NoDup_unique l : NoDup (unique l).
Proof.
  induction l as [|y l IH]; simpl; [constructor|].
  apply NoDup_cons. split; [|by apply NoDup_filter].
  rewrite list_elem_of_filter. tauto.
Qed.

Lemma elem_of_sorted_unique x l : x ∈ sorted (unique l) ↔ x ∈ l.
Proof. unfold sorted. by rewrite sort_by_perm, elem_of_unique. Qed.

Lemma sorted_unique_strict l :
  StronglySorted (λ a b, String.compare a b = Lt) (sorted (unique l)).
Proof.
  assert (NoDup (sorted (unique l))) as Hnd.
  { unfold sorted. rewrite sort_by_perm. apply NoDup_unique. }
  assert (StronglySorted (λ a b, string_le a b = true) (sorted (unique l)))
    as Hs.
  { apply (@Sorted_StronglySorted _ _ string_le_trans).
    apply sort_by_Sorted, string_le_total. }
  induction Hs as [|a os Hs IH Ha]; [constructor|].
  apply NoDup_cons in Hnd as [Hin Hnd].
  constructor; [by apply IH|].
  rewrite list.Forall_forall in *. intros b Hb.
  destruct (proj1 (string_le_iff a b) (Ha b Hb)) as [->|]; done.
Qed.

(** *** The header of a normalized table *)

Lemma add_column_new c (cols : list string) :
  c ∉ cols → add_column c cols = (cols ++ [c])%list.
Proof. intros. unfold add_column. by rewrite bool_decide_eq_false_2. Qed.

Lemma normalized_columns_header (cols : list string) :
  "Заезд" ∈ cols → "Выезд" ∈ cols →
  normalized_columns cols =
    (cols ++ filter (λ c, c ∉ cols) ["Доход"; "Месяц"; "Дни_проживания"])%list
  ∧ parsed_columns cols = (cols ++ filter (λ c, c ∉ cols) ["Доход"])%list.
Proof.
  intros Ha Hd. unfold normalized_columns, parsed_columns.
  assert (∀ ext, add_column "Выезд" (add_column "Заезд" (cols ++ ext))
                 = (cols ++ ext)%list) as Hdates.
  { intros ext. rewrite (add_column_present "Заезд"), add_column_present;
      [done|apply elem_of_app; by left..]. }
  assert (∀ c ext, c ∉ ext → c ∈ (cols ++ ext)%list ↔ c ∈ cols) as Hin.
  { intros c ext Hc. rewrite elem_of_app. split; [by intros [?|?]|by left]. }
  assert (∀ (c : string) l, c ∈ cols →
            filter (λ c, c ∉ cols) (c :: l) = filter (λ c, c ∉ cols) l) as Hold.
  { intros c l Hc. apply filter_cons_False. by intros []. }
  assert (∀ (c : string) l, c ∉ cols →
            filter (λ c, c ∉ cols) (c :: l) = c :: filter (λ c, c ∉ cols) l)
    as Hnew.
  { intros c l Hc. by apply filter_cons_True. }
  assert (add_column "Доход" cols
          = (cols ++ filter (λ c, c ∉ cols) ["Доход"])%list) as H1.
  { destruct (decide ("Доход" ∈ cols)).
    - rewrite add_column_present, Hold, filter_nil, app_nil_r; done.
    - rewrite add_column_new, Hnew, filter_nil; done. }
  rewrite H1, Hdates. split; [|done].
  set (e1 := filter (λ c, c ∉ cols) ["Доход"]).
  assert (("Месяц" ∉ e1) ∧ ("Дни_проживания" ∉ e1)) as [Hm1 Hn1].
  { split; intros [_ Hc]%list_elem_of_filter;
      by apply list_elem_of_singleton in Hc. }
  assert (add_column "Месяц" (cols ++ e1)
          = (cols ++ e1 ++ filter (λ c, c ∉ cols) ["Месяц"])%list) as H2.
  { destruct (decide ("Месяц" ∈ cols)).
    - rewrite add_column_present, Hold, filter_nil, app_nil_r;
        [done|done|by apply Hin].
    - rewrite add_column_new, Hnew, filter_nil, <- app_assoc;
        [done|done|by rewrite Hin]. }
  rewrite H2.
  set (e2 := (e1 ++ filter (λ c, c ∉ cols) ["Месяц"])%list).
  assert ("Дни_проживания" ∉ e2) as Hn2.
  { intros [?|[_ Hc]%list_elem_of_filter]%elem_of_app; [done|].
    by apply list_elem_of_singleton in Hc. }
  assert (filter (λ c, c ∉ cols) ["Доход"; "Месяц"; "Дни_проживания"]
          = (e2 ++ filter (λ c, c ∉ cols) ["Дни_проживания"])%list) as ->.
  { change ["Доход"; "Месяц"; "Дни_проживания"]
      with (["Доход"] ++ ["Месяц"] ++ ["Дни_проживания"])%list.
    by rewrite !filter_app, app_assoc. }
  destruct (decide ("Дни_проживания" ∈ cols)).
  - rewrite add_column_present, Hold, filter_nil, app_nil_r;
      [done|done|by apply Hin].
  - rewrite add_column_new, Hnew, filter_nil, <- app_assoc;
      [done|done|by rewrite Hin].
Qed.

Section Blocks.
Context {num : Type}.

Lemma split_by_key (l : list (Row num)) o :
  StronglySorted (λ r1 r2, string_le (Объект r1) (Объект r2) = true) l →
  (∀ r, r ∈ l → string_le o (Объект r) = true) →
  l = (filter (λ r, Объект r = o) l ++ filter (λ r, Объект r ≠ o) l)%list.
Proof.
  induction 1 as [|r l Hs IH Hr]; intros Ho; [done|].
  rewrite !filter_cons.
  destruct (decide (Объект r = o)) as [Heq|Hne].
  - rewrite decide_False by tauto. simpl. f_equal. apply IH.
    intros r' Hr'. apply Ho. by right.
  - rewrite decide_True by done.
    assert (∀ r', r' ∈ l → Объект r' ≠ o) as Hall.
    { rewrite list.Forall_forall in Hr. intros r' Hr' Heq.
      specialize (Hr r' Hr'). rewrite Heq in Hr.
      assert (string_le o (Объект r) = true) as Hor by (apply Ho; left).
      apply string_le_iff in Hr as [?|Hlt]; [done|].
      apply string_le_iff in Hor as [?|Hlt']; [done|].
      pose proof (string_compare_Lt_trans _ _ _ Hlt Hlt') as Hrr.
      by rewrite string_compare_refl in Hrr. }
    rewrite (filter_none (λ r, Объект r = o)) by done.
    by rewrite (filter_all (λ r, Объект r ≠ o)).
Qed.

Lemma concat_by_key os (l : list (Row num)) :
  StronglySorted (λ a b, String.compare a b = Lt) os →
  StronglySorted (λ r1 r2, string_le (Объект r1) (Объект r2) = true) l →
  (∀ r, r ∈ l → Объект r ∈ os) →
  List.concat ((λ o, filter (λ r, Объект r = o) l) <$> os) = l.
Proof.
  intros Hos. revert l.
  induction Hos as [|o os Hos IH Ho]; intros l Hl Hcover; csimpl.
  { destruct l as [|r l]; [done|].
    specialize (Hcover r). rewrite elem_of_nil in Hcover.
    destruct Hcover. left. }
  rewrite list.Forall_forall in Ho.
  assert (l = (filter (λ r, Объект r = o) l
               ++ filter (λ r, Объект r ≠ o) l)%list) as Hsplit.
  { apply split_by_key; [done|]. intros r Hr. apply string_le_iff.
    specialize (Hcover r Hr). apply elem_of_cons in Hcover as [->|Hin]; auto. }
  etrans; [|symmetry; exact Hsplit]. simpl. f_equal.
  etrans; [|apply (IH (filter (λ r, Объект r ≠ o) l))].
  - f_equal. apply list_fmap_ext. intros i o' Hi.
    apply list_elem_of_lookup_2 in Hi.
    rewrite list_filter_filter. apply list_filter_iff. intros r.
    split; [|tauto]. intros ->. split; [done|].
    intros ->. by apply (string_lt_ne _ _ (Ho _ Hi)).
  - by apply StronglySorted_filter.
  - intros r [Hne Hr]%list_elem_of_filter.
    specialize (Hcover r Hr). by apply elem_of_cons in Hcover as [?|Hin].
Qed.

End Blocks.

(** ** The pipeline, continued *)


Section Program.
Context {num FS : Type}.

Variable fmul : num → num → num.
Variable column_sum : list num → num.
Variable float : string → option num.
Variable COMMISSION_RATES : list (string * list string).
Variable parse_datetime : string → option Z.
Variable path_exists : FS → string → bool.
Variable ExcelWriter : FS → string → open_mode → string → Frame num → FS * bool.

(** ** Income *)

Lemma income_loop_only_match items (b : string * list string) (row : Row num) :
  b ∈ items →
  source_in (Источник row) b.2 = true →
  (∀ b', b' ∈ items → source_in (Источник row) b'.2 = true → b' = b) →
  income_loop fmul float items row =
    match float b.1 with
    | Some rate => inr ((λ a, fmul a rate) <$> Сумма row)
    | None => inl (ValueError_float b.1)
    end.
Proof.
  intros Hb Hin Honly.
  destruct (list_elem_of_split_l items b Hb) as (pre & post & -> & Hpre).
  destruct b as [k v]. apply income_loop_first_match; [|done].
  intros b' Hb'. destruct (source_in (Источник row) b'.2) eqn:Hs; [|done].
  destruct Hpre. rewrite <- (Honly b'); [done| |done].
  apply elem_of_app. by left.
Qed.

(** X1.  When no source is listed in two buckets, the income of a row does
    not depend on the order in which the rate table is iterated. *)
Theorem calculate_income_order_irrelevant rates rates' (row : Row num) :
  rates ≡ₚ rates' →
  (∀ b1 b2 source, b1 ∈ rates → b2 ∈ rates → Источник row = Some source →
     source ∈ b1.2 → source ∈ b2.2 → b1 = b2) →
  calculate_income fmul float rates row = calculate_income fmul float rates' row.
Proof.
  intros Hperm Hdisj. unfold calculate_income.
  assert (∀ b1 b2, b1 ∈ rates → b2 ∈ rates →
            source_in (Источник row) b1.2 = true →
            source_in (Источник row) b2.2 = true → b1 = b2) as Hone.
  { intros b1 b2 H1 H2. destruct (Источник row) as [s|]; [|done].
    rewrite !source_in_Some. by apply Hdisj. }
  destruct (decide (Exists (λ b, source_in (Источник row) b.2 = true) rates))
    as [Hex|Hno].
  - apply Exists_exists in Hex as (b & Hb & Hin).
    rewrite (income_loop_only_match rates b), (income_loop_only_match rates' b);
      try done.
    + by rewrite <- Hperm.
    + intros b'. rewrite <- Hperm. intros Hb' Hin'. by apply Hone.
    + intros b' Hb' Hin'. by apply Hone.
  - rewrite !income_loop_no_match; [done| |].
    + intros b. rewrite <- Hperm. intros Hb.
      destruct (source_in (Источник row) b.2) eqn:Hs; [|done].
      destruct Hno. apply Exists_exists. eauto.
    + intros b Hb. destruct (source_in (Источник row) b.2) eqn:Hs; [|done].
      destruct Hno. apply Exists_exists. eauto.
Qed.

(** From here on the pipeline is the one at the parameters above. *)
Local Abbreviation calculate_income :=
  (calculate_income fmul float COMMISSION_RATES).
Local Abbreviation apply_calculate_income :=
  (apply_calculate_income fmul float COMMISSION_RATES).
Local Abbreviation income_of := (income_of fmul float COMMISSION_RATES).
Local Abbreviation to_datetime := (to_datetime parse_datetime).
Local Abbreviation parsed_row :=
  (parsed_row fmul float COMMISSION_RATES parse_datetime).
Local Abbreviation normalized_row :=
  (normalized_row fmul float COMMISSION_RATES parse_datetime).
Local Abbreviation normalize_rows :=
  (normalize_rows fmul float COMMISSION_RATES parse_datetime).
Local Abbreviation normalize_data :=
  (normalize_data fmul float COMMISSION_RATES parse_datetime).
Local Abbreviation analyze_stay_days := (analyze_stay_days column_sum).
Local Abbreviation save2xlsx := (save2xlsx path_exists ExcelWriter).


(** ** Steps on the heap *)

Ltac step :=
  first
    [ rewrite run_ret
    | rewrite run_emit
    | rewrite run_alloc
    | erewrite run_deref by (simpl; first [eassumption | apply lookup_insert_eq])
    | erewrite run_update by (simpl; first [eassumption | apply lookup_insert_eq]) ];
  simpl.

Lemma run_deref_dangling {B} l (k : Frame num → M B) (w : World num FS) :
  heap w !! l = None → bind (deref l) k w = (inl NameError, w).
Proof. intros H. unfold bind, deref. by rewrite H. Qed.

Lemma run_need_column_dangling {B} c l (k : unit → M B) (w : World num FS) :
  heap w !! l = None → bind (need_column c l) k w = (inl NameError, w).
Proof. intros H. unfold need_column, bind, deref. by rewrite H. Qed.

Lemma run_need_column_missing {B} c l f (k : unit → M B) (w : World num FS) :
  heap w !! l = Some f → c ∉ columns f →
  bind (need_column c l) k w = (inl (KeyError c), w).
Proof.
  intros H Hc. unfold need_column, bind, deref. rewrite H.
  by rewrite bool_decide_eq_false_2.
Qed.

(** ** The income column *)


Lemma apply_calculate_income_inr rs xs :
  apply_calculate_income rs = inr xs →
  ∀ r, r ∈ rs → calculate_income r = inr (income_of r).
Proof.
  revert xs. induction rs as [|r rs IH]; simpl; intros xs Hxs r' Hr'.
  { by apply elem_of_nil in Hr'. }
  destruct (calculate_income r) as [e'|x] eqn:Hr; [done|].
  destruct (apply_calculate_income rs) as [e'|xs'] eqn:Hrs; [done|].
  apply elem_of_cons in Hr' as [->|Hr'].
  - unfold income_of. by rewrite Hr.
  - by apply (IH xs').
Qed.

Lemma apply_calculate_income_all rs :
  (∀ r, r ∈ rs → ∃ x, calculate_income r = inr x) →
  ∃ xs, apply_calculate_income rs = inr xs.
Proof.
  induction rs as [|r rs IH]; simpl; intros Hall; [by eexists|].
  destruct (Hall r) as [x ->]; [left|].
  destruct IH as [xs ->]; [|by eexists].
  intros r' Hr'. apply Hall. by right.
Qed.

Lemma income_loop_ext items (r1 r2 : Row num) :
  Источник r1 = Источник r2 → Сумма r1 = Сумма r2 →
  income_loop fmul float items r1 = income_loop fmul float items r2.
Proof.
  intros Hs Ha. induction items as [|[k v] items IH]; simpl.
  - by rewrite Ha.
  - by rewrite Hs, Ha, IH.
Qed.

Lemma income_of_ext (r1 r2 : Row num) :
  Источник r1 = Источник r2 → Сумма r1 = Сумма r2 →
  income_of r1 = income_of r2.
Proof.
  intros Hs Ha. unfold income_of, calculate_income.
  by rewrite (income_loop_ext _ r1 r2).
Qed.

(** ** The normalizer *)



Lemma normalize_data_dangling df (w : World num FS) :
  heap w !! df = None → normalize_data df w = (inl NameError, w).
Proof. intros H. unfold normalize_data. by rewrite run_deref_dangling. Qed.

(** A call that raises has changed nothing. *)
Lemma normalize_data_inl df (w : World num FS) e w' :
  normalize_data df w = (inl e, w') →
  w' = w ∧ e ≠ IOError.
Proof.
  intros Hrun. destruct (heap w !! df) as [f|] eqn:Hf; cycle 1.
  { rewrite normalize_data_dangling in Hrun by done. by injection Hrun as <- <-. }
  destruct (decide (filter (λ col, col ∉ columns f) REQUIRED_COLUMNS = []))
    as [Hmiss|Hmiss]; cycle 1.
  { rewrite (normalize_data_missing _ _ _ _ _ _ _ Hf Hmiss) in Hrun.
    by injection Hrun as <- <-. }
  destruct (apply_calculate_income (rows f)) as [e'|incomes] eqn:Hinc.
  - rewrite (normalize_data_apply_error _ _ _ _ _ _ _ _ Hf Hmiss Hinc) in Hrun.
    injection Hrun as <- <-. split; [done|].
    by apply apply_calculate_income_error in Hinc as [s ->].
  - destruct (normalize_data_run fmul float COMMISSION_RATES parse_datetime
                _ _ w Hf Hmiss _ Hinc) as (l & w0 & Hrun0 & _).
    by rewrite Hrun0 in Hrun.
Qed.


Lemma normalize_data_income_ok df f (w : World num FS) l w' :
  heap w !! df = Some f →
  normalize_data df w = (inr l, w') →
  ∀ r, r ∈ rows f → calculate_income r = inr (income_of r).
Proof.
  intros Hf Hrun.
  destruct (normalize_data_returns _ _ _ _ _ _ _ _ _ Hf Hrun) as (Hmiss & _).
  destruct (apply_calculate_income (rows f)) as [e'|incomes] eqn:Hinc.
  - by rewrite (normalize_data_apply_error _ _ _ _ _ _ _ _ Hf Hmiss Hinc) in Hrun.
  - by eapply apply_calculate_income_inr.
Qed.




(** *** Normalizing again *)

Lemma to_datetime_idem c : to_datetime (to_datetime c) = to_datetime c.
Proof.
  destruct c as [s| | |]; simpl; try done. by destruct (parse_datetime s).
Qed.

Lemma Row_ext (r1 r2 : Row num) :
  Объект r1 = Объект r2 → Источник r1 = Источник r2 → Сумма r1 = Сумма r2 →
  Заезд r1 = Заезд r2 → Выезд r1 = Выезд r2 → Доход r1 = Доход r2 →
  Месяц r1 = Месяц r2 → Дни_проживания r1 = Дни_проживания r2 →
  r1 = r2.
Proof. destruct r1, r2. simpl. congruence. Qed.

Lemma parsed_row_fields (r : Row num) :
  Объект (parsed_row r) = Объект r
  ∧ Источник (parsed_row r) = Источник r
  ∧ Сумма (parsed_row r) = Сумма r
  ∧ Заезд (parsed_row r) = to_datetime (Заезд r)
  ∧ Выезд (parsed_row r) = to_datetime (Выезд r)
  ∧ Доход (parsed_row r) = income_of r
  ∧ Месяц (parsed_row r) = Месяц r
  ∧ Дни_проживания (parsed_row r) = Дни_проживания r.
Proof. repeat split. Qed.

Lemma normalized_row_fields (r : Row num) :
  Объект (normalized_row r) = Объект r
  ∧ Источник (normalized_row r) = Источник r
  ∧ Сумма (normalized_row r) = Сумма r
  ∧ Заезд (normalized_row r) = to_datetime (Заезд r)
  ∧ Выезд (normalized_row r) = to_datetime (Выезд r)
  ∧ Доход (normalized_row r) = income_of r
  ∧ Месяц (normalized_row r) = to_period (to_datetime (Заезд r))
  ∧ Дни_проживания (normalized_row r) =
      match to_datetime (Выезд r), to_datetime (Заезд r) with
      | Ts b, Ts a => Some (timedelta_days b a)
      | _, _ => None
      end.
Proof. repeat split. Qed.

Lemma parsed_row_idem (r : Row num) : parsed_row (parsed_row r) = parsed_row r.
Proof.
  destruct (parsed_row_fields r) as (H1 & H2 & H3 & H4 & H5 & H6 & H7 & H8).
  destruct (parsed_row_fields (parsed_row r))
    as (G1 & G2 & G3 & G4 & G5 & G6 & G7 & G8).
  apply Row_ext; try done.
  - by rewrite G4, H4, to_datetime_idem.
  - by rewrite G5, H5, to_datetime_idem.
  - rewrite G6, H6. by apply income_of_ext.
Qed.

Lemma normalized_row_parsed (r : Row num) :
  normalized_row (parsed_row r) = normalized_row r.
Proof.
  destruct (parsed_row_fields r) as (H1 & H2 & H3 & H4 & H5 & H6 & H7 & H8).
  destruct (normalized_row_fields r)
    as (N1 & N2 & N3 & N4 & N5 & N6 & N7 & N8).
  destruct (normalized_row_fields (parsed_row r))
    as (G1 & G2 & G3 & G4 & G5 & G6 & G7 & G8).
  apply Row_ext; try congruence.
  - by rewrite G4, H4, N4, to_datetime_idem.
  - by rewrite G5, H5, N5, to_datetime_idem.
  - rewrite G6, N6. by apply income_of_ext.
  - by rewrite G7, H4, N7, to_datetime_idem.
  - by rewrite G8, H4, H5, N8, !to_datetime_idem.
Qed.

Lemma parsed_row_normalized (r : Row num) :
  parsed_row (normalized_row r) = normalized_row r.
Proof.
  destruct (normalized_row_fields r)
    as (N1 & N2 & N3 & N4 & N5 & N6 & N7 & N8).
  destruct (parsed_row_fields (normalized_row r))
    as (G1 & G2 & G3 & G4 & G5 & G6 & G7 & G8).
  apply Row_ext; try done.
  - by rewrite G4, N4, to_datetime_idem.
  - by rewrite G5, N5, to_datetime_idem.
  - rewrite G6, N6. by apply income_of_ext.
Qed.

Lemma normalized_row_idem (r : Row num) :
  normalized_row (normalized_row r) = normalized_row r.
Proof.
  destruct (normalized_row_fields r)
    as (N1 & N2 & N3 & N4 & N5 & N6 & N7 & N8).
  destruct (normalized_row_fields (normalized_row r))
    as (G1 & G2 & G3 & G4 & G5 & G6 & G7 & G8).
  apply Row_ext; try done.
  - by rewrite G4, N4, to_datetime_idem.
  - by rewrite G5, N5, to_datetime_idem.
  - rewrite G6, N6. by apply income_of_ext.
  - by rewrite G7, N4, N7, to_datetime_idem.
  - by rewrite G8, N4, N5, N8, !to_datetime_idem.
Qed.

Lemma normalize_rows_parsed (rs : list (Row num)) :
  normalize_rows (parsed_row <$> rs) = normalize_rows rs.
Proof.
  rewrite !normalize_rows_alt, <- list_fmap_compose. do 3 f_equal.
  apply list_fmap_ext. intros i r _. apply normalized_row_parsed.
Qed.

Lemma normalize_rows_idem (rs : list (Row num)) :
  normalize_rows (normalize_rows rs) = normalize_rows rs.
Proof.
  set (out := normalize_rows rs).
  assert (∀ r', r' ∈ out →
            normalized_row r' = r' ∧ invalid_dates r' = false
            ∧ positive_days r' = true) as Hout.
  { intros r' (r & _ & -> & Hv & Hp)%elem_of_normalize_rows.
    by rewrite normalized_row_idem. }
  rewrite normalize_rows_alt.
  rewrite (fmap_fixed normalized_row) by (intros; by apply Hout).
  rewrite (filter_all (λ r, invalid_dates r = false)) by (intros; by apply Hout).
  rewrite sort_by_sorted by apply normalize_rows_Sorted.
  apply filter_all. intros. by apply Hout.
Qed.

Lemma parsed_rows_normalize_rows (rs : list (Row num)) :
  parsed_row <$> normalize_rows rs = normalize_rows rs.
Proof.
  apply fmap_fixed.
  intros r' (r & _ & -> & _)%elem_of_normalize_rows.
  apply parsed_row_normalized.
Qed.

Lemma elem_of_add_column_self c (cols : list string) : c ∈ add_column c cols.
Proof.
  unfold add_column. case_bool_decide; [done|]. apply elem_of_app. right. left.
Qed.

Lemma parsed_columns_idem cols :
  parsed_columns (parsed_columns cols) = parsed_columns cols.
Proof.
  unfold parsed_columns.
  rewrite (add_column_present "Доход")
    by (do 2 apply elem_of_add_column; apply elem_of_add_column_self).
  rewrite (add_column_present "Заезд")
    by (apply elem_of_add_column, elem_of_add_column_self).
  apply add_column_present, elem_of_add_column_self.
Qed.

Lemma normalized_columns_parsed cols :
  normalized_columns (parsed_columns cols) = normalized_columns cols.
Proof. unfold normalized_columns. by rewrite parsed_columns_idem. Qed.

Lemma parsed_columns_normalized cols :
  parsed_columns (normalized_columns cols) = normalized_columns cols.
Proof.
  unfold normalized_columns, parsed_columns.
  rewrite (add_column_present "Доход")
    by (do 4 apply elem_of_add_column; apply elem_of_add_column_self).
  rewrite (add_column_present "Заезд")
    by (do 3 apply elem_of_add_column; apply elem_of_add_column_self).
  apply add_column_present.
  do 2 apply elem_of_add_column. apply elem_of_add_column_self.
Qed.

Lemma normalized_columns_idem cols :
  normalized_columns (normalized_columns cols) = normalized_columns cols.
Proof.
  unfold normalized_columns at 1. rewrite parsed_columns_normalized.
  rewrite (add_column_present "Месяц")
    by (apply elem_of_add_column, elem_of_add_column_self).
  apply add_column_present, elem_of_add_column_self.
Qed.

Lemma required_after cols (g : list string → list string) :
  (∀ c, c ∈ cols → c ∈ g cols) →
  filter (λ col, col ∉ cols) REQUIRED_COLUMNS = [] →
  filter (λ col, col ∉ g cols) REQUIRED_COLUMNS = [].
Proof.
  intros Hg Hmiss. apply filter_none. intros c Hc Hn. apply Hn, Hg.
  by apply required_present.
Qed.

Lemma no_null_dates_left (rs : list (Row num)) :
  filter (λ r, invalid_dates r = true) (normalize_rows rs) = [].
Proof.
  apply filter_none.
  intros r' (r & _ & -> & Hv & _)%elem_of_normalize_rows. congruence.
Qed.

(** X6.  Normalizing is idempotent: [normalize_data] on its own result
    returns a frame equal to that result, leaves the result as it is, and
    logs nothing. *)
Theorem normalize_data_idempotent df f (w : World num FS) l w' :
  heap w !! df = Some f →
  normalize_data df w = (inr l, w') →
  ∃ out l2 w2,
    heap w' !! l = Some out ∧
    normalize_data l w' = (inr l2, w2) ∧
    heap w2 !! l2 = Some out ∧ heap w2 !! l = Some out ∧
    log w2 = log w' ∧ files w2 = files w'.
Proof.
  intros Hf Hrun.
  destruct (normalize_data_returns _ _ _ _ _ _ _ _ _ Hf Hrun)
    as (Hmiss & Hl & _).
  pose proof (normalize_data_income_ok _ _ _ _ _ Hf Hrun) as Hinc.
  destruct (apply_calculate_income_all (normalize_rows (rows f)))
    as [xs Hxs].
  { intros r' (r & Hr & -> & _)%elem_of_normalize_rows.
    exists (income_of r). rewrite <- (Hinc r Hr).
    unfold calculate_income. by apply income_loop_ext. }
  destruct (normalize_data_run fmul float COMMISSION_RATES parse_datetime
              l _ w' Hl) with (incomes := xs)
    as (l2 & w2 & Hrun2 & Hl2 & Hl' & _ & Hfiles & _ & Hlog); [|done|].
  { simpl. apply (required_after _ normalized_columns); [|done].
    intros c Hc. by do 5 apply elem_of_add_column. }
  simpl in *.
  rewrite normalized_columns_idem, normalize_rows_idem in Hl2.
  rewrite parsed_columns_normalized, parsed_rows_normalize_rows in Hl'.
  rewrite parsed_rows_normalize_rows, no_null_dates_left, app_nil_r in Hlog.
  eexists _, l2, w2. split_and!; done.
Qed.

(** X7.  The argument, which [normalize_data] has updated in place, can be
    normalized again: the second call returns a frame equal to the first
    result and repeats the warning of the first. *)
Theorem normalize_data_again_on_argument df f (w : World num FS) l w' :
  heap w !! df = Some f →
  normalize_data df w = (inr l, w') →
  ∃ out l2 w2,
    heap w' !! l = Some out ∧
    normalize_data df w' = (inr l2, w2) ∧
    heap w2 !! l2 = Some out ∧
    heap w2 !! df = heap w' !! df ∧
    ∃ warning, log w' = (log w ++ warning)%list
               ∧ log w2 = (log w' ++ warning)%list.
Proof.
  intros Hf Hrun.
  destruct (normalize_data_returns _ _ _ _ _ _ _ _ _ Hf Hrun)
    as (Hmiss & Hl & Hdf & _ & _ & _ & Hlog).
  pose proof (normalize_data_income_ok _ _ _ _ _ Hf Hrun) as Hinc.
  destruct (apply_calculate_income_all (parsed_row <$> rows f)) as [xs Hxs].
  { intros r' (r & -> & Hr)%list_elem_of_fmap.
    exists (income_of r). rewrite <- (Hinc r Hr).
    unfold calculate_income. by apply income_loop_ext. }
  destruct (normalize_data_run fmul float COMMISSION_RATES parse_datetime
              df _ w' Hdf) with (incomes := xs)
    as (l2 & w2 & Hrun2 & Hl2 & Hdf2 & _ & _ & _ & Hlog2); [|done|].
  { simpl. apply (required_after _ parsed_columns); [|done].
    intros c Hc. by do 3 apply elem_of_add_column. }
  simpl in *.
  rewrite normalized_columns_parsed, normalize_rows_parsed in Hl2.
  rewrite parsed_columns_idem, <- list_fmap_compose in Hdf2.
  rewrite (list_fmap_ext (parsed_row ∘ parsed_row) parsed_row) in Hdf2
    by (intros; apply parsed_row_idem).
  rewrite <- list_fmap_compose in Hlog2.
  rewrite (list_fmap_ext (parsed_row ∘ parsed_row) parsed_row) in Hlog2
    by (intros; apply parsed_row_idem).
  eexists _, l2, w2. split_and!; try done.
  - by rewrite Hdf, Hdf2.
  - eexists. split; [exact Hlog|exact Hlog2].
Qed.

(** ** The date check *)

(** X8.  [validate_dates] reads the arrival column first: on a frame
    without it the call raises [KeyError] for it, on a frame with it but
    without the departure column for that one; either way nothing is logged
    and no frame is made. *)
Theorem validate_dates_key_error df f (w : World num FS) :
  heap w !! df = Some f →
  ("Заезд" ∉ columns f →
     validate_dates df w = (inl (KeyError "Заезд"), w)) ∧
  ("Заезд" ∈ columns f → "Выезд" ∉ columns f →
     validate_dates df w = (inl (KeyError "Выезд"), w)).
Proof.
  intros Hf. unfold validate_dates. split.
  - intros Ha. by rewrite (run_need_column_missing _ _ f).
  - intros Ha Hd. rewrite (run_need_column _ _ f) by done.
    by rewrite (run_need_column_missing _ _ f).
Qed.

(** X9.  [validate_dates] on its own result drops nothing and logs nothing:
    the second result is equal to the first. *)
Theorem validate_dates_idempotent df f (w : World num FS) l w' :
  heap w !! df = Some f →
  validate_dates df w = (inr l, w') →
  ∃ out l2 w2,
    heap w' !! l = Some out ∧
    validate_dates l w' = (inr l2, w2) ∧
    heap w2 !! l2 = Some out ∧ heap w2 !! l = Some out ∧
    log w2 = log w'.
Proof.
  intros Hf Hrun.
  destruct (decide ("Заезд" ∈ columns f)) as [Ha|Ha]; cycle 1.
  { unfold validate_dates in Hrun.
    by rewrite (run_need_column_missing _ _ f) in Hrun. }
  destruct (decide ("Выезд" ∈ columns f)) as [Hd|Hd]; cycle 1.
  { unfold validate_dates in Hrun.
    rewrite (run_need_column _ _ f) in Hrun by done.
    by rewrite (run_need_column_missing _ _ f) in Hrun. }
  rewrite (validate_dates_run df f w Hf Ha Hd) in Hrun.
  injection Hrun as <- <-.
  set (out := mkFrame (columns f)
                (filter (λ r, invalid_dates r = false) (rows f))).
  set (w' := mkWorld _ _ _ _).
  assert (heap w' !! fresh (dom (heap w)) = Some out) as Hl
    by apply lookup_insert_eq.
  rewrite (validate_dates_run _ out w' Hl Ha Hd).
  exists out. eexists _, _. split_and!; try done.
  - simpl. rewrite lookup_insert_eq. f_equal. unfold out. simpl. f_equal.
    apply filter_all. intros r Hr. by apply list_elem_of_filter in Hr as [? _].
  - simpl. rewrite lookup_insert_ne; [done|]. by eapply fresh_ne.
  - simpl. rewrite (filter_none _ (filter _ (rows f))); [by rewrite app_nil_r|].
    intros r Hr. apply list_elem_of_filter in Hr as [? _]. congruence.
Qed.

(** ** The aggregator *)

(** The aggregator run to its end, for any system date. *)
Lemma analyze_stay_days_returns df f (w : World num FS) :
  heap w !! df = Some f →
  (∀ col, col ∈ summary_columns → col ∈ columns f) →
  ∃ l w',
    analyze_stay_days df w = (inr l, w') ∧
    heap w' !! l =
      Some (mkFrame summary_columns
              (filter (λ r, period_eq (Месяц r)
                              (pretty (year (clock w)) +:+ "-"
                               +:+ pretty (month (clock w))) = true)
                 (summary_row column_sum <$> groupby (rows f)))) ∧
    heap w !! l = None ∧
    (∀ l' f', heap w !! l' = Some f' → heap w' !! l' = Some f') ∧
    files w' = files w ∧ log w' = log w ∧ clock w' = clock w.
Proof.
  intros Hf Hcols. unfold analyze_stay_days.
  rewrite !(run_need_column _ _ f)
    by (try done; apply Hcols, list_elem_of_In; simpl; tauto).
  do 4 step. unfold bind at 1. simpl. step. unfold alloc. simpl.
  eexists _, _. split; [reflexivity|]. simpl.
  set (h1 := <[fresh (dom (heap w)) := _]> (heap w)).
  set (h2 := <[fresh (dom h1) := _]> h1).
  split_and!; try done.
  - rewrite lookup_insert_eq. do 2 f_equal.
    rewrite sort_by_sorted; [done|].
    apply summary_rows_Sorted. by destruct (groupby_groups (rows f)).
  - destruct (heap w !! fresh (dom h2)) as [f'|] eqn:Hl'; [exfalso|done].
    assert (h1 !! fresh (dom h2) = Some f') as H1.
    { unfold h1. rewrite lookup_insert_ne; [done|by eapply fresh_ne]. }
    assert (h2 !! fresh (dom h2) = Some f') as H2.
    { unfold h2. rewrite lookup_insert_ne; [done|by eapply fresh_ne]. }
    by apply fresh_ne in H2.
  - intros l' f' Hl'.
    assert (h1 !! l' = Some f') as H1.
    { unfold h1. rewrite lookup_insert_ne; [done|by eapply fresh_ne]. }
    assert (h2 !! l' = Some f') as H2.
    { unfold h2. rewrite lookup_insert_ne; [done|by eapply fresh_ne]. }
    rewrite lookup_insert_ne; [done|by eapply fresh_ne].
Qed.

Lemma analyze_stay_days_missing df f (w : World num FS) :
  heap w !! df = Some f →
  ¬ (∀ col, col ∈ summary_columns → col ∈ columns f) →
  ∃ col, col ∈ summary_columns ∧ (col ∉ columns f)
         ∧ analyze_stay_days df w = (inl (KeyError col), w).
Proof.
  intros Hf Hmiss. unfold analyze_stay_days.
  destruct (decide ("Объект" ∈ columns f)) as [H1|H1]; cycle 1.
  { exists "Объект". split_and!; [|done|].
    - apply list_elem_of_In. simpl. auto 10.
    - by rewrite (run_need_column_missing _ _ f). }
  rewrite (run_need_column _ _ f) by done.
  destruct (decide ("Месяц" ∈ columns f)) as [H2|H2]; cycle 1.
  { exists "Месяц". split_and!; [|done|].
    - apply list_elem_of_In. simpl. auto 10.
    - by rewrite (run_need_column_missing _ _ f). }
  rewrite (run_need_column _ _ f) by done.
  destruct (decide ("Дни_проживания" ∈ columns f)) as [H3|H3]; cycle 1.
  { exists "Дни_проживания". split_and!; [|done|].
    - apply list_elem_of_In. simpl. auto 10.
    - by rewrite (run_need_column_missing _ _ f). }
  rewrite (run_need_column _ _ f) by done.
  destruct (decide ("Доход" ∈ columns f)) as [H4|H4]; cycle 1.
  { exists "Доход". split_and!; [|done|].
    - apply list_elem_of_In. simpl. auto 10.
    - by rewrite (run_need_column_missing _ _ f). }
  destruct Hmiss. intros col Hcol. apply list_elem_of_In in Hcol. simpl in Hcol.
  by destruct Hcol as [<-|[<-|[<-|[<-|[]]]]].
Qed.

(** X10.  On a frame that lacks a column the summary needs (property,
    period, stay length or income), [analyze_stay_days] raises [KeyError]
    for a column that is missing, before any frame is made. *)
Theorem analyze_stay_days_key_error df f (w : World num FS) :
  heap w !! df = Some f →
  (∃ col, col ∈ summary_columns ∧ col ∉ columns f) →
  ∃ col, col ∈ summary_columns ∧ (col ∉ columns f)
         ∧ analyze_stay_days df w = (inl (KeyError col), w).
Proof.
  intros Hf (col & Hcol & Hn). apply analyze_stay_days_missing; [done|].
  intros Hall. by apply Hn, Hall.
Qed.

(** X11.  [analyze_stay_days] has no side effect, however it ends: the
    files, the log and every frame there was, its argument among them, are
    afterwards what they were; and it raises nothing but [KeyError] or, on
    a reference to no frame, [NameError]. *)
Theorem analyze_stay_days_no_side_effect df (w : World num FS) r w' :
  analyze_stay_days df w = (r, w') →
  files w' = files w ∧ log w' = log w ∧ clock w' = clock w ∧
  (∀ l' f', heap w !! l' = Some f' → heap w' !! l' = Some f') ∧
  match r with
  | inr l => heap w !! l = None ∧ is_Some (heap w' !! l)
  | inl (KeyError col) => col ∈ summary_columns ∧ w' = w
  | inl NameError => heap w !! df = None ∧ w' = w
  | inl _ => False
  end.
Proof.
  intros Hrun. destruct (heap w !! df) as [f|] eqn:Hf; cycle 1.
  { unfold analyze_stay_days in Hrun.
    rewrite run_need_column_dangling in Hrun by done.
    by injection Hrun as <- <-. }
  destruct (decide (Forall (λ col, col ∈ columns f) summary_columns))
    as [Hcols|Hmiss]; rewrite list.Forall_forall in *.
  - destruct (analyze_stay_days_returns df f w Hf Hcols)
      as (l & w0 & Hrun0 & Hl & Hnew & Hframe & Hfiles & Hlog & Hclock).
    rewrite Hrun0 in Hrun. injection Hrun as <- <-.
    split_and!; done.
  - destruct (analyze_stay_days_missing df f w Hf Hmiss)
      as (col & Hcol & _ & Hrun0).
    rewrite Hrun0 in Hrun. by injection Hrun as <- <-.
Qed.

(** *** Stay days are conserved *)




Lemma sum_days_cons (r : Row num) rs :
  sum_days (r :: rs) = sum_days [r] + sum_days rs.
Proof. unfold sum_days. csimpl. destruct (Дни_проживания r); csimpl; lia. Qed.




(** ** Dates for the sheet *)

Lemma normalize_df_dates_cases df (w : World num FS) :
  match heap w !! df with
  | None => normalize_df_dates df w = (inl NameError, w)
  | Some f =>
      let f1 := assign "Заезд" (λ r, set_Заезд (to_date (Заезд r)) r) f in
      let f2 := assign "Выезд" (λ r, set_Выезд (to_date (Выезд r)) r) f1 in
      normalize_df_dates df w =
        if bool_decide ("Заезд" ∈ columns f) then
          if forallb (λ r, is_datetime (Заезд r)) (rows f) then
            if bool_decide ("Выезд" ∈ columns f) then
              if forallb (λ r, is_datetime (Выезд r)) (rows f) then
                (inr df, with_heap (<[df := f2]> (heap w)) w)
              else (inl (AttributeError_dt "Выезд"),
                    with_heap (<[df := f1]> (heap w)) w)
            else (inl (KeyError "Выезд"), with_heap (<[df := f1]> (heap w)) w)
          else (inl (AttributeError_dt "Заезд"), w)
        else (inl (KeyError "Заезд"), w)
  end.
Proof.
  destruct (heap w !! df) as [f|] eqn:Hf; cycle 1.
  { unfold normalize_df_dates. by rewrite run_need_column_dangling. }
  simpl. unfold normalize_df_dates.
  case_bool_decide as Ha; cycle 1.
  { by rewrite (run_need_column_missing _ _ f). }
  rewrite (run_need_column _ _ f) by done. step.
  destruct (forallb (λ r, is_datetime (Заезд r)) (rows f)) eqn:Hdt; cycle 1.
  { done. }
  unfold bind at 1. unfold update at 1. rewrite Hf.
  set (f1 := assign "Заезд" _ f).
  set (w1 := with_heap _ w).
  assert (heap w1 !! df = Some f1) as Hf1 by apply lookup_insert_eq.
  assert (columns f1 = add_column "Заезд" (columns f)) as Hc1 by done.
  case_bool_decide as Hd; cycle 1.
  { rewrite (run_need_column_missing _ _ f1); [done|done|].
    rewrite Hc1, add_column_present by done. done. }
  rewrite (run_need_column _ _ f1);
    [|done|by rewrite Hc1; apply elem_of_add_column].
  step. unfold f1 at 1. simpl.
  rewrite forallb_departure_assign_arrival.
  destruct (forallb (λ r, is_datetime (Выезд r)) (rows f)); [|done].
  step. unfold with_heap, w1. simpl. by rewrite insert_insert_eq.
Qed.

(** X13.  [normalize_df_dates] works in place: a call that returns gives
    back its argument; and however the call ends, no frame is made or
    dropped, no other frame changes, and nothing is written or logged. *)
Theorem normalize_df_dates_in_place df (w : World num FS) r w' :
  normalize_df_dates df w = (r, w') →
  (∀ l, r = inr l → l = df) ∧
  dom (heap w') = dom (heap w) ∧
  (∀ l', l' ≠ df → heap w' !! l' = heap w !! l') ∧
  files w' = files w ∧ log w' = log w ∧ clock w' = clock w.
Proof.
  intros Hrun. pose proof (normalize_df_dates_cases df w) as Hcases.
  destruct (heap w !! df) as [f|] eqn:Hf; cycle 1.
  { rewrite Hcases in Hrun. by injection Hrun as <- <-. }
  simpl in Hcases. rewrite Hcases in Hrun.
  assert (∀ g, dom (<[df := g]> (heap w)) = dom (heap w)) as Hdom.
  { intros g. by apply dom_insert_lookup_L. }
  repeat case_match; injection Hrun as <- <-; simpl;
    (split_and!; [congruence|done|..|done|done|done]);
    try done; intros l' Hl'; by rewrite lookup_insert_ne.
Qed.

(** X14.  [normalize_df_dates] is not all-or-nothing: when the arrival
    column is a datetime column and the departure column is not, the call
    raises for the departure column after the arrival column of the argument
    has become plain dates, and the departure column is as it was. *)
Theorem normalize_df_dates_partial_update df f (w : World num FS) :
  heap w !! df = Some f →
  "Заезд" ∈ columns f → "Выезд" ∈ columns f →
  forallb (λ r, is_datetime (Заезд r)) (rows f) = true →
  forallb (λ r, is_datetime (Выезд r)) (rows f) = false →
  ∃ w' f',
    normalize_df_dates df w = (inl (AttributeError_dt "Выезд"), w') ∧
    heap w' !! df = Some f' ∧
    columns f' = columns f ∧
    Заезд <$> rows f' = to_date <$> (Заезд <$> rows f) ∧
    Выезд <$> rows f' = Выезд <$> rows f ∧
    ∀ r', r' ∈ rows f' → is_datetime (Заезд r') = true → Заезд r' = NaT.
Proof.
  intros Hf Ha Hd Hdta Hdtd.
  rewrite (normalize_df_dates_run df f w Hf Ha Hd). simpl.
  rewrite Hdta, Hdtd. eexists _, _. split; [reflexivity|]. simpl.
  split; [apply lookup_insert_eq|]. simpl. split_and!.
  - by apply add_column_present.
  - rewrite <- !list_fmap_compose. by apply list_fmap_ext.
  - rewrite <- !list_fmap_compose. by apply list_fmap_ext.
  - intros r' (r & -> & Hr)%list_elem_of_fmap. simpl.
    by destruct (Заезд r).
Qed.

Lemma normalize_df_dates_not_datetime df g (w : World num FS) :
  heap w !! df = Some g → "Заезд" ∈ columns g →
  forallb (λ r, is_datetime (Заезд r)) (rows g) = false →
  normalize_df_dates df w = (inl (AttributeError_dt "Заезд"), w).
Proof.
  intros Hg Ha Hdt. pose proof (normalize_df_dates_cases df w) as Hcases.
  rewrite Hg in Hcases. simpl in Hcases.
  by rewrite Hcases, bool_decide_eq_true_2, Hdt.
Qed.

Lemma forallb_false_elem {A} (p : A → bool) (l : list A) x :
  x ∈ l → p x = false → forallb p l = false.
Proof.
  intros Hx Hp. apply not_true_iff_false. intros Hall.
  rewrite forallb_forall in Hall. rewrite Hall in Hp; [done|].
  by apply list_elem_of_In.
Qed.

(** X15.  [normalize_df_dates] cannot be applied twice: once it has turned
    a frame with a non-null arrival into plain dates, a second call on the
    frame raises for the arrival column and changes nothing. *)
Theorem normalize_df_dates_twice df f (w : World num FS) l w' :
  heap w !! df = Some f →
  normalize_df_dates df w = (inr l, w') →
  (∃ r t, r ∈ rows f ∧ Заезд r = Ts t) →
  normalize_df_dates l w' = (inl (AttributeError_dt "Заезд"), w').
Proof.
  intros Hf Hrun (r & t & Hr & Ht).
  pose proof (normalize_df_dates_cases df w) as Hcases.
  rewrite Hf in Hcases. simpl in Hcases. rewrite Hcases in Hrun.
  case_bool_decide as Ha; [|done].
  destruct (forallb (λ r, is_datetime (Заезд r)) (rows f)); [|done].
  case_bool_decide as Hd; [|done].
  destruct (forallb (λ r, is_datetime (Выезд r)) (rows f)); [|done].
  injection Hrun as <- <-.
  eapply normalize_df_dates_not_datetime.
  - simpl. apply lookup_insert_eq.
  - simpl. by do 2 apply elem_of_add_column.
  - simpl. rewrite <- list_fmap_compose.
    eapply forallb_false_elem.
    + apply list_elem_of_fmap. by exists r.
    + simpl. by rewrite Ht.
Qed.

(** ** The writer *)

(** X16.  A frame whose arrival and departure columns are there but are
    not datetime columns is never written: [save2xlsx] raises
    [AttributeError], for the arrival column if that one is not datetime and
    for the departure column otherwise, before the file is looked at; no
    file changes and nothing is printed. *)
Theorem save2xlsx_dates_not_datetime df f (w : World num FS)
    sheet_name file_name mode :
  heap w !! df = Some f →
  "Заезд" ∈ columns f → "Выезд" ∈ columns f →
  datetime_columns f = false →
  ∃ w',
    save2xlsx df sheet_name file_name mode w =
      (inl (AttributeError_dt
              (if forallb (λ r, is_datetime (Заезд r)) (rows f)
               then "Выезд" else "Заезд")), w') ∧
    files w' = files w ∧ log w' = log w ∧ clock w' = clock w.
Proof.
  intros Hf Ha Hd Hdt. unfold save2xlsx. do 2 step.
  rewrite bool_decide_eq_true_2 by done.
  unfold bind at 1.
  erewrite normalize_df_dates_run;
    [| simpl; apply lookup_insert_eq | done | done ].
  unfold datetime_columns in Hdt. simpl.
  destruct (forallb (λ r, is_datetime (Заезд r)) (rows f)); simpl in *.
  - rewrite Hdt. by eexists.
  - by eexists.
Qed.

(** X17.  How a call of [save2xlsx] can end, and what it has printed then:
    a call that returns has printed the line for the sheet last, after at
    most the line about the missing file; a call that raises [IOError] has
    not printed the line for the sheet; a call that raises for the dates or
    for a reference to no frame has printed nothing and changed no file.
    Nothing else is raised. *)
Theorem save2xlsx_outcomes df (w : World num FS) sheet_name file_name mode r w' :
  save2xlsx df sheet_name file_name mode w = (r, w') →
  clock w' = clock w ∧
  match r with
  | inr _ =>
      log w' = (log w ++ [print_saved sheet_name])%list
      ∨ log w' = (log w ++ [print_logic_violated sheet_name;
                             print_saved sheet_name])%list
  | inl IOError =>
      log w' = log w
      ∨ log w' = (log w ++ [print_logic_violated sheet_name])%list
  | inl (AttributeError_dt col) => files w' = files w ∧ log w' = log w
  | inl NameError => heap w !! df = None ∧ w' = w
  | inl _ => False
  end.
Proof.
  intros Hrun. destruct (heap w !! df) as [f|] eqn:Hf; cycle 1.
  { unfold save2xlsx in Hrun. rewrite run_deref_dangling in Hrun by done.
    by injection Hrun as <- <-. }
  destruct (decide ("Заезд" ∈ columns f ∧ "Выезд" ∈ columns f
                    ∧ datetime_columns f = false)) as [(Ha & Hd & Hdt)|Hok].
  - destruct (save2xlsx_attribute_error path_exists ExcelWriter df f w
                sheet_name file_name mode Hf Ha Hd Hdt) as (col & h & Hrun0 & _).
    rewrite Hrun0 in Hrun. by injection Hrun as <- <-.
  - rewrite (save2xlsx_run _ _ _ f) in Hrun; [|done|]; cycle 1.
    { intros Ha Hd. destruct (datetime_columns f); [done|]. by destruct Hok. }
    simpl in Hrun. injection Hrun as <- <-. split; [done|]. simpl.
    unfold fallback_message.
    destruct (ExcelWriter _ _ _ _ _) as [fs [|]]; simpl;
      destruct (bool_decide (mode = mode_a) && negb _); simpl;
      rewrite ?app_nil_r; auto.
Qed.

(** ** The loader, the self-test and the run of the module *)

(** [pd.read_excel(path)]: the table of the file, or [None] when pandas
    raises. *)
Variable read_excel : FS → string → option (Frame num).
(** [AppConfig.TEST_DF] and [AppConfig.TEST_RESULT] of the settings module,
    which is not among the sources: a frame object and the number the
    self-test expects. *)
Variable TEST_DF : positive.
Variable TEST_RESULT : num.
(** [a == b] on numbers. *)
Variable num_eq : num → num → bool.

Definition Run (A : Type) : Type :=
  World num FS → (exception + A) * World num FS.

Definition pure {A} (a : A) : Run A := λ w, (inr a, w).

Definition throw {A} (e : exception) : Run A := λ w, (inl e, w).

Definition and_then {A B} (m : Run A) (k : A → Run B) : Run B :=
  λ w, match m w with
       | (inl e, w') => (inl e, w')
       | (inr a, w') => k a w'
       end.

(** A call into the pipeline: what it raises is passed on. *)
Definition call {A} (m : M A) : Run A :=
  λ w, match m w with
       | (inl e, w') => (inl (Raised e), w')
       | (inr a, w') => (inr a, w')
       end.

Notation "x <- m ;; k" := (and_then m (λ x, k))
  (at level 100, m at next level, right associativity).
Notation "m ;;; k" := (and_then m (λ _, k))
  (at level 100, right associativity).

(** [read_excel_file(excel_path)]. *)
Definition read_excel_file (excel_path : string) : Run positive :=
  (* if not os.path.exists(excel_path): raise FileNotFoundError(...) *)
  there <- (λ w, (inr (path_exists (files w) excel_path), w)) ;;
  if negb there then throw (FileNotFoundError excel_path) else
  (* try: df = pd.read_excel(excel_path)
     except Exception as e: raise Exception(...) *)
  df <- (λ w, (match read_excel (files w) excel_path with
               | Some f => inr f
               | None => inl ReadError
               end, w)) ;;
  (* return df *)
  call (alloc df).

(** [test_normalize_data()]. *)
Definition test_normalize_data : Run unit :=
  (* result = normalize_data(AppConfig.TEST_DF) *)
  result <- call (normalize_data TEST_DF) ;;
  (* assert 'Доход' in result.columns *)
  f <- call (deref result) ;;
  if negb (bool_decide ("Доход" ∈ columns f)) then throw AssertionError else
  (* assert result['Доход'].iloc[0] == AppConfig.TEST_RESULT;
     an empty cell (NaN) is equal to nothing *)
  match rows f with
  | [] => throw IndexError
  | r :: _ =>
      if match Доход r with
         | Some x => num_eq x TEST_RESULT
         | None => false
         end
      then pure tt else throw AssertionError
  end.

(** [for unique_object in unique_object_list: ...]. *)
Fixpoint for_each_object (normal_df : positive) (objects : list string)
    : Run unit :=
  match objects with
  | [] => pure tt
  | unique_object :: objects' =>
      (* filtered_df = normal_df[normal_df['Объект'] == unique_object].copy() *)
      call (need_column "Объект" normal_df) ;;;
      f <- call (deref normal_df) ;;
      selected <- call (alloc (mkFrame (columns f)
                                 (filter (λ r, Объект r = unique_object) (rows f)))) ;;
      g <- call (deref selected) ;;
      filtered_df <- call (alloc g) ;;
      (* save2xlsx(filtered_df, unique_object, result_file) *)
      call (save2xlsx filtered_df unique_object result_file mode_a) ;;;
      for_each_object normal_df objects'
  end.

(** The body of the [try] of the module's main block. *)
Definition run_pipeline : Run unit :=
  test_normalize_data ;;;
  df <- read_excel_file start_file ;;
  normal_df <- call (normalize_data df) ;;
  call (save2xlsx normal_df (before_dot result_file) result_file mode_w) ;;;
  stay_days_df <- call (analyze_stay_days normal_df) ;;
  call (save2xlsx stay_days_df "Анализ прод-ти пребывания" result_file mode_a) ;;;
  (* unique_object_list = sorted(normal_df['Объект'].unique()) *)
  call (need_column "Объект" normal_df) ;;;
  f <- call (deref normal_df) ;;
  let unique_object_list := sorted (unique (Объект <$> rows f)) in
  for_each_object normal_df unique_object_list.

(** The main block: whatever the body raises is caught and printed
    ("!Ошибка: ..."); the exception printed, if any, is returned with the
    state. *)
Definition main (w : World num FS) : option exception * World num FS :=
  match run_pipeline w with
  | (inl e, w') => (Some e, w')
  | (inr _, w') => (None, w')
  end.

(** *** The report, sheet by sheet

    What the writer calls of a run amount to, as a function of the
    normalized table: the sheets in the order they are written, and what
    writing them does to the files and to the printed lines. *)

(** One call of the writer on the result file. *)
Definition write_sheet (s : string * open_mode * Frame num)
    (st : FS * list event) : (FS * list event) * bool :=
  let there := path_exists st.1 result_file in
  let written :=
    ExcelWriter st.1 result_file (effective_mode s.1.2 there)
      (replace_char "/" "." s.1.1) (written_frame s.2) in
  ((written.1,
    (st.2 ++ fallback_message s.1.2 there s.1.1 ++
       if written.2 then [print_saved s.1.1] else [])%list),
   written.2).

(** The calls in order, up to the first that fails. *)
Fixpoint write_all (ss : list (string * open_mode * Frame num))
    (st : FS * list event) : (FS * list event) * bool :=
  match ss with
  | [] => (st, true)
  | s :: ss' =>
      let r := write_sheet s st in
      if r.2 then write_all ss' r.1 else r
  end.

Definition summary_of (today : date) (f : Frame num) : Frame num :=
  mkFrame summary_columns
    (filter (λ r, period_eq (Месяц r)
                    (pretty (year today) +:+ "-" +:+ pretty (month today)) = true)
       (summary_row column_sum <$> groupby (rows f))).

Definition object_frame (f : Frame num) (object : string) : Frame num :=
  mkFrame (columns f) (filter (λ r, Объект r = object) (rows f)).

Definition object_sheets (f : Frame num)
    : list (string * open_mode * Frame num) :=
  (λ object, (object, mode_a, object_frame f object))
    <$> sorted (unique (Объект <$> rows f)).

Definition report (today : date) (f : Frame num)
    : list (string * open_mode * Frame num) :=
  (before_dot result_file, mode_w, f)
  :: ("Анализ прод-ти пребывания", mode_a, summary_of today f)
  :: object_sheets f.

(** *** Steps of a run *)

Lemma and_then_call_inr {A B} (m : M A) (k : A → Run B)
    (w : World num FS) a w' :
  m w = (inr a, w') → and_then (call m) k w = k a w'.
Proof. intros H. unfold and_then, call. by rewrite H. Qed.

Lemma and_then_call_inl {A B} (m : M A) (k : A → Run B)
    (w : World num FS) e w' :
  m w = (inl e, w') → and_then (call m) k w = (inl (Raised e), w').
Proof. intros H. unfold and_then, call. by rewrite H. Qed.

Lemma and_then_inr {A B} (m : Run A) (k : A → Run B) (w : World num FS) a w' :
  m w = (inr a, w') → and_then m k w = k a w'.
Proof. intros H. unfold and_then. by rewrite H. Qed.

Lemma and_then_inl {A B} (m : Run A) (k : A → Run B) (w : World num FS) e w' :
  m w = (inl e, w') → and_then m k w = (inl e, w').
Proof. intros H. unfold and_then. by rewrite H. Qed.

Lemma need_column_ok c l f (w : World num FS) :
  heap w !! l = Some f → c ∈ columns f → need_column c l w = (inr tt, w).
Proof.
  intros H Hc. unfold need_column, bind, deref. rewrite H.
  by rewrite bool_decide_eq_true_2.
Qed.

Lemma deref_ok l f (w : World num FS) :
  heap w !! l = Some f → deref l w = (inr f, w).
Proof. intros H. unfold deref. by rewrite H. Qed.

(** *** The loader *)

Lemma read_excel_file_cases excel_path (w : World num FS) :
  read_excel_file excel_path w =
    if path_exists (files w) excel_path then
      match read_excel (files w) excel_path with
      | Some f =>
          (inr (fresh (dom (heap w))),
           with_heap (<[fresh (dom (heap w)) := f]> (heap w)) w)
      | None => (inl ReadError, w)
      end
    else (inl (FileNotFoundError excel_path), w).
Proof.
  unfold read_excel_file, and_then, throw, call, alloc. simpl.
  destruct (path_exists (files w) excel_path); simpl; [|done].
  by destruct (read_excel (files w) excel_path).
Qed.

(** X18.  [read_excel_file] looks for the file before it reads it: for a
    path that does not exist it raises [FileNotFoundError] with the path,
    for a file pandas cannot read the read error, and otherwise it returns
    the table read as a new frame.  It never changes a file, the log or a
    frame that was there, and a call that raises changes nothing. *)
Theorem read_excel_file_outcomes excel_path (w : World num FS) :
  let run := read_excel_file excel_path w in
  (files run.2 = files w ∧ log run.2 = log w ∧ clock run.2 = clock w
   ∧ ∀ l f, heap w !! l = Some f → heap run.2 !! l = Some f)
  ∧ (path_exists (files w) excel_path = false →
       run = (inl (FileNotFoundError excel_path), w))
  ∧ (path_exists (files w) excel_path = true →
       read_excel (files w) excel_path = None →
       run = (inl ReadError, w))
  ∧ (∀ f, path_exists (files w) excel_path = true →
       read_excel (files w) excel_path = Some f →
       ∃ l, run.1 = inr l ∧ heap w !! l = None ∧ heap run.2 !! l = Some f).
Proof.
  unfold read_excel_file, and_then, throw, call, alloc. simpl.
  destruct (path_exists (files w) excel_path); simpl.
  - destruct (read_excel (files w) excel_path) as [f|]; simpl.
    + split_and!; try done.
      * intros l g Hl. rewrite lookup_insert_ne; [done|by eapply fresh_ne].
      * intros g _ [= <-]. eexists. split_and!; [done| |].
        -- apply fresh_lookup.
        -- apply lookup_insert_eq.
    + split_and!; done.
  - split_and!; done.
Qed.

(** *** The self-test *)

Lemma test_normalize_data_cases (w : World num FS) :
  test_normalize_data w =
    match normalize_data TEST_DF w with
    | (inl e, w') => (inl (Raised e), w')
    | (inr result, w') =>
        match heap w' !! result with
        | None => (inl (Raised NameError), w')
        | Some f =>
            if bool_decide ("Доход" ∈ columns f) then
              match rows f with
              | [] => (inl IndexError, w')
              | r :: _ =>
                  if match Доход r with
                     | Some x => num_eq x TEST_RESULT
                     | None => false
                     end
                  then (inr tt, w') else (inl AssertionError, w')
              end
            else (inl AssertionError, w')
        end
    end.
Proof.
  unfold test_normalize_data, and_then, call, deref, throw, pure.
  destruct (normalize_data TEST_DF w) as [[e|result] w']; [done|].
  destruct (heap w' !! result) as [f|]; [|done].
  destruct (bool_decide ("Доход" ∈ columns f)); simpl; [|done].
  destruct (rows f) as [|r rest]; [done|].
  by destruct (match Доход r with Some x => num_eq x TEST_RESULT | None => false end).
Qed.

Lemma income_column_normalized cols : "Доход" ∈ normalized_columns cols.
Proof. do 4 apply elem_of_add_column. apply elem_of_add_column_self. Qed.

(** The self-test from the normalizer on, when the fixture is a frame. *)
Lemma test_normalize_data_returns f (w : World num FS) l w' :
  heap w !! TEST_DF = Some f →
  normalize_data TEST_DF w = (inr l, w') →
  test_normalize_data w =
    (match normalize_rows (rows f) with
     | [] => inl IndexError
     | r :: _ =>
         if match Доход r with
            | Some x => num_eq x TEST_RESULT
            | None => false
            end
         then inr tt else inl AssertionError
     end, w').
Proof.
  intros Hf Hrun. rewrite test_normalize_data_cases, Hrun.
  destruct (normalize_data_returns _ _ _ _ _ _ _ _ _ Hf Hrun) as (_ & Hl & _).
  rewrite Hl. simpl.
  rewrite bool_decide_eq_true_2 by apply income_column_normalized.
  destruct (normalize_rows (rows f)) as [|r rest]; [done|].
  by destruct (match Доход r with Some x => num_eq x TEST_RESULT | None => false end).
Qed.

(** X19.  The self-test passes exactly when the fixture normalizes and the
    first row of the normalized fixture has an income equal to the expected
    number. *)
Theorem test_normalize_data_passes f (w : World num FS) :
  heap w !! TEST_DF = Some f →
  (∃ w', test_normalize_data w = (inr tt, w')) ↔
  (∃ l w', normalize_data TEST_DF w = (inr l, w')) ∧
  ∃ r rest x, normalize_rows (rows f) = r :: rest
              ∧ Доход r = Some x ∧ num_eq x TEST_RESULT = true.
Proof.
  intros Hf. split.
  - intros [w' Htest].
    destruct (normalize_data TEST_DF w) as [[e|l] w1] eqn:Hrun.
    { by rewrite test_normalize_data_cases, Hrun in Htest. }
    split; [by eauto|].
    rewrite (test_normalize_data_returns f w l w1 Hf Hrun) in Htest.
    destruct (normalize_rows (rows f)) as [|r rest]; [done|].
    destruct (Доход r) as [x|] eqn:Hr; [|done].
    destruct (num_eq x TEST_RESULT) eqn:Hx; [|done].
    by exists r, rest, x.
  - intros [(l & w' & Hrun) (r & rest & x & Hrows & Hx & Heq)].
    exists w'. rewrite (test_normalize_data_returns f w l w' Hf Hrun).
    by rewrite Hrows, Hx, Heq.
Qed.

(** X20.  How the self-test fails.  What the normalizer raises is passed on
    with nothing changed; [IndexError] means that the normalized fixture has
    no row; [AssertionError] means that its first row has no income or
    another income than expected, so the assertion about the income column
    is never the one that fails.  In the last two cases the fixture has been
    normalized in place, and no file is changed in any case. *)
Theorem test_normalize_data_raises f (w : World num FS) e w' :
  heap w !! TEST_DF = Some f →
  test_normalize_data w = (inl e, w') →
  files w' = files w ∧
  match e with
  | Raised e' => normalize_data TEST_DF w = (inl e', w) ∧ w' = w
  | IndexError =>
      normalize_rows (rows f) = []
      ∧ heap w' !! TEST_DF =
          Some (mkFrame (parsed_columns (columns f)) (parsed_row <$> rows f))
  | AssertionError =>
      (∃ r rest, normalize_rows (rows f) = r :: rest
                 ∧ ∀ x, Доход r = Some x → num_eq x TEST_RESULT = false)
      ∧ heap w' !! TEST_DF =
          Some (mkFrame (parsed_columns (columns f)) (parsed_row <$> rows f))
  | _ => False
  end.
Proof.
  intros Hf Htest.
  destruct (normalize_data TEST_DF w) as [[e'|l] w1] eqn:Hrun.
  - rewrite test_normalize_data_cases, Hrun in Htest.
    injection Htest as <- <-.
    destruct (normalize_data_inl _ _ _ _ Hrun) as [-> _]. done.
  - rewrite (test_normalize_data_returns f w l w1 Hf Hrun) in Htest.
    destruct (normalize_data_returns _ _ _ _ _ _ _ _ _ Hf Hrun)
      as (_ & _ & Hdf & _ & Hfiles & _).
    destruct (normalize_rows (rows f)) as [|r rest] eqn:Hrows.
    { by injection Htest as <- <-. }
    destruct (match Доход r with Some x => num_eq x TEST_RESULT | None => false end)
      eqn:Hx; [done|].
    injection Htest as <- <-. split; [done|]. split; [|done].
    exists r, rest. split; [done|]. intros x Hr. by rewrite Hr in Hx.
Qed.

Lemma test_normalize_data_effects (w : World num FS) r w' :
  test_normalize_data w = (r, w') →
  files w' = files w ∧ clock w' = clock w ∧
  ∃ n, log w' = (log w ++ dropped_warning n)%list.
Proof.
  intros Htest.
  destruct (normalize_data TEST_DF w) as [[e'|l] w1] eqn:Hrun.
  - rewrite test_normalize_data_cases, Hrun in Htest.
    injection Htest as <- <-.
    destruct (normalize_data_inl _ _ _ _ Hrun) as [-> _].
    split_and!; [done|done|]. exists 0%nat. by rewrite app_nil_r.
  - destruct (heap w !! TEST_DF) as [f|] eqn:Hf; cycle 1.
    { by rewrite normalize_data_dangling in Hrun. }
    rewrite (test_normalize_data_returns f w l w1 Hf Hrun) in Htest.
    destruct (normalize_data_returns _ _ _ _ _ _ _ _ _ Hf Hrun)
      as (_ & _ & _ & _ & Hfiles & Hclock & Hlog).
    injection Htest as <- <-. split_and!; [done|done|]. by eexists.
Qed.

Lemma test_normalize_data_inl (w : World num FS) e w' :
  test_normalize_data w = (inl e, w') → e ≠ Raised IOError.
Proof.
  rewrite test_normalize_data_cases.
  destruct (normalize_data TEST_DF w) as [[e'|l] w1] eqn:Hrun.
  - intros [= <- <-] [= ->]. by destruct (normalize_data_inl _ _ _ _ Hrun).
  - intros Htest ->. by repeat case_match.
Qed.

(** *** The run, sheet by sheet *)

Lemma datetime_columns_Ts (f : Frame num) :
  (∀ r, r ∈ rows f → ∃ a b, Заезд r = Ts a ∧ Выезд r = Ts b) →
  datetime_columns f = true.
Proof.
  intros Hts. unfold datetime_columns. apply andb_true_iff.
  split; apply forallb_forall; intros r Hr%list_elem_of_In;
    destruct (Hts r Hr) as (a & b & Ha & Hb); by rewrite ?Ha, ?Hb.
Qed.

Lemma normalize_rows_Ts (rs : list (Row num)) r :
  r ∈ normalize_rows rs → ∃ a b, Заезд r = Ts a ∧ Выезд r = Ts b.
Proof.
  intros (r0 & _ & -> & _ & Hpos)%elem_of_normalize_rows.
  apply positive_days_normalized in Hpos as (a & b & Ha & Hb & _). eauto.
Qed.

(** A call of the writer on the result file is [write_sheet] on the files
    and the log. *)
Lemma save2xlsx_write_sheet df f (w : World num FS) sheet_name mode :
  heap w !! df = Some f →
  ("Заезд" ∈ columns f → "Выезд" ∈ columns f → datetime_columns f = true) →
  let written := write_sheet (sheet_name, mode, f) (files w, log w) in
  ∃ w',
    save2xlsx df sheet_name result_file mode w =
      (if written.2 then inr tt else inl IOError, w') ∧
    files w' = written.1.1 ∧ log w' = written.1.2 ∧ clock w' = clock w ∧
    ∀ l g, heap w !! l = Some g → heap w' !! l = Some g.
Proof.
  intros Hf Hdt. simpl. rewrite (save2xlsx_run _ _ _ f) by done.
  eexists. split; [reflexivity|]. simpl. split_and!; try done.
  intros l g Hl. rewrite lookup_insert_ne; [done|by eapply fresh_ne].
Qed.

Lemma for_each_object_run normal_df f objects :
  "Объект" ∈ columns f →
  (∀ r, r ∈ rows f → ∃ a b, Заезд r = Ts a ∧ Выезд r = Ts b) →
  ∀ w : World num FS,
    heap w !! normal_df = Some f →
    let written :=
      write_all ((λ object, (object, mode_a, object_frame f object)) <$> objects)
        (files w, log w) in
    ∃ w',
      for_each_object normal_df objects w =
        (if written.2 then inr tt else inl (Raised IOError), w') ∧
      files w' = written.1.1 ∧ log w' = written.1.2 ∧ clock w' = clock w.
Proof.
  intros Hcol Hts. induction objects as [|o objects IH]; intros w Hn.
  { simpl. by eexists. }
  cbn [for_each_object fmap list_fmap write_all].
  rewrite (and_then_call_inr _ _ _ _ _ (need_column_ok _ _ _ _ Hn Hcol)).
  rewrite (and_then_call_inr _ _ _ _ _ (deref_ok _ _ _ Hn)).
  unfold and_then at 1. unfold call at 1. unfold alloc at 1.
  set (l1 := fresh (dom (heap w))).
  set (w1 := with_heap (<[l1 := object_frame f o]> (heap w)) w).
  assert (heap w1 !! l1 = Some (object_frame f o)) as Hl1
    by apply lookup_insert_eq.
  change (mkFrame (columns f) (filter (λ r, Объект r = o) (rows f)))
    with (object_frame f o).
  fold w1.
  rewrite (and_then_call_inr _ _ _ _ _ (deref_ok _ _ _ Hl1)).
  unfold and_then at 1. unfold call at 1. unfold alloc at 1.
  set (l2 := fresh (dom (heap w1))).
  set (w2 := with_heap (<[l2 := object_frame f o]> (heap w1)) w1).
  assert (heap w2 !! l2 = Some (object_frame f o)) as Hl2
    by apply lookup_insert_eq.
  assert (heap w2 !! normal_df = Some f) as Hn2.
  { unfold w2, w1. simpl.
    rewrite lookup_insert_ne.
    - rewrite lookup_insert_ne; [done|by eapply fresh_ne].
    - eapply fresh_ne. simpl.
      rewrite lookup_insert_ne; [done|by eapply fresh_ne]. }
  destruct (save2xlsx_write_sheet l2 (object_frame f o) w2 o mode_a Hl2)
    as (w3 & Hsave & Hfiles & Hlog & Hclock & Hheap).
  { intros _ _. apply datetime_columns_Ts. intros r Hr.
    apply list_elem_of_filter in Hr as [_ Hr]. by apply Hts. }
  change (files w2) with (files w) in *. change (log w2) with (log w) in *.
  change (clock w2) with (clock w) in *.
  destruct (write_sheet (o, mode_a, object_frame f o) (files w, log w))
    as [st ok] eqn:Hws. cbn [fst snd] in *.
  destruct ok.
  - rewrite (and_then_call_inr _ _ _ _ _ Hsave).
    destruct (IH w3 (Hheap _ _ Hn2)) as (w' & Hrun & Hfiles' & Hlog' & Hclock').
    rewrite Hfiles, Hlog, <- surjective_pairing in Hrun, Hfiles', Hlog'.
    exists w'. split_and!; try done. congruence.
  - rewrite (and_then_call_inl _ _ _ _ _ Hsave).
    exists w3. by split_and!.
Qed.

Lemma not_date_column_summary c :
  c = "Заезд" ∨ c = "Выезд" → c ∉ summary_columns.
Proof.
  intros Hc Hin. apply list_elem_of_In in Hin. simpl in Hin.
  destruct Hc as [-> | ->]; by destruct Hin as [?|[?|[?|[?|[]]]]].
Qed.

(** The run once the input is normalized. *)
Lemma run_pipeline_normalized (w : World num FS) w1 df w2 normal_df w3 f :
  test_normalize_data w = (inr tt, w1) →
  read_excel_file start_file w1 = (inr df, w2) →
  normalize_data df w2 = (inr normal_df, w3) →
  heap w3 !! normal_df = Some f →
  (∀ col, col ∈ summary_columns → col ∈ columns f) →
  (∀ r, r ∈ rows f → ∃ a b, Заезд r = Ts a ∧ Выезд r = Ts b) →
  let written := write_all (report (clock w3) f) (files w3, log w3) in
  ∃ w',
    run_pipeline w =
      (if written.2 then inr tt else inl (Raised IOError), w') ∧
    files w' = written.1.1 ∧ log w' = written.1.2 ∧ clock w' = clock w3.
Proof.
  intros Htest Hread Hnorm Hn Hcols Hts.
  assert ("Объект" ∈ columns f) as Hobj.
  { apply Hcols, list_elem_of_In. simpl. auto. }
  unfold run_pipeline.
  rewrite (and_then_inr _ _ _ _ _ Htest), (and_then_inr _ _ _ _ _ Hread).
  rewrite (and_then_call_inr _ _ _ _ _ Hnorm).
  cbn [report write_all].
  (* the whole table *)
  destruct (save2xlsx_write_sheet normal_df f w3 (before_dot result_file)
              mode_w Hn)
    as (w4 & Hsave1 & Hfiles1 & Hlog1 & Hclock1 & Hheap1).
  { intros _ _. by apply datetime_columns_Ts. }
  destruct (write_sheet (before_dot result_file, mode_w, f) (files w3, log w3))
    as [st1 ok1] eqn:Hws1. cbn [fst snd] in *.
  destruct ok1; cycle 1.
  { rewrite (and_then_call_inl _ _ _ _ _ Hsave1). exists w4. by split_and!. }
  rewrite (and_then_call_inr _ _ _ _ _ Hsave1).
  (* the summary *)
  destruct (analyze_stay_days_returns normal_df f w4 (Hheap1 _ _ Hn) Hcols)
    as (l & w5 & Hanalyze & Hl & _ & Hheap2 & Hfiles2 & Hlog2 & Hclock2).
  rewrite (and_then_call_inr _ _ _ _ _ Hanalyze).
  rewrite Hclock1 in Hl.
  change (mkFrame summary_columns _) with (summary_of (clock w3) f) in Hl.
  destruct (save2xlsx_write_sheet l (summary_of (clock w3) f) w5
              "Анализ прод-ти пребывания" mode_a Hl)
    as (w6 & Hsave2 & Hfiles3 & Hlog3 & Hclock3 & Hheap3).
  { intros Ha. by apply not_date_column_summary in Ha; [|left]. }
  rewrite Hfiles2, Hlog2, Hfiles1, Hlog1, <- surjective_pairing
    in Hsave2, Hfiles3, Hlog3.
  destruct (write_sheet ("Анализ прод-ти пребывания", mode_a,
                         summary_of (clock w3) f) st1)
    as [st2 ok2] eqn:Hws2. cbn [fst snd] in *.
  destruct ok2; cycle 1.
  { rewrite (and_then_call_inl _ _ _ _ _ Hsave2). exists w6.
    split_and!; try done. congruence. }
  rewrite (and_then_call_inr _ _ _ _ _ Hsave2).
  (* the sheets of the properties *)
  assert (heap w6 !! normal_df = Some f) as Hn6.
  { apply Hheap3, Hheap2, Hheap1, Hn. }
  rewrite (and_then_call_inr _ _ _ _ _ (need_column_ok _ _ _ _ Hn6 Hobj)).
  rewrite (and_then_call_inr _ _ _ _ _ (deref_ok _ _ _ Hn6)).
  destruct (for_each_object_run normal_df f
              (sorted (unique (Объект <$> rows f))) Hobj Hts w6 Hn6)
    as (w' & Hloop & Hfiles' & Hlog' & Hclock').
  rewrite Hfiles3, Hlog3, <- surjective_pairing in Hloop, Hfiles', Hlog'.
  exists w'. split_and!; try done. congruence.
Qed.

Lemma read_excel_file_effects excel_path (w : World num FS) r w' :
  read_excel_file excel_path w = (r, w') →
  files w' = files w ∧ log w' = log w ∧ clock w' = clock w.
Proof.
  rewrite read_excel_file_cases. intros Hrun.
  by repeat case_match; injection Hrun as <- <-.
Qed.

Lemma read_excel_file_returns excel_path (w : World num FS) l w' :
  read_excel_file excel_path w = (inr l, w') →
  ∃ f, read_excel (files w) excel_path = Some f ∧ heap w' !! l = Some f
       ∧ path_exists (files w) excel_path = true.
Proof.
  rewrite read_excel_file_cases. intros Hrun.
  destruct (path_exists (files w) excel_path); [|done].
  destruct (read_excel (files w) excel_path) as [f|]; [|done].
  injection Hrun as <- <-. exists f. split_and!; [done| |done].
  apply lookup_insert_eq.
Qed.

Lemma summary_columns_normalized cols col :
  (∀ c, c ∈ REQUIRED_COLUMNS → c ∈ cols) →
  col ∈ summary_columns → col ∈ normalized_columns cols.
Proof.
  intros Hreq Hcol. apply list_elem_of_In in Hcol. simpl in Hcol.
  destruct Hcol as [<-|[<-|[<-|[<-|[]]]]].
  - do 5 apply elem_of_add_column. apply Hreq, list_elem_of_In. simpl. auto.
  - apply elem_of_add_column, elem_of_add_column_self.
  - apply elem_of_add_column_self.
  - apply income_column_normalized.
Qed.

(** How a run ends, stage by stage. *)
Lemma run_pipeline_cases (w : World num FS) :
  (∃ e w', run_pipeline w = (inl e, w') ∧ e ≠ Raised IOError
           ∧ files w' = files w
           ∧ ∀ ev, ev ∈ log w' → ev ∈ log w ∨ ∃ n, ev = warning_skipped n)
  ∨ ∃ w1 raw (w3 : World num FS),
      test_normalize_data w = (inr tt, w1) ∧
      path_exists (files w) start_file = true ∧
      read_excel (files w) start_file = Some raw ∧
      (∀ col, col ∈ REQUIRED_COLUMNS → col ∈ columns raw) ∧
      files w3 = files w ∧ clock w3 = clock w ∧
      log w3 =
        (log w1 ++ dropped_warning
           (List.length (filter (λ r, invalid_dates r = true)
                           (parsed_row <$> rows raw))))%list ∧
      let normal :=
        mkFrame (normalized_columns (columns raw)) (normalize_rows (rows raw)) in
      let written := write_all (report (clock w) normal) (files w, log w3) in
      ∃ w',
        run_pipeline w =
          (if written.2 then inr tt else inl (Raised IOError), w') ∧
        files w' = written.1.1 ∧ log w' = written.1.2.
Proof.
  assert (∀ n ev (lg lg0 : list event),
            (ev ∈ lg → ev ∈ lg0 ∨ ∃ n, ev = warning_skipped n) →
            ev ∈ (lg ++ dropped_warning n)%list →
            ev ∈ lg0 ∨ ∃ n, ev = warning_skipped n) as Hwarn.
  { intros n ev lg lg0 Hlg [H|H]%elem_of_app; [by apply Hlg|].
    destruct n; simpl in H; [by apply elem_of_nil in H|].
    apply list_elem_of_singleton in H. eauto. }
  destruct (test_normalize_data w) as [[e|[]] w1] eqn:Htest.
  { left. exists e, w1.
    destruct (test_normalize_data_effects w _ _ Htest) as (Hf & _ & n & Hlog).
    split_and!; try done.
    - unfold run_pipeline. by rewrite (and_then_inl _ _ _ _ _ Htest).
    - by eapply test_normalize_data_inl.
    - intros ev. rewrite Hlog. apply Hwarn. auto. }
  destruct (test_normalize_data_effects w _ _ Htest) as (Hf1 & Hc1 & n & Hlog1).
  destruct (read_excel_file start_file w1) as [[e|df] w2] eqn:Hread.
  { left. exists e, w2.
    destruct (read_excel_file_effects _ _ _ _ Hread) as (Hf2 & Hl2 & _).
    split_and!.
    - unfold run_pipeline.
      by rewrite (and_then_inr _ _ _ _ _ Htest), (and_then_inl _ _ _ _ _ Hread).
    - intros ->. rewrite read_excel_file_cases in Hread.
      by repeat case_match.
    - congruence.
    - intros ev. rewrite Hl2, Hlog1. apply Hwarn. auto. }
  destruct (read_excel_file_effects _ _ _ _ Hread) as (Hf2 & Hl2 & Hc2).
  destruct (read_excel_file_returns _ _ _ _ Hread) as (raw & Hraw & Hdf & Hthere).
  destruct (normalize_data df w2) as [[e|normal_df] w3] eqn:Hnorm.
  { left. exists (Raised e), w3.
    destruct (normalize_data_inl _ _ _ _ Hnorm) as [-> He].
    split_and!.
    - unfold run_pipeline.
      rewrite (and_then_inr _ _ _ _ _ Htest), (and_then_inr _ _ _ _ _ Hread).
      by rewrite (and_then_call_inl _ _ _ _ _ Hnorm).
    - by intros [= ->].
    - congruence.
    - intros ev. rewrite Hl2, Hlog1. apply Hwarn. auto. }
  destruct (normalize_data_returns _ _ _ _ _ _ _ _ _ Hdf Hnorm)
    as (Hmiss & Hn & _ & _ & Hf3 & Hc3 & Hlog3).
  right. exists w1, raw, w3.
  assert (∀ col, col ∈ REQUIRED_COLUMNS → col ∈ columns raw) as Hreq.
  { intros col. by apply required_present. }
  rewrite Hf1 in Hthere, Hraw.
  split_and!; try done; try congruence.
  destruct (run_pipeline_normalized w w1 df w2 normal_df w3 _
              Htest Hread Hnorm Hn) as (w' & Hrun & Hfiles & Hlog & _).
  { intros col. simpl. by apply summary_columns_normalized. }
  { intros r. simpl. apply normalize_rows_Ts. }
  exists w'.
  replace (clock w3) with (clock w) in * by congruence.
  replace (files w3) with (files w) in * by congruence.
  done.
Qed.

(** *** One sheet for every property *)

Lemma normalize_rows_by_key (rs : list (Row num)) :
  StronglySorted (λ r1 r2, string_le (Объект r1) (Объект r2) = true)
    (normalize_rows rs).
Proof.
  pose proof (@Sorted_StronglySorted _ _ (@row_le_trans num) _
                (normalize_rows_Sorted fmul float COMMISSION_RATES
                   parse_datetime rs)) as Hs.
  induction Hs as [|r l Hs IH Hr]; constructor; [done|].
  eapply Forall_impl; [exact Hr|]. intros r'. simpl. unfold row_le, string_le.
  by destruct (String.compare (Объект r) (Объект r')).
Qed.

(** X21.  The sheets of the properties cut the normalized table into
    consecutive blocks: read one after the other in the order they are
    written, they are the normalized table; their names increase strictly
    (no property has two sheets); and every sheet holds a row, all of its
    rows being of the property it is named after. *)
Theorem object_sheets_partition cols (rs : list (Row num)) :
  let f := mkFrame cols (normalize_rows rs) in
  List.concat ((λ s, rows s.2) <$> object_sheets f) = rows f
  ∧ StronglySorted (λ a b, String.compare a b = Lt)
      ((λ s, s.1.1) <$> object_sheets f)
  ∧ ∀ s, s ∈ object_sheets f →
      rows s.2 ≠ [] ∧ s.1.2 = mode_a ∧ columns s.2 = cols
      ∧ ∀ r, r ∈ rows s.2 → Объект r = s.1.1.
Proof.
  simpl. unfold object_sheets. simpl. split_and!.
  - rewrite <- list_fmap_compose.
    apply (concat_by_key _ (normalize_rows rs)).
    + apply sorted_unique_strict.
    + apply normalize_rows_by_key.
    + intros r Hr. apply elem_of_sorted_unique, list_elem_of_fmap. eauto.
  - rewrite <- list_fmap_compose.
    rewrite (list_fmap_ext _ id) by done.
    rewrite list_fmap_id. apply sorted_unique_strict.
  - intros s (o & -> & Ho)%list_elem_of_fmap. simpl.
    apply elem_of_sorted_unique, list_elem_of_fmap in Ho as (r & -> & Hr).
    split_and!; try done.
    + intros Hnil.
      assert (r ∈ filter (λ r0, Объект r0 = Объект r) (normalize_rows rs)) as Hin
        by (by apply list_elem_of_filter).
      rewrite Hnil in Hin. by apply elem_of_nil in Hin.
    + by intros r' [? _]%list_elem_of_filter.
Qed.

(** *** The run as a whole *)



Lemma write_all_appends (ss : list (string * open_mode * Frame num)) :
  (∀ fs file mode sheet f,
     (ExcelWriter fs file mode sheet f).2 = true →
     path_exists (ExcelWriter fs file mode sheet f).1 file = true) →
  ∀ st, path_exists st.1 result_file = true →
  ∀ s, print_logic_violated s ∈ (write_all ss st).1.2 →
       print_logic_violated s ∈ st.2.
Proof.
  intros Hwriter. induction ss as [|sh ss IH]; intros st Hthere s; [done|].
  cbn [write_all].
  assert (print_logic_violated s ∈ (write_sheet sh st).1.2 →
          print_logic_violated s ∈ st.2) as Hone.
  { unfold write_sheet. simpl. rewrite Hthere. unfold fallback_message.
    rewrite andb_false_r. simpl.
    intros [H|H]%elem_of_app; [done|].
    destruct (ExcelWriter _ _ _ _ _).2; [|by apply elem_of_nil in H].
    by apply list_elem_of_singleton in H. }
  destruct (write_sheet sh st).2 eqn:Hok; [|done].
  intros H. apply Hone, IH; [|done].
  unfold write_sheet in *. simpl in *. by apply Hwriter.
Qed.

(** X24.  The order of the writes is sound: if a file exists once the
    writer has written it, a run never prints the line about a missing
    result file, because the first sheet is written in overwrite mode and
    every later write follows a write that went through. *)
Theorem main_never_reports_missing_file (w : World num FS) r w' :
  (∀ fs file mode sheet f,
     (ExcelWriter fs file mode sheet f).2 = true →
     path_exists (ExcelWriter fs file mode sheet f).1 file = true) →
  main w = (r, w') →
  ∀ s, print_logic_violated s ∈ log w' → print_logic_violated s ∈ log w.
Proof.
  intros Hwriter Hmain s Hs. unfold main in Hmain.
  destruct (run_pipeline_cases w)
    as [(e0 & w0 & Hrun & _ & Hfiles & Hlog)
       |(w1 & raw & w3 & Htest & _ & _ & _ & _ & _ & Hlog3 & w0 & Hrun
         & _ & Hlog)];
    rewrite Hrun in Hmain.
  - injection Hmain as <- <-. by destruct (Hlog _ Hs) as [?|[n ?]].
  - assert (w' = w0) as -> by (destruct (write_all _ _).2; congruence).
    clear Hmain Hrun.
    destruct (test_normalize_data_effects w _ _ Htest) as (_ & _ & n & Hlog1).
    assert (∀ m (lg : list event),
              print_logic_violated s ∈ (lg ++ dropped_warning m)%list →
              print_logic_violated s ∈ lg) as Hwarn.
    { intros m lg [H|H]%elem_of_app; [done|].
      destruct m; simpl in H; [by apply elem_of_nil in H|].
      by apply list_elem_of_singleton in H. }
    apply (Hwarn n). rewrite <- Hlog1. eapply Hwarn. rewrite <- Hlog3.
    rewrite Hlog in Hs. revert Hs. cbn [report write_all].
    set (first := write_sheet _ _).
    assert (print_logic_violated s ∈ first.1.2 →
            print_logic_violated s ∈ log w3) as Hfirst.
    { unfold first, write_sheet. simpl.
      intros [H|H]%elem_of_app; [done|].
      destruct (ExcelWriter _ _ _ _ _).2; [|by apply elem_of_nil in H].
      by apply list_elem_of_singleton in H. }
    destruct first.2 eqn:Hok; [|done].
    intros Hs. apply Hfirst.
    eapply (write_all_appends
              (("Анализ прод-ти пребывания", mode_a, summary_of _ _)
               :: object_sheets _)); [exact Hwriter| |exact Hs].
    unfold first, write_sheet in *. simpl in *. by apply Hwriter.
Qed.

(** ** The normalizer with the aggregator and the writer *)

(** X25.  The header of a normalized table: the columns of the argument in
    their order, followed by those of income, period and stay length that
    the argument did not have, in this order; the argument itself, updated
    in place, has gained the income column only. *)
Theorem normalize_data_header df f (w : World num FS) l w' :
  heap w !! df = Some f →
  normalize_data df w = (inr l, w') →
  ∃ out arg,
    heap w' !! l = Some out ∧ heap w' !! df = Some arg ∧
    columns out =
      (columns f ++ filter (λ c, c ∉ columns f)
                      ["Доход"; "Месяц"; "Дни_проживания"])%list ∧
    columns arg =
      (columns f ++ filter (λ c, c ∉ columns f) ["Доход"])%list.
Proof.
  intros Hf Hrun.
  destruct (normalize_data_returns _ _ _ _ _ _ _ _ _ Hf Hrun)
    as (Hmiss & Hl & Hdf & _).
  destruct (normalized_columns_header (columns f)) as [Hn Hp].
  { apply (required_present _ _ Hmiss), list_elem_of_In. simpl. auto 10. }
  { apply (required_present _ _ Hmiss), list_elem_of_In. simpl. auto 10. }
  eexists _, _. split_and!; [exact Hl|exact Hdf|exact Hn|exact Hp].
Qed.

Lemma sum_days_positive (rs : list (Row num)) :
  rs ≠ [] →
  (∀ r, r ∈ rs → ∃ d, Дни_проживания r = Some d ∧ 0 < d) →
  0 < sum_days rs.
Proof.
  assert (∀ rs : list (Row num),
            (∀ r, r ∈ rs → ∃ d, Дни_проживания r = Some d ∧ 0 < d) →
            0 ≤ sum_days rs) as Hnonneg.
  { intros l. induction l as [|r l IH]; intros Hall; [done|].
    rewrite sum_days_cons.
    destruct (Hall r) as (d & Hd & Hpos); [left|].
    assert (0 ≤ sum_days l) by (apply IH; intros r' Hr'; apply Hall; by right).
    unfold sum_days at 1. simpl. rewrite Hd. simpl. lia. }
  destruct rs as [|r rs]; [done|]. intros _ Hall.
  rewrite sum_days_cons.
  destruct (Hall r) as (d & Hd & Hpos); [left|].
  assert (0 ≤ sum_days rs) by (apply Hnonneg; intros r' Hr'; apply Hall; by right).
  unfold sum_days at 1. simpl. rewrite Hd. simpl. lia.
Qed.

(** X26.  A normalized table can always be summarized: on the result of
    [normalize_data] the aggregator raises nothing, and every row of the
    summary has a total of stay days that is positive. *)
Theorem normalized_can_be_summarized df f (w : World num FS) l w' :
  heap w !! df = Some f →
  normalize_data df w = (inr l, w') →
  ∃ l2 w2 out,
    analyze_stay_days l w' = (inr l2, w2) ∧ heap w2 !! l2 = Some out ∧
    ∀ row, row ∈ rows out → ∃ d, Дни_проживания row = Some d ∧ 0 < d.
Proof.
  intros Hf Hrun.
  destruct (normalize_data_returns _ _ _ _ _ _ _ _ _ Hf Hrun)
    as (Hmiss & Hl & _).
  destruct (analyze_stay_days_returns l _ w' Hl)
    as (l2 & w2 & Hrun2 & Hl2 & _).
  { intros col. simpl. apply summary_columns_normalized.
    intros c. by apply required_present. }
  eexists l2, w2, _. split_and!; [exact Hrun2|exact Hl2|]. simpl.
  intros row [_ Hrow]%list_elem_of_filter.
  apply list_elem_of_fmap in Hrow as ([k g] & -> & Hg).
  apply groupby_elem in Hg as [-> Hne].
  eexists. split; [reflexivity|]. simpl.
  apply sum_days_positive; [done|].
  intros r [_ Hr]%list_elem_of_filter.
  apply elem_of_normalize_rows in Hr as (r0 & _ & -> & _ & Hpos).
  unfold positive_days in Hpos.
  destruct (Дни_проживания (normalized_row r0)) as [d|]; [|done].
  exists d. split; [done|]. by apply bool_decide_eq_true in Hpos.
Qed.

Lemma later_day a b :
  0 < timedelta_days b a → date_of_timestamp a < date_of_timestamp b.
Proof.
  unfold timedelta_days, date_of_timestamp. intros Hpos.
  assert (0 < day_ns) as Hd by done.
  assert (day_ns ≤ b - a) as Hle.
  { destruct (decide (day_ns ≤ b - a)) as [|Hlt]; [done|].
    assert ((b - a) `div` day_ns < 1); [|lia].
    apply Z.div_lt_upper_bound; lia. }
  assert ((a + 1 * day_ns) `div` day_ns ≤ b `div` day_ns) as Hdiv
    by (apply Z.div_le_mono; lia).
  rewrite Z.div_add in Hdiv by lia. lia.
Qed.

(** X27.  A normalized table can always be written: on the result of
    [normalize_data] the writer raises nothing but [IOError], and in the
    frame it hands to the spreadsheet writer every arrival and departure is
    a plain date, the departure strictly after the arrival. *)
Theorem normalized_can_be_written df f (w : World num FS) l w'
    sheet_name file_name mode r w2 :
  heap w !! df = Some f →
  normalize_data df w = (inr l, w') →
  save2xlsx l sheet_name file_name mode w' = (r, w2) →
  ∃ out,
    heap w' !! l = Some out ∧
    (r = inr tt ∨ r = inl IOError) ∧
    files w2 =
      (ExcelWriter (files w') file_name
         (effective_mode mode (path_exists (files w') file_name))
         (replace_char "/" "." sheet_name) (written_frame out)).1 ∧
    ∀ row, row ∈ rows (written_frame out) →
      ∃ a b, Заезд row = Day a ∧ Выезд row = Day b ∧ a < b.
Proof.
  intros Hf Hrun Hsave.
  destruct (normalize_data_returns _ _ _ _ _ _ _ _ _ Hf Hrun)
    as (Hmiss & Hl & _).
  eexists. split; [exact Hl|].
  rewrite (save2xlsx_run _ _ _ _ _ _ _ _ Hl) in Hsave; cycle 1.
  { intros _ _. apply datetime_columns_Ts. intros r0. simpl.
    apply normalize_rows_Ts. }
  simpl in Hsave. injection Hsave as <- <-. simpl. split_and!; [|done|].
  - destruct (ExcelWriter _ _ _ _ _).2; auto.
  - rewrite written_frame_normalized; cycle 1.
    { simpl. do 5 apply elem_of_add_column.
      apply (required_present _ _ Hmiss), list_elem_of_In. simpl. auto 10. }
    { simpl. do 5 apply elem_of_add_column.
      apply (required_present _ _ Hmiss), list_elem_of_In. simpl. auto 10. }
    simpl. rewrite <- list_fmap_compose.
    intros row (r0 & -> & Hr0)%list_elem_of_fmap.
    apply elem_of_normalize_rows in Hr0 as (r1 & _ & -> & _ & Hpos).
    apply positive_days_normalized in Hpos as (a & b & Ha & Hb & _ & Hpos).
    exists (date_of_timestamp a), (date_of_timestamp b).
    unfold compose, set_Выезд, set_Заезд. cbn [Заезд Выезд].
    rewrite Ha, Hb. split_and!; [done|done|]. by apply later_day.
Qed.
End Program.

(** ** The further theorems at the example data *)

(** Reading a workbook gives the table of its first sheet. *)
Definition workbook_read (fs : workbooks) (file : string) : option (Frame Q) :=
  match fs !! file with
  | Some ((_, f) :: _) => Some f
  | _ => None
  end.

(** The example world with the input workbook in place. *)
Definition example_input : World Q workbooks :=
  mkWorld (heap example_world) (<[start_file := [("Лист1", example_frame)]]> ∅)
    [] (mkdate 2025 3 14).

(** A frame whose arrivals are parsed and whose departures are still text. *)
Definition mixed_dates_frame : Frame Q :=
  mkFrame REQUIRED_COLUMNS
    [ mkRow "Hotel A" (Some "Avito") (Some 100%Q) (Ts 1740009600000000000)
        (Str "01.03.2025") None None None ].

Definition mixed_dates_world : World Q workbooks :=
  mkWorld (<[1%positive := mixed_dates_frame]> ∅) ∅ [] (mkdate 2025 3 14).

(** The self-test on the example frame, expecting [expected] as the first
    income. *)
Definition example_test (expected : Q) (w : World Q workbooks)
    : (exception + unit) * World Q workbooks :=
  test_normalize_data mul_Q float_decimal example_rates parse_dmy 1 expected
    Qeq_bool w.

(** The main block at the example parameters. *)
Definition example_main (w : World Q workbooks)
    : option exception * World Q workbooks :=
  main mul_Q sum_Q float_decimal example_rates parse_dmy workbook_exists
    workbook_write workbook_read 1 90%Q Qeq_bool w.

Lemma calculate_income_order_irrelevant_witness :
  calculate_income mul_Q float_decimal
    [("0.85", ["Booking.com"]); ("0.9", ["Avito"])]
    (booking "Hotel A" "Avito" 1000 "01.03.2025" "03.03.2025")
  = calculate_income mul_Q float_decimal
      [("0.9", ["Avito"]); ("0.85", ["Booking.com"])]
      (booking "Hotel A" "Avito" 1000 "01.03.2025" "03.03.2025").
Proof.
  apply calculate_income_order_irrelevant.
  - apply Permutation_swap.
  - intros b1 b2 source H1 H2 [= <-] Hs1 Hs2.
    apply list_elem_of_In in H1, H2. simpl in H1, H2.
    destruct H1 as [<-|[<-|[]]], H2 as [<-|[<-|[]]]; try reflexivity;
      exfalso; simpl in Hs1, Hs2.
    + apply list_elem_of_singleton in Hs1. discriminate.
    + apply list_elem_of_singleton in Hs2. discriminate.
Defined.




Lemma normalize_data_idempotent_witness :
  ∃ out l2 w2,
    heap (normalize_data mul_Q float_decimal example_rates parse_dmy 1
            example_world).2 !! 8%positive = Some out
    ∧ normalize_data mul_Q float_decimal example_rates parse_dmy 8
        (normalize_data mul_Q float_decimal example_rates parse_dmy 1
           example_world).2 = (inr l2, w2)
    ∧ heap w2 !! l2 = Some out ∧ heap w2 !! 8%positive = Some out
    ∧ log w2 = log (normalize_data mul_Q float_decimal example_rates parse_dmy 1
                      example_world).2
    ∧ files w2 = files (normalize_data mul_Q float_decimal example_rates
                          parse_dmy 1 example_world).2.
Proof.
  apply (normalize_data_idempotent mul_Q float_decimal example_rates parse_dmy
           1 example_frame example_world 8).
  - vm_compute. reflexivity.
  - vm_compute. reflexivity.
Defined.

Lemma normalize_data_again_on_argument_witness :
  ∃ out l2 w2,
    heap (normalize_data mul_Q float_decimal example_rates parse_dmy 1
            example_world).2 !! 8%positive = Some out
    ∧ normalize_data mul_Q float_decimal example_rates parse_dmy 1
        (normalize_data mul_Q float_decimal example_rates parse_dmy 1
           example_world).2 = (inr l2, w2)
    ∧ heap w2 !! l2 = Some out.
Proof.
  destruct (normalize_data_again_on_argument mul_Q float_decimal example_rates
              parse_dmy 1 example_frame example_world 8
              (normalize_data mul_Q float_decimal example_rates parse_dmy 1
                 example_world).2)
    as (out & l2 & w2 & Hout & Hrun & Hl2 & _).
  - vm_compute. reflexivity.
  - vm_compute. reflexivity.
  - exists out, l2, w2. split_and!; [exact Hout|exact Hrun|exact Hl2].
Defined.

Lemma validate_dates_key_error_witness :
  validate_dates 2 example_world = (inl (KeyError "Заезд"), example_world).
Proof.
  apply (proj1 (validate_dates_key_error 2 example_frame_without_dates
                  example_world eq_refl)).
  by_compute.
Defined.

Lemma validate_dates_idempotent_witness :
  ∃ out l2 w2,
    heap (validate_dates 5 example_world).2 !! 6%positive = Some out
    ∧ validate_dates 6 (validate_dates 5 example_world).2 = (inr l2, w2)
    ∧ heap w2 !! l2 = Some out ∧ heap w2 !! 6%positive = Some out
    ∧ log w2 = log (validate_dates 5 example_world).2.
Proof.
  apply (validate_dates_idempotent 5 example_parsed example_world 6).
  - vm_compute. reflexivity.
  - vm_compute. reflexivity.
Defined.

Lemma analyze_stay_days_key_error_witness :
  ∃ col, col ∈ summary_columns ∧ (col ∉ columns example_frame)
         ∧ analyze_stay_days sum_Q 1 example_world
           = (inl (KeyError col), example_world).
Proof.
  apply (analyze_stay_days_key_error sum_Q 1 example_frame example_world).
  - vm_compute. reflexivity.
  - exists "Месяц". split; by_compute.
Defined.

Lemma analyze_stay_days_no_side_effect_witness :
  files (analyze_stay_days sum_Q 4 example_world).2 = files example_world
  ∧ log (analyze_stay_days sum_Q 4 example_world).2 = log example_world
  ∧ heap (analyze_stay_days sum_Q 4 example_world).2 !! 4%positive
    = Some example_normalized.
Proof.
  destruct (analyze_stay_days_no_side_effect sum_Q 4 example_world
              (inr 8%positive) (analyze_stay_days sum_Q 4 example_world).2)
    as (Hfiles & Hlog & _ & Hheap & _).
  - vm_compute. reflexivity.
  - split_and!; [exact Hfiles|exact Hlog|]. apply Hheap.
    vm_compute. reflexivity.
Defined.


Lemma normalize_df_dates_in_place_witness :
  dom (heap (normalize_df_dates 4 example_world).2) = dom (heap example_world)
  ∧ files (normalize_df_dates 4 example_world).2 = files example_world
  ∧ log (normalize_df_dates 4 example_world).2 = log example_world.
Proof.
  destruct (normalize_df_dates_in_place 4 example_world (inr 4%positive)
              (normalize_df_dates 4 example_world).2)
    as (_ & Hdom & _ & Hfiles & Hlog & _).
  - vm_compute. reflexivity.
  - split_and!; [exact Hdom|exact Hfiles|exact Hlog].
Defined.

Lemma normalize_df_dates_partial_update_witness :
  ∃ w' f',
    normalize_df_dates 1 mixed_dates_world
    = (inl (AttributeError_dt "Выезд"), w')
    ∧ heap w' !! 1%positive = Some f'
    ∧ Заезд <$> rows f' = [Day 20139]
    ∧ Выезд <$> rows f' = [Str "01.03.2025"].
Proof.
  destruct (normalize_df_dates_partial_update 1 mixed_dates_frame
              mixed_dates_world)
    as (w' & f' & Hrun & Hf' & _ & Ha & Hd & _).
  - vm_compute. reflexivity.
  - by_compute.
  - by_compute.
  - vm_compute. reflexivity.
  - vm_compute. reflexivity.
  - exists w', f'. split_and!; [exact Hrun|exact Hf'| |].
    + rewrite Ha. vm_compute. reflexivity.
    + rewrite Hd. vm_compute. reflexivity.
Defined.

Lemma normalize_df_dates_twice_witness :
  normalize_df_dates 4 (normalize_df_dates 4 example_world).2
  = (inl (AttributeError_dt "Заезд"), (normalize_df_dates 4 example_world).2).
Proof.
  apply (normalize_df_dates_twice 4 example_normalized example_world 4).
  - vm_compute. reflexivity.
  - vm_compute. reflexivity.
  - eexists _, 1740009600000000000. split; [left|reflexivity].
Defined.

Lemma save2xlsx_dates_not_datetime_witness :
  ∃ w',
    save2xlsx workbook_exists workbook_write 1 "Hotel/A" "out.xlsx" mode_a
      example_world = (inl (AttributeError_dt "Заезд"), w')
    ∧ files w' = files example_world ∧ log w' = log example_world
    ∧ clock w' = clock example_world.
Proof.
  apply (save2xlsx_dates_not_datetime workbook_exists workbook_write 1
           example_frame example_world "Hotel/A" "out.xlsx" mode_a).
  - vm_compute. reflexivity.
  - by_compute.
  - by_compute.
  - vm_compute. reflexivity.
Defined.

Lemma save2xlsx_outcomes_witness :
  clock (save2xlsx workbook_exists workbook_write 4 "Hotel/A" "out.xlsx" mode_a
           example_world).2 = clock example_world
  ∧ (log (save2xlsx workbook_exists workbook_write 4 "Hotel/A" "out.xlsx"
            mode_a example_world).2
     = (log example_world ++ [print_saved "Hotel/A"])%list
     ∨ log (save2xlsx workbook_exists workbook_write 4 "Hotel/A" "out.xlsx"
              mode_a example_world).2
       = (log example_world
            ++ [print_logic_violated "Hotel/A"; print_saved "Hotel/A"])%list).
Proof.
  apply (save2xlsx_outcomes workbook_exists workbook_write 4 example_world
           "Hotel/A" "out.xlsx" mode_a (inr tt)).
  vm_compute. reflexivity.
Defined.

Lemma test_normalize_data_passes_witness :
  ∃ w', example_test 90 example_world = (inr tt, w').
Proof.
  apply (proj2 (test_normalize_data_passes mul_Q float_decimal example_rates
                  parse_dmy 1 90%Q Qeq_bool example_frame example_world
                  eq_refl)).
  split.
  - eexists 8%positive, _. vm_compute. reflexivity.
  - exists (mkRow "Hotel A" (Some "Avito") (Some 100%Q) (Ts 1740009600000000000)
              (Ts 1740787200000000000) (Some 90%Q) (Some 661) (Some 9)),
      (tail (rows example_normalized)), 90%Q.
    split_and!; vm_compute; reflexivity.
Defined.

Lemma test_normalize_data_raises_witness :
  files (example_test 0 example_world).2 = files example_world
  ∧ ∃ r rest,
      normalize_rows mul_Q float_decimal example_rates parse_dmy
        (rows example_frame) = r :: rest
      ∧ ∀ x, Доход r = Some x → Qeq_bool x 0 = false.
Proof.
  destruct (test_normalize_data_raises mul_Q float_decimal example_rates
              parse_dmy 1 0%Q Qeq_bool example_frame example_world
              AssertionError (example_test 0 example_world).2)
    as (Hfiles & Hrows & _).
  - vm_compute. reflexivity.
  - vm_compute. reflexivity.
  - split; [exact Hfiles|exact Hrows].
Defined.



Lemma workbook_write_exists (fs : workbooks) file mode sheet (f : Frame Q) :
  (workbook_write fs file mode sheet f).2 = true →
  workbook_exists (workbook_write fs file mode sheet f).1 file = true.
Proof.
  unfold workbook_write, workbook_exists. destruct mode.
  - intros _. simpl. apply bool_decide_eq_true. eexists.
    apply (lookup_insert_eq (M := gmap string)).
  - destruct (fs !! file) as [wb|] eqn:Hwb; [|done].
    case_bool_decide; [done|]. intros _. simpl. apply bool_decide_eq_true.
    eexists. apply (lookup_insert_eq (M := gmap string)).
Qed.

Lemma main_never_reports_missing_file_witness :
  (example_main example_input).1 = None
  ∧ ∀ s, print_logic_violated s ∈ log (example_main example_input).2 →
         print_logic_violated s ∈ log example_input.
Proof.
  split; [vm_compute; reflexivity|].
  apply (main_never_reports_missing_file mul_Q sum_Q float_decimal example_rates
           parse_dmy workbook_exists workbook_write workbook_read 1 90%Q
           Qeq_bool example_input None).
  - apply workbook_write_exists.
  - vm_compute. reflexivity.
Defined.

Lemma normalize_data_header_witness :
  ∃ out arg,
    heap (normalize_data mul_Q float_decimal example_rates parse_dmy 1
            example_world).2 !! 8%positive = Some out
    ∧ heap (normalize_data mul_Q float_decimal example_rates parse_dmy 1
              example_world).2 !! 1%positive = Some arg
    ∧ columns out
      = ["Объект"; "Источник"; "Сумма"; "Заезд"; "Выезд"; "Доход"; "Месяц";
         "Дни_проживания"]
    ∧ columns arg
      = ["Объект"; "Источник"; "Сумма"; "Заезд"; "Выезд"; "Доход"].
Proof.
  destruct (normalize_data_header mul_Q float_decimal example_rates parse_dmy
              1 example_frame example_world 8
              (normalize_data mul_Q float_decimal example_rates parse_dmy 1
                 example_world).2)
    as (out & arg & Hout & Harg & Hcols & Hcols').
  - vm_compute. reflexivity.
  - vm_compute. reflexivity.
  - exists out, arg. split_and!; [exact Hout|exact Harg| |].
    + rewrite Hcols. vm_compute. reflexivity.
    + rewrite Hcols'. vm_compute. reflexivity.
Defined.

Lemma normalized_can_be_summarized_witness :
  ∃ l2 w2 out,
    analyze_stay_days sum_Q 8
      (normalize_data mul_Q float_decimal example_rates parse_dmy 1
         example_world).2 = (inr l2, w2)
    ∧ heap w2 !! l2 = Some out
    ∧ ∀ row, row ∈ rows out → ∃ d, Дни_проживания row = Some d ∧ 0 < d.
Proof.
  apply (normalized_can_be_summarized mul_Q sum_Q float_decimal example_rates
           parse_dmy 1 example_frame example_world 8).
  - vm_compute. reflexivity.
  - vm_compute. reflexivity.
Defined.

Lemma normalized_can_be_written_witness :
  ∃ out,
    heap (normalize_data mul_Q float_decimal example_rates parse_dmy 1
            example_world).2 !! 8%positive = Some out
    ∧ ∀ row, row ∈ rows (written_frame out) →
        ∃ a b, Заезд row = Day a ∧ Выезд row = Day b ∧ a < b.
Proof.
  destruct (normalized_can_be_written mul_Q float_decimal example_rates
              parse_dmy workbook_exists workbook_write 1 example_frame
              example_world 8
              (normalize_data mul_Q float_decimal example_rates parse_dmy 1
                 example_world).2
              "Hotel/A" "out.xlsx" mode_a (inr tt)
              (save2xlsx workbook_exists workbook_write 8 "Hotel/A" "out.xlsx"
                 mode_a
                 (normalize_data mul_Q float_decimal example_rates parse_dmy 1
                    example_world).2).2)
    as (out & Hout & _ & _ & Hrows).
  - vm_compute. reflexivity.
  - vm_compute. reflexivity.
  - vm_compute. reflexivity.
  - exists out. split; [exact Hout|exact Hrows].
Defined.

(** The first sheet is named after the result file. *)
Example before_dot_result_file : before_dot result_file = "Список Бронирований".
Proof. vm_compute. reflexivity. Qed.

(** Without the input workbook the run ends in the loader. *)
Example main_without_input :
  (example_main example_world).1 = Some (FileNotFoundError "Для Анализа.xlsx").
Proof. vm_compute. reflexivity. Qed.
